(** * SCoT: the object-oriented pipeline orchestrator ([scot/ooapi.py])

    A shallow embedding of class [SCoT]: the attribute record, its methods
    as computations in a state-and-exception monad, and the sliding-window
    time/frequency loop.  The numerical collaborators ([mvarica], [var.fit],
    [Connectivity], [Topoplot]) are the fields of one interface class. *)

From Stdlib Require Import ZArith List String Bool Lia Sorted QArith SpecFloat.
From stdpp Require Import base list.
Import ListNotations.

Local Open Scope string_scope.
Local Open Scope Z_scope.
Local Open Scope list_scope.
Local Close Scope Q_scope.

(** ** Exceptions and results *)

(** The Python exceptions the orchestrator can meet.  [LinAlgError] stands
    for whatever a numerical collaborator raises. *)
Inductive exn : Type :=
| RuntimeError (msg : string)
| AttributeError (name : string)
| KeyError (key : option Z)
| IndexError
| ValueError
| ZeroDivisionError
| TypeError
| LinAlgError (msg : string).

Inductive res (A : Type) : Type :=
| Ok (a : A)
| Raise (e : exn).
Arguments Ok {A} a.
Arguments Raise {A} e.

Definition res_bind {A B} (r : res A) (k : A -> res B) : res B :=
  match r with
  | Ok a => k a
  | Raise e => Raise e
  end.

Notation "'let?' x ':=' c 'in' k" := (res_bind c (fun x => k))
  (at level 10, x pattern, c at level 100, k at level 200).

Definition is_ok {A} (r : res A) : bool :=
  match r with Ok _ => true | Raise _ => false end.

(** ** Python and numpy builtins *)

(** [a // b] on Python integers: floor division, [ZeroDivisionError] on a
    zero divisor. *)
Definition floordiv (a b : Z) : res Z :=
  if b =? 0 then Raise ZeroDivisionError else Ok (a / b).

(** [range(0, stop, step)]: the number of elements and the elements
    themselves; a zero step is a [ValueError]. *)
Definition range_len (stop step : Z) : Z :=
  if 0 <? step then Z.max 0 ((stop + step - 1) / step)
  else Z.max 0 ((- stop + (- step) - 1) / (- step)).

Definition py_range (stop step : Z) : res (list Z) :=
  if step =? 0 then Raise ValueError
  else Ok (map (fun i => Z.of_nat i * step)
               (seq 0 (Z.to_nat (range_len stop step)))).

(** [np.arange(len) + n]. *)
Definition arange_plus (len n : Z) : list Z :=
  map (fun i => Z.of_nat i + n) (seq 0 (Z.to_nat len)).

(** [np.unique]: the distinct labels in increasing order. *)
Fixpoint insert_uniq (x : Z) (l : list Z) : list Z :=
  match l with
  | [] => [x]
  | y :: t =>
      if x <? y then x :: l
      else if x =? y then l
      else y :: insert_uniq x t
  end.

Definition unique (l : list Z) : list Z := fold_right insert_uniq [] l.

(** ** Python dictionaries, in insertion order *)

Section Dict.
Context {V : Type}.

Definition dict := list (Z * V).

Fixpoint dict_get (k : Z) (d : list (Z * V)) : option V :=
  match d with
  | [] => None
  | (k', v) :: t => if k =? k' then Some v else dict_get k t
  end.

(** [d[k] = v]: overwrite in place when present, append otherwise. *)
Fixpoint dict_set (k : Z) (v : V) (d : list (Z * V)) : list (Z * V) :=
  match d with
  | [] => [(k, v)]
  | (k', v') :: t =>
      if k =? k' then (k', v) :: t else (k', v') :: dict_set k v t
  end.

Definition dict_keys (d : list (Z * V)) : list Z := map fst d.

(** [d[k]] as an expression: [KeyError] when absent. *)
Definition dict_item (k : Z) (d : list (Z * V)) : res V :=
  match dict_get k d with
  | Some v => Ok v
  | None => Raise (KeyError (Some k))
  end.
End Dict.
Arguments dict V : clear implicits.

(** A field that holds either one instance or a label-keyed dictionary
    ([isinstance(x, dict)] tells them apart). *)
Inductive per_class (A : Type) : Type :=
| Single (a : A)
| PerClass (d : list (Z * A)).
Arguments Single {A} a.
Arguments PerClass {A} d.

(** Monadic folds: the shape of every [for] loop in the module. *)
Fixpoint res_fold {A X} (f : A -> X -> res A) (l : list X) (acc : A) : res A :=
  match l with
  | [] => Ok acc
  | x :: t => let? acc' := f acc x in res_fold f t acc'
  end.

Fixpoint res_map {X Y} (f : X -> res Y) (l : list X) : res (list Y) :=
  match l with
  | [] => Ok []
  | x :: t => let? y := f x in let? ys := res_map f t in Ok (y :: ys)
  end.

(** ** Arrays *)

(** A 3-D numpy array: its [shape] attribute and its entries, indexed
    [sample][channel][trial]. *)
Record array3 (R : Type) : Type := mk_array3 {
  shape3 : nat * nat * nat;
  elems3 : list (list (list R))
}.
Arguments mk_array3 {R}.
Arguments shape3 {R}.
Arguments elems3 {R}.

Record matrix (R : Type) : Type := mk_matrix {
  shape2 : nat * nat;
  rows2 : list (list R)
}.
Arguments mk_matrix {R}.
Arguments shape2 {R}.
Arguments rows2 {R}.

(** What [setData] may be handed: an array of dimension 0 to 3. *)
Inductive ndarray (R : Type) : Type :=
| Nd0 (x : R)
| Nd1 (v : list R)
| Nd2 (m : matrix R)
| Nd3 (a : array3 R).
Arguments Nd0 {R}.
Arguments Nd1 {R}.
Arguments Nd2 {R}.
Arguments Nd3 {R}.

(** [np.atleast_3d]: a scalar becomes (1,1,1), a vector of length n becomes
    (1,n,1), a matrix (m,n) becomes (m,n,1), a 3-D array is returned as is. *)
Definition atleast_3d {R} (x : ndarray R) : array3 R :=
  match x with
  | Nd0 x => mk_array3 (1, 1, 1)%nat [[[x]]]
  | Nd1 v => mk_array3 (1, length v, 1)%nat [map (fun x => [x]) v]
  | Nd2 m => mk_array3 (fst (shape2 m), snd (shape2 m), 1%nat)
               (map (map (fun x => [x])) (rows2 m))
  | Nd3 a => a
  end.

(** The entries really fill the declared shape. *)
Definition wf3 {R} (a : array3 R) : bool :=
  let '(N, M, T) := shape3 a in
  Nat.eqb (length (elems3 a)) N &&
  forallb (fun row => Nat.eqb (length row) M &&
                      forallb (fun cell => Nat.eqb (length cell) T) row)
          (elems3 a).

Definition get3 {R} (zero : R) (a : array3 R) (n m t : nat) : R :=
  nth t (nth m (nth n (elems3 a) []) []) zero.

Definition get2 {R} (zero : R) (w : matrix R) (m c : nat) : R :=
  nth c (nth m (rows2 w) []) zero.

(** [w[i, :]] and [w[:, i]]. *)
Definition row2 {R} (w : matrix R) (i : nat) : list R := nth i (rows2 w) [].
Definition col2 {R} (zero : R) (w : matrix R) (i : nat) : list R :=
  map (fun r => nth i r zero) (rows2 w).

(** Fancy indexing along the first axis, [a[win, :, :]]: an index in
    [-N, N) selects a sample (negative ones count from the end), any other
    raises [IndexError]. *)
Definition take_row {R} (a : array3 R) (i : Z) : res (list (list R)) :=
  let N := Z.of_nat (fst (fst (shape3 a))) in
  let j := if i <? 0 then i + N else i in
  if (0 <=? j) && (j <? N) then
    match nth_error (elems3 a) (Z.to_nat j) with
    | Some r => Ok r
    | None => Raise IndexError
    end
  else Raise IndexError.

Definition take_rows {R} (a : array3 R) (win : list Z) : res (array3 R) :=
  let? rows := res_map (take_row a) win in
  let '(_, M, T) := shape3 a in
  Ok (mk_array3 (length win, M, T) rows).

(** [a[:, :, cl == c]]: the trials bearing label [c]. *)
Fixpoint mask_select {R} (cl : list Z) (c : Z) (cell : list R) : list R :=
  match cl, cell with
  | l :: cl', x :: cell' =>
      if l =? c then x :: mask_select cl' c cell' else mask_select cl' c cell'
  | _, _ => []
  end.

Definition select_trials {R} (a : array3 R) (cl : list Z) (c : Z)
  : res (array3 R) :=
  let '(N, M, T) := shape3 a in
  if Nat.eqb (length cl) T then
    Ok (mk_array3 (N, M, length (filter (Z.eqb c) cl))
          (map (map (mask_select cl c)) (elems3 a)))
  else Raise IndexError.

(** A 4-D array of shape (M, M, Nstep, nfft), kept as the blocks along its
    third axis. *)
Record array4 (V : Type) : Type := mk_tfarray {
  tf_shape : nat * nat * nat * nat;
  tf_slots : list V
}.
Arguments mk_tfarray {V}.
Arguments tf_shape {V}.
Arguments tf_slots {V}.

(** The result record of [mvarica]. *)
Record mvarica_result (R B C D : Type) : Type := mk_mvarica_result {
  r_mixing : matrix R;
  r_unmixing : matrix R;
  r_B : B;
  r_C : C;
  r_delta : option D
}.
Arguments mk_mvarica_result {R B C D}.
Arguments r_mixing {R B C D}.
Arguments r_unmixing {R B C D}.
Arguments r_B {R B C D}.
Arguments r_C {R B C D}.
Arguments r_delta {R B C D}.

(** ** The external collaborators

    Everything [ooapi.py] imports and calls without defining: the scalars
    of the signal arrays, the source separator, the AR fitter, the
    connectivity model with its attribute lookup, the complex64 output
    blocks of numpy, and the topology renderer. *)
Class Collaborators : Type := {
  scalar : Type;
  szero : scalar;
  sadd : scalar -> scalar -> scalar;
  smul : scalar -> scalar -> scalar;

  ar_model : Type;
  noise_cov : Type;
  delta : Type;
  backend : Type;

  (** [mvarica(X, P, retain_variance, numcomp, delta, backend)] *)
  mvarica : array3 scalar -> nat -> option Q -> option Q -> option delta ->
            option backend ->
            res (mvarica_result scalar ar_model noise_cov delta);
  (** [var.fit(data, P, delta, return_covariance=True)] *)
  var_fit : array3 scalar -> nat -> option delta -> res (ar_model * noise_cov);

  conn : Type;
  value : Type;
  (** [Connectivity(B, C, nfft)] *)
  Connectivity : ar_model -> noise_cov -> nat -> conn;
  (** [getattr(con, name)()]: [None] when the object has no attribute of
      that name, otherwise what calling the attribute gives. *)
  py_getattr : conn -> string -> option (res value);

  (** One [(M, M, nfft)] block of [np.zeros(..., np.complex64)], and the
      block that the assignment [result[:, :, i, :] = v] stores: [v]
      broadcast to the block and converted to complex64. *)
  zeros64 : nat -> nat -> value;
  setitem64 : nat -> nat -> value -> res value;

  locs : Type;
  topo : Type;
  scalp_map : Type;
  Topoplot : topo;
  set_locations : locs -> topo -> topo;
  set_values : list scalar -> topo -> topo;
  create_map : topo -> topo;
  get_map : topo -> scalp_map
}.

Section Orchestrator.
Context {E : Collaborators}.

(** Modelled from the spec: [datatools.dot_special] is not among the
    sources; the spec calls it the matrix projection of the data through
    the Unmixing Transform (channels x components), trial by trial:
    entry [n, c, t] is the sum over channels [m] of [x[n,m,t] * w[m,c]].
    Mismatched channel counts are a [ValueError], as for any matrix
    product. *)
Definition proj_entry (x : array3 scalar) (w : matrix scalar) (n c t : nat)
  : scalar :=
  fold_right sadd szero
    (map (fun m => smul (get3 szero x n m t) (get2 szero w m c))
         (seq 0 (snd (fst (shape3 x))))).

Definition dot_special (x : array3 scalar) (w : matrix scalar)
  : res (array3 scalar) :=
  let '(N, M, T) := shape3 x in
  let '(Mw, C) := shape2 w in
  if Nat.eqb M Mw then
    Ok (mk_array3 (N, C, T)
          (map (fun n => map (fun c => map (fun t => proj_entry x w n c t)
                                           (seq 0 T))
                             (seq 0 C))
               (seq 0 N)))
  else Raise ValueError.

(** Modelled from the spec: [var.fit_multiclass] is not among the sources;
    the spec has it fit one AR Model and Noise Covariance per distinct
    label value, on the trials bearing that label only, and return the two
    label-keyed mappings. *)
Definition fit_multiclass (data : array3 scalar) (cl : list Z) (P : nat)
    (dl : option delta)
  : res (dict ar_model * dict noise_cov) :=
  res_fold
    (fun (acc : dict ar_model * dict noise_cov) c =>
       let? x := select_trials data cl c in
       let? bc := var_fit x P dl in
       Ok (dict_set c (fst bc) (fst acc), dict_set c (snd bc) (snd acc)))
    (unique cl) ([], []).

(** [getattr(con, measure)()]. *)
Definition call_measure (con : conn) (measure : string) : res value :=
  match py_getattr con measure with
  | Some r => r
  | None => Raise (AttributeError measure)
  end.

(** ** The time/frequency output array *)

(** [np.zeros((M, M, Nstep, nfft), np.complex64)], kept as its [Nstep]
    blocks [result[:, :, i, :]]. *)
Definition tfarray : Type := array4 value.

Definition np_zeros (M : nat) (Nstep : Z) (nfft : nat) : res tfarray :=
  if Nstep <? 0 then Raise ValueError
  else Ok (mk_tfarray (M, M, Z.to_nat Nstep, nfft)
             (replicate (Z.to_nat Nstep) (zeros64 M nfft))).

(** [result[:, :, i, :] = v]: the index is checked against the third axis,
    then [v] is stored as a complex64 block. *)
Definition tf_setitem (r : tfarray) (i : nat) (v : value) : res tfarray :=
  let '(M, _, Nstep, nfft) := tf_shape r in
  if Nat.ltb i Nstep then
    let? b := setitem64 M nfft v in
    Ok (mk_tfarray (tf_shape r) (<[i := b]> (tf_slots r)))
  else Raise IndexError.

(** ** The object *)

Record SCoT : Type := mk_SCoT {
  data_ : option (array3 scalar);
  cl_ : option (list Z);
  unmixing_ : option (matrix scalar);
  mixing_ : option (matrix scalar);
  activations_ : option (array3 scalar);
  var_model_ : option (per_class ar_model);
  var_cov_ : option (per_class noise_cov);
  var_order_ : nat;
  var_delta_ : option delta;
  connectivity_ : option (per_class conn);
  locations_ : option locs;
  reducedim_ : Q;
  nfft_ : nat;
  backend_ : option backend;
  topo_ : option topo;
  mixmaps_ : list scalp_map;
  unmixmaps_ : list scalp_map
}.

Definition set_data_ v (s : SCoT) : SCoT :=
  mk_SCoT v (cl_ s) (unmixing_ s) (mixing_ s) (activations_ s) (var_model_ s)
    (var_cov_ s) (var_order_ s) (var_delta_ s) (connectivity_ s)
    (locations_ s) (reducedim_ s) (nfft_ s) (backend_ s) (topo_ s)
    (mixmaps_ s) (unmixmaps_ s).
Definition set_cl_ v (s : SCoT) : SCoT :=
  mk_SCoT (data_ s) v (unmixing_ s) (mixing_ s) (activations_ s) (var_model_ s)
    (var_cov_ s) (var_order_ s) (var_delta_ s) (connectivity_ s)
    (locations_ s) (reducedim_ s) (nfft_ s) (backend_ s) (topo_ s)
    (mixmaps_ s) (unmixmaps_ s).
Definition set_unmixing_ v (s : SCoT) : SCoT :=
  mk_SCoT (data_ s) (cl_ s) v (mixing_ s) (activations_ s) (var_model_ s)
    (var_cov_ s) (var_order_ s) (var_delta_ s) (connectivity_ s)
    (locations_ s) (reducedim_ s) (nfft_ s) (backend_ s) (topo_ s)
    (mixmaps_ s) (unmixmaps_ s).
Definition set_mixing_ v (s : SCoT) : SCoT :=
  mk_SCoT (data_ s) (cl_ s) (unmixing_ s) v (activations_ s) (var_model_ s)
    (var_cov_ s) (var_order_ s) (var_delta_ s) (connectivity_ s)
    (locations_ s) (reducedim_ s) (nfft_ s) (backend_ s) (topo_ s)
    (mixmaps_ s) (unmixmaps_ s).
Definition set_activations_ v (s : SCoT) : SCoT :=
  mk_SCoT (data_ s) (cl_ s) (unmixing_ s) (mixing_ s) v (var_model_ s)
    (var_cov_ s) (var_order_ s) (var_delta_ s) (connectivity_ s)
    (locations_ s) (reducedim_ s) (nfft_ s) (backend_ s) (topo_ s)
    (mixmaps_ s) (unmixmaps_ s).
Definition set_var_model_ v (s : SCoT) : SCoT :=
  mk_SCoT (data_ s) (cl_ s) (unmixing_ s) (mixing_ s) (activations_ s) v
    (var_cov_ s) (var_order_ s) (var_delta_ s) (connectivity_ s)
    (locations_ s) (reducedim_ s) (nfft_ s) (backend_ s) (topo_ s)
    (mixmaps_ s) (unmixmaps_ s).
Definition set_var_cov_ v (s : SCoT) : SCoT :=
  mk_SCoT (data_ s) (cl_ s) (unmixing_ s) (mixing_ s) (activations_ s)
    (var_model_ s) v (var_order_ s) (var_delta_ s) (connectivity_ s)
    (locations_ s) (reducedim_ s) (nfft_ s) (backend_ s) (topo_ s)
    (mixmaps_ s) (unmixmaps_ s).
Definition set_var_delta_ v (s : SCoT) : SCoT :=
  mk_SCoT (data_ s) (cl_ s) (unmixing_ s) (mixing_ s) (activations_ s)
    (var_model_ s) (var_cov_ s) (var_order_ s) v (connectivity_ s)
    (locations_ s) (reducedim_ s) (nfft_ s) (backend_ s) (topo_ s)
    (mixmaps_ s) (unmixmaps_ s).
Definition set_connectivity_ v (s : SCoT) : SCoT :=
  mk_SCoT (data_ s) (cl_ s) (unmixing_ s) (mixing_ s) (activations_ s)
    (var_model_ s) (var_cov_ s) (var_order_ s) (var_delta_ s) v
    (locations_ s) (reducedim_ s) (nfft_ s) (backend_ s) (topo_ s)
    (mixmaps_ s) (unmixmaps_ s).
Definition set_topo_ v (s : SCoT) : SCoT :=
  mk_SCoT (data_ s) (cl_ s) (unmixing_ s) (mixing_ s) (activations_ s)
    (var_model_ s) (var_cov_ s) (var_order_ s) (var_delta_ s)
    (connectivity_ s) (locations_ s) (reducedim_ s) (nfft_ s) (backend_ s) v
    (mixmaps_ s) (unmixmaps_ s).
Definition set_mixmaps_ v (s : SCoT) : SCoT :=
  mk_SCoT (data_ s) (cl_ s) (unmixing_ s) (mixing_ s) (activations_ s)
    (var_model_ s) (var_cov_ s) (var_order_ s) (var_delta_ s)
    (connectivity_ s) (locations_ s) (reducedim_ s) (nfft_ s) (backend_ s)
    (topo_ s) v (unmixmaps_ s).
Definition set_unmixmaps_ v (s : SCoT) : SCoT :=
  mk_SCoT (data_ s) (cl_ s) (unmixing_ s) (mixing_ s) (activations_ s)
    (var_model_ s) (var_cov_ s) (var_order_ s) (var_delta_ s)
    (connectivity_ s) (locations_ s) (reducedim_ s) (nfft_ s) (backend_ s)
    (topo_ s) (mixmaps_ s) v.

(** ** Methods run on the object: state in, outcome and state out

    An exception leaves the attributes as they were when it was raised. *)
Definition M (A : Type) : Type := SCoT -> res A * SCoT.

Definition ret {A} (a : A) : M A := fun s => (Ok a, s).
Definition raise {A} (e : exn) : M A := fun s => (Raise e, s).
Definition lift {A} (r : res A) : M A := fun s => (r, s).
Definition get : M SCoT := fun s => (Ok s, s).
Definition modify (f : SCoT -> SCoT) : M unit := fun s => (Ok tt, f s).
Definition bind {A B} (c : M A) (k : A -> M B) : M B :=
  fun s => match c s with
           | (Ok a, s') => k a s'
           | (Raise e, s') => (Raise e, s')
           end.

Notation "'let!' x ':=' c 'in' k" := (bind c (fun x => k))
  (at level 10, x pattern, c at level 100, k at level 200).
Notation "c '>>' k" := (bind c (fun _ => k))
  (at level 100, k at level 200, right associativity).

Fixpoint for_each {X} (l : list X) (body : X -> M unit) : M unit :=
  match l with
  | [] => ret tt
  | x :: t => body x >> for_each t body
  end.

(** [__init__] *)
Definition init (var_order : nat) (var_delta : option delta)
    (locations : option locs) (reducedim : Q) (nfft : nat)
    (backend : option backend) : SCoT :=
  mk_SCoT None None None None None None None var_order var_delta None
    locations reducedim nfft backend None [] [].

Definition setData (data : ndarray scalar) (cl : option (list Z)) : M unit :=
  let d := atleast_3d data in
  modify (set_data_ (Some d)) >>
  modify (set_cl_ cl) >>
  modify (set_var_model_ None) >>
  modify (set_var_cov_ None) >>
  modify (set_connectivity_ None) >>
  let! s := get in
  match unmixing_ s with
  | Some w =>
      let! a := lift (dot_special d w) in
      modify (set_activations_ (Some a))
  | None => ret tt
  end.

Definition doMVARICA : M unit :=
  let! s := get in
  match data_ s with
  | None => raise (RuntimeError "MVARICA requires data to be set")
  | Some X =>
      let '(rv, nc) :=
        if negb (Qle_bool 1 (reducedim_ s))
        then (Some (reducedim_ s), None)
        else (None, Some (reducedim_ s)) in
      let! result :=
        lift (mvarica X (var_order_ s) rv nc (var_delta_ s) (backend_ s)) in
      modify (set_mixing_ (Some (r_mixing result))) >>
      modify (set_unmixing_ (Some (r_unmixing result))) >>
      modify (set_var_model_ (Some (Single (r_B result)))) >>
      modify (set_var_cov_ (Some (Single (r_C result)))) >>
      modify (set_var_delta_ (r_delta result)) >>
      modify (set_connectivity_
                (Some (Single (Connectivity (r_B result) (r_C result)
                                 (nfft_ s)))))
  end.

(** [self.connectivity_[c] = con] *)
Definition connectivity_setitem (c : Z) (con : conn) : M unit :=
  let! s := get in
  match connectivity_ s with
  | Some (PerClass d) =>
      modify (set_connectivity_ (Some (PerClass (dict_set c con d))))
  | _ => raise TypeError
  end.

Definition fitVAR : M unit :=
  let! s := get in
  match activations_ s with
  | None =>
      raise (RuntimeError
        "VAR fitting requires activations (call setData after doMVARICA)")
  | Some a =>
      match cl_ s with
      | None =>
          let! bc := lift (var_fit a (var_order_ s) (var_delta_ s)) in
          modify (set_var_model_ (Some (Single (fst bc)))) >>
          modify (set_var_cov_ (Some (Single (snd bc)))) >>
          modify (set_connectivity_
                    (Some (Single (Connectivity (fst bc) (snd bc) (nfft_ s)))))
      | Some cl =>
          let! bc :=
            lift (fit_multiclass a cl (var_order_ s) (var_delta_ s)) in
          modify (set_var_model_ (Some (PerClass (fst bc)))) >>
          modify (set_var_cov_ (Some (PerClass (snd bc)))) >>
          modify (set_connectivity_ (Some (PerClass []))) >>
          for_each (unique cl) (fun c =>
            let! b := lift (dict_item c (fst bc)) in
            let! cv := lift (dict_item c (snd bc)) in
            connectivity_setitem c (Connectivity b cv (nfft_ s)))
      end
  end.

(** [np.unique(self.cl_)] where the labels may be [None]: numpy then
    yields the one-element array holding [None], which is no key of any
    dictionary here. *)
Definition unique_labels (cl : option (list Z)) : list (option Z) :=
  match cl with
  | Some l => map Some (unique l)
  | None => [None]
  end.

Definition getConnectivity (measure : string) : M (per_class value) :=
  let! s := get in
  match connectivity_ s with
  | None =>
      raise (RuntimeError
        "Connectivity requires a VAR model (run doMVARICA or fitVAR first)")
  | Some (PerClass d) =>
      let! result :=
        lift (res_fold
                (fun (result : dict value) oc =>
                   match oc with
                   | Some c =>
                       let? con := dict_item c d in
                       let? v := call_measure con measure in
                       Ok (dict_set c v result)
                   | None => Raise (KeyError None)
                   end)
                (unique_labels (cl_ s)) []) in
      ret (PerClass result)
  | Some (Single con) =>
      let! v := lift (call_measure con measure) in
      ret (Single v)
  end.

(** One pass of the window loop without class labels (lines 103-108): the
    loop state is the counter [i] and the output array. *)
Definition tf_step_single (a : array3 scalar) (P : nat) (dl : option delta)
    (nfft : nat) (measure : string) (winlen : Z)
    (st : nat * tfarray) (n : Z) : res (nat * tfarray) :=
  let '(i, result) := st in
  let win := arange_plus winlen n in
  let? data := take_rows a win in
  let? bc := var_fit data P dl in
  let con := Connectivity (fst bc) (snd bc) nfft in
  let? v := call_measure con measure in
  let? result' := tf_setitem result i v in
  Ok (S i, result').

(** [result[c][:, :, i, :] = getattr(con, measure)()] for one label. *)
Definition tf_class_write (B : dict ar_model) (C : dict noise_cov)
    (nfft : nat) (measure : string) (i : nat)
    (result : dict tfarray) (c : Z) : res (dict tfarray) :=
  let? b := dict_item c B in
  let? cv := dict_item c C in
  let con := Connectivity b cv nfft in
  let? v := call_measure con measure in
  let? r := dict_item c result in
  let? r' := tf_setitem r i v in
  Ok (dict_set c r' result).

(** One pass of the window loop with class labels (lines 116-122). *)
Definition tf_step_class (a : array3 scalar) (cl : list Z) (P : nat)
    (dl : option delta) (nfft : nat) (measure : string) (winlen : Z)
    (st : nat * dict tfarray) (n : Z) : res (nat * dict tfarray) :=
  let '(i, result) := st in
  let win := arange_plus winlen n in
  let? data := take_rows a win in
  let? bc := fit_multiclass data cl P dl in
  let? result' :=
    res_fold (tf_class_write (fst bc) (snd bc) nfft measure i)
             (unique cl) result in
  Ok (S i, result').

Definition getTFConnectivity (measure : string) (winlen winstep : Z)
  : M (per_class tfarray) :=
  let! s := get in
  match activations_ s with
  | None =>
      raise (RuntimeError
        "Time/Frequency Connectivity requires activations (call setData after doMVARICA)")
  | Some a =>
      let '(N, M, T) := shape3 a in
      let! Nstep := lift (floordiv (Z.of_nat N - winlen) winstep) in
      match cl_ s with
      | None =>
          let! result := lift (np_zeros M Nstep (nfft_ s)) in
          let! offsets := lift (py_range (Z.of_nat N - winlen) winstep) in
          let! st :=
            lift (res_fold
                    (tf_step_single a (var_order_ s) (var_delta_ s) (nfft_ s)
                       measure winlen)
                    offsets (O, result)) in
          ret (Single (snd st))
      | Some cl =>
          let! result :=
            lift (res_fold
                    (fun (result : dict tfarray) c =>
                       let? z := np_zeros M Nstep (nfft_ s) in
                       Ok (dict_set c z result))
                    (unique cl) []) in
          let! offsets := lift (py_range (Z.of_nat N - winlen) winstep) in
          let! st :=
            lift (res_fold
                    (tf_step_class a cl (var_order_ s) (var_delta_ s)
                       (nfft_ s) measure winlen)
                    offsets (O, result)) in
          ret (PerClass (snd st))
      end
  end.

(** [self.topo_.set_values(v); self.topo_.create_map();
    maps.append(self.topo_.get_map())] *)
Definition draw_map (v : list scalar)
    (append : scalp_map -> SCoT -> SCoT) : M unit :=
  let! s := get in
  match topo_ s with
  | None => raise (AttributeError "set_values")
  | Some t =>
      let t' := create_map (set_values v t) in
      modify (set_topo_ (Some t')) >>
      modify (append (get_map t'))
  end.

(** The three [if] statements of [preparePlots], in order. *)
Definition ensure_topo (l : locs) : M unit :=
  let! s := get in
  match topo_ s with
  | None => modify (set_topo_ (Some (set_locations l Topoplot)))
  | Some _ => ret tt
  end.

Definition plot_mixing (mixing : bool) : M unit :=
  let! s := get in
  if mixing && (match mixmaps_ s with [] => true | _ => false end) then
    match mixing_ s with
    | None => raise (AttributeError "shape")
    | Some w =>
        for_each (seq 0 (fst (shape2 w))) (fun i =>
          draw_map (row2 w i)
            (fun m s => set_mixmaps_ (mixmaps_ s ++ [m]) s))
    end
  else ret tt.

Definition plot_unmixing (unmixing : bool) : M unit :=
  let! s := get in
  if unmixing && (match unmixmaps_ s with [] => true | _ => false end) then
    match unmixing_ s with
    | None => raise (AttributeError "shape")
    | Some w =>
        for_each (seq 0 (snd (shape2 w))) (fun i =>
          draw_map (col2 szero w i)
            (fun m s => set_unmixmaps_ (unmixmaps_ s ++ [m]) s))
    end
  else ret tt.

Definition preparePlots (mixing unmixing : bool) : M unit :=
  let! s := get in
  match locations_ s with
  | None => raise (RuntimeError "Need sensor locations for plotting")
  | Some l =>
      ensure_topo l >> plot_mixing mixing >> plot_unmixing unmixing
  end.

(** ** The object as a state machine *)

Inductive op : Type :=
| OpSetData (data : ndarray scalar) (cl : option (list Z))
| OpDoMVARICA
| OpFitVAR
| OpGetConnectivity (measure : string)
| OpGetTFConnectivity (measure : string) (winlen winstep : Z)
| OpPreparePlots (mixing unmixing : bool).

(** The attributes after a call, whether it returned or raised. *)
Definition exec (o : op) (s : SCoT) : SCoT :=
  match o with
  | OpSetData data cl => snd (setData data cl s)
  | OpDoMVARICA => snd (doMVARICA s)
  | OpFitVAR => snd (fitVAR s)
  | OpGetConnectivity m => snd (getConnectivity m s)
  | OpGetTFConnectivity m wl ws => snd (getTFConnectivity m wl ws s)
  | OpPreparePlots mx ux => snd (preparePlots mx ux s)
  end.

Definition run (ops : list op) (s : SCoT) : SCoT :=
  fold_left (fun s o => exec o s) ops s.

(** The states a freshly constructed object can get into by method calls. *)
Inductive reachable : SCoT -> Prop :=
| reach_init vo vd lo rd nf be : reachable (init vo vd lo rd nf be)
| reach_step o s : reachable s -> reachable (exec o s).

End Orchestrator.

Notation "'let!' x ':=' c 'in' k" := (bind c (fun x => k))
  (at level 10, x pattern, c at level 100, k at level 200).
Notation "c '>>' k" := (bind c (fun _ => k))
  (at level 100, k at level 200, right associativity).

(** ** A small concrete world

    Integer signals, a fitter that refuses an all-zero window, one spectral
    measure, and the two number formats of the output path: the measure
    answers in binary64, the time/frequency array stores binary32. *)
Module Toy.

Definition sum3 (a : array3 Z) : Z :=
  fold_right Z.add 0 (map (fun r => fold_right Z.add 0
                                      (map (fold_right Z.add 0) r))
                          (elems3 a)).

(** A complex number as its real and imaginary parts. *)
Definition cplx : Type := spec_float * spec_float.

Inductive pyvalue : Type :=
| VArr (entries : list cplx)
| VStr (s : string).

(** Rounding to binary64 and to binary32 (24-bit mantissa), to nearest
    even. *)
Definition to_b64 (m e : Z) : spec_float := binary_normalize 53 1024 m e false.
Definition to_b32 (x : spec_float) : spec_float :=
  match x with
  | S754_finite sg m e =>
      binary_normalize 24 128 (if sg then Z.neg m else Z.pos m) e sg
  | other => other
  end.

Definition fzero : spec_float := S754_zero false.

Record connectivity : Type := mk_connectivity {
  c_b : Z;
  c_c : nat;
  c_nfft : nat
}.

(** The measure [DTF] answers [b + 2^-30] in every entry; [__repr__] is
    the attribute every object has. *)
Definition getattr_toy (con : connectivity) (name : string)
  : option (res pyvalue) :=
  if String.eqb name "DTF" then
    Some (Ok (VArr [(to_b64 (c_b con * 2 ^ 30 + 1) (-30), fzero)]))
  else if String.eqb name "__repr__" then
    Some (Ok (VStr "<scot.connectivity.Connectivity object>"))
  else None.

(** The measures the toy connectivity model offers. *)
Definition measures : list string := ["DTF"].

Definition fit_toy (data : array3 Z) (P : nat) (dl : option Z)
  : res (Z * nat) :=
  if sum3 data =? 0 then Raise (LinAlgError "singular matrix")
  else Ok (sum3 data, fst (fst (shape3 data))).

(** One component per channel; the transforms carry the total of the
    data so that a second decomposition gives other matrices. *)
Definition mvarica_toy (X : array3 Z) (P : nat) (rv nc : option Q)
    (dl : option Z) (be : option unit)
  : res (mvarica_result Z Z nat Z) :=
  if sum3 X =? 0 then Raise (LinAlgError "singular matrix")
  else
    let M := snd (fst (shape3 X)) in
    let diag := map (fun i => map (fun j => if Nat.eqb i j then sum3 X else 0)
                                  (seq 0 M)) (seq 0 M) in
    Ok (mk_mvarica_result (mk_matrix (M, M) diag) (mk_matrix (M, M) diag)
          (sum3 X) (fst (fst (shape3 X))) (Some 0)).

Definition setitem_toy (M nfft : nat) (v : pyvalue) : res pyvalue :=
  match v with
  | VArr [x] =>
      Ok (VArr (replicate (M * M * nfft)%nat (to_b32 (fst x), to_b32 (snd x))))
  | VArr l =>
      if Nat.eqb (length l) (M * M * nfft)
      then Ok (VArr (map (fun x => (to_b32 (fst x), to_b32 (snd x))) l))
      else Raise ValueError
  | VStr _ => Raise ValueError
  end.

#[local] Instance world : Collaborators := {|
  scalar := Z; szero := 0; sadd := Z.add; smul := Z.mul;
  ar_model := Z; noise_cov := nat; delta := Z; backend := unit;
  mvarica := mvarica_toy;
  var_fit := fit_toy;
  conn := connectivity; value := pyvalue;
  Connectivity := mk_connectivity;
  py_getattr := getattr_toy;
  zeros64 := fun M nfft => VArr (replicate (M * M * nfft)%nat (fzero, fzero));
  setitem64 := setitem_toy;
  locs := unit; topo := list Z; scalp_map := list Z;
  Topoplot := [];
  set_locations := fun _ t => t;
  set_values := fun v _ => v;
  create_map := fun t => t;
  get_map := fun t => t
|}.

(** One channel, one trial, the samples given. *)
Definition signal (samples : list Z) : ndarray scalar :=
  Nd3 (mk_array3 (length samples, 1, 1)%nat (map (fun x => [[x]]) samples)).

Definition fresh : SCoT := init 1 None (Some tt) (99 # 100) 1 None.

(** [setData; doMVARICA; setData]: the state in which activations exist. *)
Definition loaded (samples : list Z) (cl : option (list Z)) : SCoT :=
  run [OpSetData (signal samples) cl; OpDoMVARICA;
       OpSetData (signal samples) cl] fresh.

(** A fresh object after [setData] and [doMVARICA]. *)
Definition decomposed : SCoT :=
  snd (doMVARICA (snd (setData (signal [1; 2]) None fresh))).

(** The running example: five samples, after decomposition and a second
    [setData]; its activations; the output of a call with windows of two
    samples every sample; the first window and its single-shot value. *)
Definition s5 : SCoT := loaded [1; 2; 3; 4; 5] None.

Definition acts5 : array3 Z :=
  mk_array3 (5, 1, 1)%nat [[[15]]; [[30]]; [[45]]; [[60]]; [[75]]].

Definition out5 : per_class tfarray :=
  Eval vm_compute in
    match fst (getTFConnectivity "DTF" 2 1 s5) with
    | Ok o => o
    | Raise _ => PerClass []
    end.

Definition r5 : tfarray :=
  Eval vm_compute in
    match out5 with
    | Single r => r
    | PerClass _ => mk_tfarray (0, 0, 0, 0)%nat []
    end.

Definition window5 : array3 Z := mk_array3 (2, 1, 1)%nat [[[15]]; [[30]]].

Definition v5 : pyvalue :=
  VArr [(S754_finite false 6333186976120832 (-47), fzero)].

End Toy.

(** ** Derived notions used in the statements *)

Section Derived.
Context {E : Collaborators}.

(** The attributes [setData] has assigned before it looks at the unmixing
    transform. *)
Definition after_clear (d : array3 scalar) (cl : option (list Z)) (s : SCoT)
  : SCoT :=
  set_connectivity_ None
    (set_var_cov_ None (set_var_model_ None (set_cl_ cl (set_data_ (Some d) s)))).

Definition reduction_mode (s : SCoT) : option Q * option Q :=
  if negb (Qle_bool 1 (reducedim_ s))
  then (Some (reducedim_ s), None)
  else (None, Some (reducedim_ s)).

Definition after_mvarica
    (result : mvarica_result scalar ar_model noise_cov delta) (s : SCoT)
  : SCoT :=
  set_connectivity_
    (Some (Single (Connectivity (r_B result) (r_C result) (nfft_ s))))
    (set_var_delta_ (r_delta result)
       (set_var_cov_ (Some (Single (r_C result)))
          (set_var_model_ (Some (Single (r_B result)))
             (set_unmixing_ (Some (r_unmixing result))
                (set_mixing_ (Some (r_mixing result)) s))))).

(** The fit for one label inside [fit_multiclass]. *)
Definition fit_one (data : array3 scalar) (cl : list Z) (P : nat)
    (dl : option delta) (c : Z) : res (ar_model * noise_cov) :=
  let? x := select_trials data cl c in var_fit x P dl.

(** [Connectivity(B[c], C[c], nfft)] *)
Definition class_model (B : dict ar_model) (C : dict noise_cov) (nfft : nat)
    (c : Z) : res conn :=
  let? b := dict_item c B in
  let? cv := dict_item c C in
  Ok (Connectivity b cv nfft).

(** The single-shot path on a window taken in isolation: the window becomes
    the activations, then [fitVAR], then [getConnectivity]. *)
Definition single_shot (s : SCoT) (window : array3 scalar) (measure : string)
  : res (per_class value) :=
  match fitVAR (set_activations_ (Some window) s) with
  | (Ok _, s1) => fst (getConnectivity measure s1)
  | (Raise e, _) => Raise e
  end.

(** The attributes after a successful [fitVAR], without and with labels. *)
Definition after_fit_single (bc : ar_model * noise_cov) (s : SCoT) : SCoT :=
  set_connectivity_
    (Some (Single (Connectivity (fst bc) (snd bc) (nfft_ s))))
    (set_var_cov_ (Some (Single (snd bc)))
       (set_var_model_ (Some (Single (fst bc))) s)).

Definition after_fit_class (cl : list Z) (bcs : list (ar_model * noise_cov))
    (s : SCoT) : SCoT :=
  set_connectivity_
    (Some (PerClass
             (combine (unique cl)
                (map (fun bc => Connectivity (fst bc) (snd bc) (nfft_ s)) bcs))))
    (set_var_cov_ (Some (PerClass (combine (unique cl) (map snd bcs))))
       (set_var_model_ (Some (PerClass (combine (unique cl) (map fst bcs))))
          s)).

(** The topology object and the maps after drawing the vectors [vs] one
    after the other. *)
Fixpoint draw_all (t : topo) (vs : list (list scalar)) : topo * list scalp_map :=
  match vs with
  | [] => (t, [])
  | v :: rest =>
      let t' := create_map (set_values v t) in
      (fst (draw_all t' rest), get_map t' :: snd (draw_all t' rest))
  end.

(** The topology object [preparePlots] works with. *)
Definition topo_ready (l : locs) (s : SCoT) : topo :=
  match topo_ s with
  | Some t => t
  | None => set_locations l Topoplot
  end.

(** Two states that differ at most in the plotting attributes. *)
Definition plots_only (s s' : SCoT) : Prop :=
  s' = set_unmixmaps_ (unmixmaps_ s') (set_mixmaps_ (mixmaps_ s')
         (set_topo_ (topo_ s') s)).

(** What holds of every state the methods can produce: activations come
    with data and an unmixing transform, and a class-mapped connectivity
    model is keyed by the distinct labels. *)
Definition consistent (s : SCoT) : Prop :=
  (activations_ s <> None -> unmixing_ s <> None /\ data_ s <> None) /\
  (forall d, connectivity_ s = Some (PerClass d) ->
             exists l, cl_ s = Some l /\ dict_keys d = unique l).

(** The vectors drawn for the two caches: the rows of the mixing matrix,
    the columns of the unmixing matrix. *)
Definition mixing_vectors (w : matrix scalar) : list (list scalar) :=
  map (row2 w) (seq 0 (fst (shape2 w))).
Definition unmixing_vectors (w : matrix scalar) : list (list scalar) :=
  map (col2 szero w) (seq 0 (snd (shape2 w))).

(** Operations by kind. *)
Definition is_setData (o : op) : bool :=
  match o with OpSetData _ _ => true | _ => false end.
Definition is_decomposition (o : op) : bool :=
  match o with OpDoMVARICA => true | _ => false end.
Definition is_fit (o : op) : bool :=
  match o with OpDoMVARICA | OpFitVAR => true | _ => false end.

(** The two representations a fit can leave behind. *)
Definition all_single (s : SCoT) : Prop :=
  exists b c k, var_model_ s = Some (Single b) /\
                var_cov_ s = Some (Single c) /\
                connectivity_ s = Some (Single k).

Definition all_class_mapped (s : SCoT) : Prop :=
  exists l B C D, cl_ s = Some l /\
                  var_model_ s = Some (PerClass B) /\
                  var_cov_ s = Some (PerClass C) /\
                  connectivity_ s = Some (PerClass D) /\
                  dict_keys B = unique l /\
                  dict_keys C = unique l /\
                  dict_keys D = unique l.

Definition no_setData (ops : list op) : bool :=
  forallb (fun o => negb (is_setData o)) ops.
Definition no_decomposition (ops : list op) : bool :=
  forallb (fun o => negb (is_decomposition o)) ops.
Definition no_fit (ops : list op) : bool :=
  forallb (fun o => negb (is_fit o)) ops.

Definition fitVAR_error : exn :=
  RuntimeError "VAR fitting requires activations (call setData after doMVARICA)".
Definition getConnectivity_error : exn :=
  RuntimeError "Connectivity requires a VAR model (run doMVARICA or fitVAR first)".
Definition getTFConnectivity_error : exn :=
  RuntimeError "Time/Frequency Connectivity requires activations (call setData after doMVARICA)".

(** What one window contributes without class labels: the measure of the
    model fitted on the samples [n, n + winlen). *)
Definition window_value (s : SCoT) (a : array3 scalar) (measure : string)
    (winlen n : Z) : res value :=
  let? data := take_rows a (arange_plus winlen n) in
  let? bc := var_fit data (var_order_ s) (var_delta_ s) in
  call_measure (Connectivity (fst bc) (snd bc) (nfft_ s)) measure.

(** The same with class labels, for the label [c]. *)
Definition class_window_value (s : SCoT) (a : array3 scalar) (cl : list Z)
    (measure : string) (winlen n c : Z) : res value :=
  let? data := take_rows a (arange_plus winlen n) in
  let? bc := fit_multiclass data cl (var_order_ s) (var_delta_ s) in
  let? con := class_model (fst bc) (snd bc) (nfft_ s) c in
  call_measure con measure.

(** The window count of [getTFConnectivity], line 97. *)
Definition window_count (N : nat) (winlen winstep : Z) : nat :=
  Z.to_nat ((Z.of_nat N - winlen) / winstep).

(** Every per-label array has the shape [sh] and as many slots as its
    third axis says. *)
Definition slots_fit (sh : nat * nat * nat * nat) (rs : list tfarray) : Prop :=
  forall j r, nth_error rs j = Some r ->
              tf_shape r = sh /\ length (tf_slots r) = snd (fst sh).

(** The AR fit of one window, as [getTFConnectivity] calls it. *)
Definition window_fit (s : SCoT) (data : array3 scalar) : res unit :=
  match cl_ s with
  | None => let? _ := var_fit data (var_order_ s) (var_delta_ s) in Ok tt
  | Some cl =>
      let? _ := fit_multiclass data cl (var_order_ s) (var_delta_ s) in Ok tt
  end.

(** The window loop of [getTFConnectivity] gets through the offsets [pre]
    without an exception. *)
Definition tf_prefix_ok (s : SCoT) (a : array3 scalar) (measure : string)
    (winlen winstep : Z) (pre : list Z) : bool :=
  let '(N, M, _) := shape3 a in
  let Nstep := (Z.of_nat N - winlen) / winstep in
  match cl_ s with
  | None =>
      is_ok (let? r0 := np_zeros M Nstep (nfft_ s) in
             res_fold (tf_step_single a (var_order_ s) (var_delta_ s) (nfft_ s)
                         measure winlen) pre (O, r0))
  | Some cl =>
      is_ok (let? r0 := res_fold (fun (result : dict tfarray) c =>
                                    let? z := np_zeros M Nstep (nfft_ s) in
                                    Ok (dict_set c z result)) (unique cl) [] in
             res_fold (tf_step_class a cl (var_order_ s) (var_delta_ s)
                         (nfft_ s) measure winlen) pre (O, r0))
  end.

(** C8 as the spec words it, for a given set of recognised measures: in
    every state with a connectivity model, a name outside the set makes
    [getConnectivity] fail. *)
Definition unsupported_measures_fail (measures : list string) : Prop :=
  forall s m, reachable s -> connectivity_ s <> None -> ~ In m measures ->
              exists e, fst (getConnectivity m s) = Raise e.

(** C10 as the spec words it: after a decomposition has stored new
    transforms, the next plot request holds the maps of the new mixing
    matrix. *)
Definition decomposition_invalidates_maps : Prop :=
  forall s s1 w l,
    reachable s -> doMVARICA s = (Ok tt, s1) ->
    mixing_ s1 = Some w -> locations_ s1 = Some l ->
    mixmaps_ (snd (preparePlots true false s1)) =
    snd (draw_all (topo_ready l s1) (mixing_vectors w)).

(** C2 as the spec words it, without class labels: slot [i] is the very
    value the single-shot path returns on the window. *)
Definition slots_bit_identical : Prop :=
  forall s a N M T m wl ws r i window v,
    activations_ s = Some a -> shape3 a = (N, M, T) ->
    fst (getTFConnectivity m wl ws s) = Ok (Single r) ->
    (i < window_count N wl ws)%nat ->
    take_rows a (arange_plus wl (Z.of_nat i * ws)) = Ok window ->
    single_shot s window m = Ok (Single v) ->
    tf_slots r !! i = Some v.

End Derived.

(** ** More derived notions: invariants of the object *)

Section Invariants.
Context {E : Collaborators}.

(** No model of any kind is held. *)
Definition models_unset (s : SCoT) : Prop :=
  var_model_ s = None /\ var_cov_ s = None /\ connectivity_ s = None.

(** The three model attributes move together, so do the two transforms,
    and the map caches are filled only through a topology object and from
    a transform that exists. *)
Definition in_step (s : SCoT) : Prop :=
  (models_unset s \/ all_single s \/ all_class_mapped s) /\
  (mixing_ s = None <-> unmixing_ s = None) /\
  (topo_ s = None -> mixmaps_ s = [] /\ unmixmaps_ s = []) /\
  (mixmaps_ s <> [] -> mixing_ s <> None) /\
  (unmixmaps_ s <> [] -> unmixing_ s <> None).

(** The attributes [fitVAR] and [getTFConnectivity] read. *)
Definition same_fit_inputs (s s' : SCoT) : Prop :=
  activations_ s' = activations_ s /\ cl_ s' = cl_ s /\
  var_order_ s' = var_order_ s /\ var_delta_ s' = var_delta_ s /\
  nfft_ s' = nfft_ s.

(** The loop of [getTFConnectivity] with class labels gets through window
    [i]: the window exists, every label's trials fit, and every label's
    measure evaluates and converts. *)
Definition class_window_ok (s : SCoT) (a : array3 scalar) (cl : list Z)
    (M : nat) (measure : string) (winlen winstep : Z) (i : nat) : Prop :=
  exists data bc,
    take_rows a (arange_plus winlen (Z.of_nat i * winstep)) = Ok data /\
    fit_multiclass data cl (var_order_ s) (var_delta_ s) = Ok bc /\
    forall c, In c (unique cl) ->
      exists v b,
        (let? con := class_model (fst bc) (snd bc) (nfft_ s) c in
         call_measure con measure) = Ok v /\
        setitem64 M (nfft_ s) v = Ok b.

End Invariants.

(** ** The plotting front ends

    [showPlots], [plotComponents] and [plotConnectivity] talk to
    matplotlib.  What they draw is kept as the list of drawing calls in
    the order they are made; the calls themselves are taken to return.
    numpy's percentile and the renderer's [set_map] are two more
    collaborators. *)

(** The exceptions of the front ends: the two that the methods above
    cannot raise, and whatever comes up from those methods. *)
Inductive front_exn : Type :=
| ImportError (msg : string)
| NameError (name : string)
| Inner (e : exn).

Inductive outcome (A : Type) : Type :=
| Returned (a : A)
| Raised (e : front_exn).
Arguments Returned {A} a.
Arguments Raised {A} e.

(** *** Names in a class body

    Inside a class body the compiler rewrites an identifier that starts
    with two underscores and does not end with two to [_Class__name], the
    class name without its leading underscores (no rewriting when nothing
    is left of the class name). *)
Fixpoint lstrip_underscores (s : string) : string :=
  match s with
  | String c t =>
      if String.eqb (String c EmptyString) "_" then lstrip_underscores t else s
  | EmptyString => EmptyString
  end.

Definition ends_with (suffix s : string) : bool :=
  let n := String.length s in
  let k := String.length suffix in
  Nat.leb k n && String.eqb (substring (n - k) k s) suffix.

Definition mangle (cls name : string) : string :=
  if String.prefix "__" name && negb (ends_with "__" name) &&
     negb (String.eqb (lstrip_underscores cls) "")
  then String.append "_" (String.append (lstrip_underscores cls) name)
  else name.

(** What a module-level name is bound to: the import flag, or some object
    whose value plays no part here. *)
Inductive pyglobal : Type :=
| GBool (b : bool)
| GObject.

(** The names bound by lines 7-20 once the module is imported, when the
    import of matplotlib succeeds and when it fails. *)
Definition module_globals (have_pyplot : bool) : list (string * pyglobal) :=
  [("np", GObject); ("mvarica", GObject); ("dot_special", GObject);
   ("Connectivity", GObject); ("var", GObject); ("Topoplot", GObject)] ++
  (if have_pyplot then [("plt", GObject)] else []) ++
  [("_have_pyplot", GBool have_pyplot); ("SCoT", GObject)].

Fixpoint lookup_name (n : string) (g : list (string * pyglobal))
  : option pyglobal :=
  match g with
  | [] => None
  | (k, v) :: t => if String.eqb n k then Some v else lookup_name n t
  end.

(** Reading a global name from a method of class [cls]. *)
Definition load_global (cls name : string) (g : list (string * pyglobal))
  : outcome pyglobal :=
  match lookup_name (mangle cls name) g with
  | Some v => Returned v
  | None => Raised (NameError (mangle cls name))
  end.

Definition truthy (v : pyglobal) : bool :=
  match v with GBool b => b | GObject => true end.

(** [l[i]] for an index that is not negative. *)
Definition list_item {X} (l : list X) (i : nat) : res X :=
  match nth_error l i with
  | Some x => Ok x
  | None => Raise IndexError
  end.

Class Pyplot {E : Collaborators} : Type := {
  limit : Type;
  (** [np.percentile(np.abs(tmp), q)] for [tmp] the entries of the maps
      that are not NaN *)
  percentile_abs : list scalp_map -> Q -> res limit;
  (** [topo.set_map(m)] *)
  set_map : scalp_map -> topo -> topo
}.

Section Frontends.
Context {E : Collaborators} {P : Pyplot}.

(** The calls made on matplotlib and on the renderer.  An axes object is
    known by the index of its subplot. *)
Inductive draw : Type :=
| ShowFigure
| Subplot (rows cols index : nat)
| PlotMap (t : topo) (crange : option limit)
| PlotLocations (t : topo)
| PlotHead (t : topo)
| SetYTicks (ax : nat)
| SetXTicks (ax : nat)
| SetFrameOn (ax : nat) (on : bool)
| SetYLabel (ax : nat) (label : string).

(** A front end runs on the object and on the figure drawn so far. *)
Definition PM (A : Type) : Type :=
  SCoT * list draw -> outcome A * (SCoT * list draw).

Definition pret {A} (a : A) : PM A := fun st => (Returned a, st).
Definition praise {A} (e : front_exn) : PM A := fun st => (Raised e, st).
Definition pout {A} (o : outcome A) : PM A := fun st => (o, st).
Definition pget : PM SCoT := fun st => (Returned (fst st), st).
Definition emit (d : draw) : PM unit :=
  fun st => (Returned tt, (fst st, snd st ++ [d])).
Definition pbind {A B} (c : PM A) (k : A -> PM B) : PM B :=
  fun st => match c st with
            | (Returned a, st') => k a st'
            | (Raised e, st') => (Raised e, st')
            end.

(** A method of the object called from a front end. *)
Definition call {A} (c : M A) : PM A :=
  fun st => match c (fst st) with
            | (Ok a, s') => (Returned a, (s', snd st))
            | (Raise e, s') => (Raised (Inner e), (s', snd st))
            end.

Notation "'let&' x ':=' c 'in' k" := (pbind c (fun x => k))
  (at level 10, x pattern, c at level 100, k at level 200).
Notation "c '>>&' k" := (pbind c (fun _ => k))
  (at level 100, k at level 200, right associativity).

Fixpoint pfold {X A} (body : A -> X -> PM A) (l : list X) (acc : A) : PM A :=
  match l with
  | [] => pret acc
  | x :: t => let& acc' := body acc x in pfold body t acc'
  end.

(** [showPlots]: [plt] is a global of the module. *)
Definition showPlots (have_pyplot : bool) : PM unit :=
  let& _ := pout (load_global "SCoT" "plt" (module_globals have_pyplot)) in
  emit ShowFigure.

(** [self.topo_.set_map(m)] *)
Definition topo_set_map (m : scalp_map) : PM topo :=
  let& s := pget in
  match topo_ s with
  | None => praise (Inner (AttributeError "set_map"))
  | Some t =>
      call (modify (set_topo_ (Some (set_map m t)))) >>& pret (set_map m t)
  end.

(** One cell of the figure (lines 174-181 and 183-190):
    [axes.append(plt.subplot(2, M, index))], the map taken from the cache,
    then the three drawing calls. *)
Definition plot_cell (grid index : nat) (maps : SCoT -> list scalp_map)
    (m : nat) (crange : option limit) (axes : list nat) : PM (list nat) :=
  emit (Subplot 2 grid index) >>&
  let& s := pget in
  let& mp := call (lift (list_item (maps s) m)) in
  let& t := topo_set_map mp in
  emit (PlotMap t crange) >>&
  emit (PlotLocations t) >>&
  emit (PlotHead t) >>&
  pret (axes ++ [index]).

(** Lines 161-170: the two colour limits, when [global_scale] is true as
    a condition (neither [None] nor zero). *)
Definition scale_limits (global_scale : option Q)
  : PM (option (limit * limit)) :=
  match global_scale with
  | Some g =>
      if Qeq_bool g 0 then pret None
      else
        let& s := pget in
        let& umax := call (lift (percentile_abs (unmixmaps_ s) g)) in
        let& mmax := call (lift (percentile_abs (mixmaps_ s) g)) in
        pret (Some (umax, mmax))
  | None => pret None
  end.

(** Lines 173-190, one pass: the unmixing map of component [m] in the
    upper row, its mixing map below. *)
Definition plot_component (grid : nat) (lim : option (limit * limit))
    (axes : list nat) (m : nat) : PM (list nat) :=
  let& axes1 := plot_cell grid (m + 1) unmixmaps_ m (option_map fst lim) axes in
  plot_cell grid (grid + m + 1) mixmaps_ m (option_map snd lim) axes1.

(** Lines 192-198. *)
Definition finish_axes (axes : list nat) : PM unit :=
  pfold (fun _ a =>
           emit (SetYTicks a) >>& emit (SetXTicks a) >>&
           emit (SetFrameOn a false)) axes tt >>&
  let& a0 := call (lift (list_item axes 0)) in
  emit (SetYLabel a0 "Unmixing weights") >>&
  let& a1 := call (lift (list_item axes 1)) in
  emit (SetYLabel a1 "Scalp projections").

Definition plotComponents (have_pyplot : bool) (global_scale : option Q)
  : PM unit :=
  let& flag :=
    pout (load_global "SCoT" "_have_pyplot" (module_globals have_pyplot)) in
  if negb (truthy flag) then
    praise (ImportError "matplotlib.pyplot is required for plotting")
  else
    let& s := pget in
    match unmixing_ s, mixing_ s with
    | None, None =>
        praise (Inner (RuntimeError
                         "No components available (run doMVARICA first)"))
    | _, _ =>
        call (preparePlots true true) >>&
        let& s1 := pget in
        match mixing_ s1 with
        | None => praise (Inner (AttributeError "shape"))
        | Some w =>
            let grid := fst (shape2 w) in
            let& lim := scale_limits global_scale in
            let& axes := pfold (plot_component grid lim) (seq 0 grid) [] in
            finish_axes axes
        end
    end.

Definition plotConnectivity (have_pyplot : bool) (measure : string)
  : PM unit :=
  let& flag :=
    pout (load_global "SCoT" "__have_pyplot" (module_globals have_pyplot)) in
  if negb (truthy flag) then
    praise (ImportError "matplotlib.pyplot is required for plotting")
  else pret tt.

(** The subplots a figure was asked for, in order. *)
Definition subplots (tr : list draw) : list (nat * nat * nat) :=
  flat_map (fun d => match d with
                     | Subplot r c i => [(r, c, i)]
                     | _ => []
                     end) tr.

(** The cells of a figure of [grid] components: for each component its
    unmixing map in the upper row and its mixing map in the lower one. *)
Definition component_cells (grid : nat) (ms : list nat)
  : list (nat * nat * nat) :=
  flat_map (fun m => [(2, grid, m + 1); (2, grid, grid + m + 1)])%nat ms.

End Frontends.

Notation "'let&' x ':=' c 'in' k" := (pbind c (fun x => k))
  (at level 10, x pattern, c at level 100, k at level 200).
Notation "c '>>&' k" := (pbind c (fun _ => k))
  (at level 100, k at level 200, right associativity).

(** ** More of the small world: a figure, a separator whose component
    count follows the data, and labelled trials *)

Module Toy2.
Import Toy.

(** A separator that keeps one component of a weak signal and two of a
    strong one: the unmixing transform is channels x components, the
    mixing transform components x channels. *)
Definition mvarica_rv (X : array3 Z) (P : nat) (rv nc : option Q)
    (dl : option Z) (be : option unit)
  : res (mvarica_result Z Z nat Z) :=
  if sum3 X =? 0 then Raise (LinAlgError "singular matrix")
  else
    let M := snd (fst (shape3 X)) in
    let C := if sum3 X <? 100 then 1%nat else 2%nat in
    Ok (mk_mvarica_result
          (mk_matrix (C, M)
             (map (fun c => map (fun m => Z.of_nat (c + m) + 1) (seq 0 M))
                  (seq 0 C)))
          (mk_matrix (M, C)
             (map (fun m => map (fun c => Z.of_nat (c + m) + 1) (seq 0 C))
                  (seq 0 M)))
          (sum3 X) (fst (fst (shape3 X))) (Some 0)).

#[local] Instance world_rv : Collaborators := {|
  scalar := Z; szero := 0; sadd := Z.add; smul := Z.mul;
  ar_model := Z; noise_cov := nat; delta := Z; backend := unit;
  mvarica := mvarica_rv;
  var_fit := fit_toy;
  conn := connectivity; value := pyvalue;
  Connectivity := mk_connectivity;
  py_getattr := getattr_toy;
  zeros64 := fun M nfft => VArr (replicate (M * M * nfft)%nat (fzero, fzero));
  setitem64 := setitem_toy;
  locs := unit; topo := list Z; scalp_map := list Z;
  Topoplot := [];
  set_locations := fun _ t => t;
  set_values := fun v _ => v;
  create_map := fun t => t;
  get_map := fun t => t
|}.

#[local] Instance figure : Pyplot (E := world_rv) := {|
  limit := Z;
  percentile_abs := fun maps q =>
    match maps with
    | [] => Raise IndexError
    | _ => Ok (fold_right Z.max 0 (map (fold_right Z.max 0) maps))
    end;
  set_map := fun m _ => m
|}.

(** Two channels, one trial. *)
Definition stereo (samples : list (Z * Z)) : ndarray scalar :=
  Nd3 (mk_array3 (length samples, 2, 1)%nat
         (map (fun x => [[fst x]; [snd x]]) samples)).

Definition fresh_rv : SCoT := init 1 None (Some tt) (99 # 100) 1 None.

(** A weak signal decomposed into one component. *)
Definition weak : SCoT :=
  run [OpSetData (stereo [(1, 2)]) None; OpDoMVARICA] fresh_rv.

(** The same object after its maps were drawn and a strong signal was
    decomposed into two components: every call on the way returned. *)
Definition restaged : SCoT :=
  run [OpPreparePlots true true;
       OpSetData (stereo [(10, 20); (30, 40)]) None; OpDoMVARICA] weak.

(** Five samples of one channel in three trials, labelled 7, 3, 7, on an
    object of the first small world after a decomposition. *)
Definition trials3 : ndarray (@scalar world) :=
  Nd3 (mk_array3 (5, 1, 3)%nat
         [[[1; 2; 3]]; [[4; 5; 6]]; [[7; 8; 9]]; [[1; 1; 1]]; [[2; 2; 2]]]).

Definition labelled : @SCoT world :=
  run [OpSetData trials3 (Some [7; 3; 7]); OpDoMVARICA;
       OpSetData trials3 (Some [7; 3; 7])] fresh.

Definition acts_labelled : array3 (@scalar world) :=
  Eval vm_compute in
    match activations_ labelled with
    | Some a => a
    | None => mk_array3 (0, 0, 0)%nat []
    end.

(** The value of a computation that is known to return. *)
Definition unwrap {A} (d : A) (r : res A) : A :=
  match r with Ok a => a | Raise _ => d end.

(** Window [i] of the labelled activations for windows of two samples
    every two samples, and its per-label fit. *)
Definition window_labelled (i : nat) : array3 (@scalar world) :=
  unwrap acts_labelled
    (take_rows acts_labelled (arange_plus 2 (Z.of_nat i * 2))).

Definition fit_labelled (i : nat)
  : dict (@ar_model world) * dict (@noise_cov world) :=
  unwrap ([], []) (fit_multiclass (window_labelled i) [7; 3; 7] 1 (Some 0)).

End Toy2.

(** * Properties *)

(** ** Results and folds *)

Lemma res_fold_app {A X} (f : A -> X -> res A) l1 l2 acc :
  res_fold f (l1 ++ l2) acc =
  (let? acc' := res_fold f l1 acc in res_fold f l2 acc').
Proof.
  revert acc; induction l1 as [|x l1 IH]; intros acc; simpl; [done|].
  destruct (f acc x); simpl; auto.
Qed.

(** A pass that raises whatever the loop state is makes the loop raise. *)
Lemma res_fold_raises {A X} (f : A -> X -> res A) l x acc :
  In x l ->
  (forall st, is_ok (f st x) = false) ->
  is_ok (res_fold f l acc) = false.
Proof.
  revert acc; induction l as [|y l IH]; intros acc; simpl; [done|].
  intros [->|Hin] Hx.
  - specialize (Hx acc). destruct (f acc x); simpl in *; congruence.
  - destruct (f acc y); simpl; auto.
Qed.

(** The first pass to raise decides the error of the loop. *)
Lemma res_fold_first_error {A X} (f : A -> X -> res A) pre x post acc st e :
  res_fold f pre acc = Ok st ->
  f st x = Raise e ->
  res_fold f (pre ++ x :: post) acc = Raise e.
Proof.
  intros Hpre Hx. rewrite res_fold_app, Hpre. simpl. now rewrite Hx.
Qed.

Lemma res_map_length {X Y} (f : X -> res Y) l ys :
  res_map f l = Ok ys -> length ys = length l.
Proof.
  revert ys; induction l as [|x l IH]; intros ys; simpl.
  - intros [= <-]. reflexivity.
  - destruct (f x); simpl; [|discriminate].
    destruct (res_map f l); simpl; [|discriminate].
    intros [= <-]. simpl. f_equal. auto.
Qed.

Lemma res_map_ext {X Y} (f g : X -> res Y) l :
  (forall x, In x l -> f x = g x) -> res_map f l = res_map g l.
Proof.
  induction l as [|x l IH]; simpl; [done|].
  intros H. rewrite (H x) by auto. rewrite IH by auto. done.
Qed.

Lemma res_map_nth {X Y} (f : X -> res Y) l ys i x :
  res_map f l = Ok ys -> nth_error l i = Some x ->
  exists y, nth_error ys i = Some y /\ f x = Ok y.
Proof.
  revert ys i; induction l as [|z l IH]; intros ys i; simpl.
  - intros _. destruct i; discriminate.
  - destruct (f z) eqn:Hz; simpl; [|discriminate].
    destruct (res_map f l) eqn:Hl; simpl; [|discriminate].
    intros [= <-]. destruct i; simpl.
    + intros [= <-]. eauto.
    + intros Hi. eapply IH; eauto.
Qed.

(** ** [np.unique] gives the distinct labels in increasing order *)

Lemma insert_uniq_In x y l : In y (insert_uniq x l) <-> y = x \/ In y l.
Proof.
  induction l as [|z l IH]; simpl.
  - intuition.
  - destruct (Z.ltb_spec x z); simpl; [intuition|].
    destruct (Z.eqb_spec x z); simpl; [subst; intuition|].
    rewrite IH. intuition.
Qed.

Lemma insert_uniq_sorted x l :
  StronglySorted Z.lt l -> StronglySorted Z.lt (insert_uniq x l).
Proof.
  induction 1 as [|z l Hs IH Hz]; simpl.
  - repeat constructor.
  - destruct (Z.ltb_spec x z).
    + constructor; [constructor; assumption|].
      constructor; [assumption|].
      eapply List.Forall_impl; [|exact Hz]. simpl. intros; lia.
    + destruct (Z.eqb_spec x z); [constructor; assumption|].
      constructor; [assumption|].
      apply List.Forall_forall. intros y Hy.
      apply insert_uniq_In in Hy as [->|Hy]; [lia|].
      rewrite List.Forall_forall in Hz. auto.
Qed.

Lemma unique_sorted l : StronglySorted Z.lt (unique l).
Proof.
  induction l; simpl; [constructor|]. now apply insert_uniq_sorted.
Qed.

Lemma unique_In x l : In x (unique l) <-> In x l.
Proof.
  induction l as [|y l IH]; simpl; [tauto|].
  rewrite insert_uniq_In, IH. intuition.
Qed.

Lemma sorted_lt_NoDup l : StronglySorted Z.lt l -> List.NoDup l.
Proof.
  induction 1 as [|z l Hs IH Hz]; constructor; [|assumption].
  intros Hin. rewrite List.Forall_forall in Hz. specialize (Hz z Hin). lia.
Qed.

Lemma unique_NoDup l : List.NoDup (unique l).
Proof. apply sorted_lt_NoDup, unique_sorted. Qed.

(** ** Dictionaries *)

Section DictFacts.
Context {V : Type}.
Implicit Types (d : list (Z * V)) (k : Z) (v : V).

Lemma dict_set_fresh k v d :
  ~ In k (dict_keys d) -> dict_set k v d = d ++ [(k, v)].
Proof.
  unfold dict_keys.
  induction d as [|[k' v'] d IH]; simpl; [done|].
  intros Hk. destruct (Z.eqb_spec k k') as [->|_]; [tauto|].
  f_equal. apply IH. tauto.
Qed.

Lemma dict_get_here k v pre post :
  ~ In k (dict_keys pre) -> dict_get k (pre ++ (k, v) :: post) = Some v.
Proof.
  unfold dict_keys.
  induction pre as [|[k' v'] pre IH]; simpl.
  - now rewrite Z.eqb_refl.
  - intros Hk. destruct (Z.eqb_spec k k') as [->|_]; [tauto|].
    apply IH. tauto.
Qed.

Lemma dict_set_here k v v0 pre post :
  ~ In k (dict_keys pre) ->
  dict_set k v (pre ++ (k, v0) :: post) = pre ++ (k, v) :: post.
Proof.
  unfold dict_keys.
  induction pre as [|[k' v'] pre IH]; simpl.
  - now rewrite Z.eqb_refl.
  - intros Hk. destruct (Z.eqb_spec k k') as [->|_]; [tauto|].
    f_equal. apply IH. tauto.
Qed.

Lemma dict_keys_app d1 d2 : dict_keys (d1 ++ d2) = dict_keys d1 ++ dict_keys d2.
Proof. apply List.map_app. Qed.

Lemma dict_keys_combine (l : list Z) (vs : list V) :
  length vs = length l -> dict_keys (combine l vs) = l.
Proof.
  revert vs; induction l as [|c l IH]; intros [|v vs]; simpl;
    try discriminate; [done|].
  intros [= H]. f_equal. auto.
Qed.

Lemma dict_get_combine (l : list Z) (vs : list V) i c v :
  List.NoDup l -> nth_error l i = Some c -> nth_error vs i = Some v ->
  dict_get c (combine l vs) = Some v.
Proof.
  intros Hnd. revert vs i.
  induction Hnd as [|c' l Hc' Hnd IH]; intros vs i; [destruct i; discriminate|].
  destruct vs as [|v' vs]; [destruct i; discriminate|].
  destruct i as [|i]; simpl.
  - intros [= ->] [= ->]. now rewrite Z.eqb_refl.
  - intros Hl Hv. destruct (Z.eqb_spec c c') as [->|_].
    + apply nth_error_In in Hl. tauto.
    + eauto.
Qed.

Lemma dict_get_In k d v : dict_get k d = Some v -> In k (dict_keys d).
Proof.
  induction d as [|[k' v'] d IH]; simpl; [discriminate|].
  destruct (Z.eqb_spec k k'); auto.
Qed.

Lemma dict_get_combine_inv (l : list Z) (vs : list V) c v :
  dict_get c (combine l vs) = Some v ->
  exists i, nth_error l i = Some c /\ nth_error vs i = Some v.
Proof.
  revert vs; induction l as [|c' l IH]; intros [|v' vs]; simpl;
    try discriminate.
  destruct (Z.eqb_spec c c') as [->|_].
  - intros [= ->]. exists O. auto.
  - intros H. destruct (IH _ H) as (i & ? & ?). exists (S i). auto.
Qed.

(** Filling a dictionary key by key, over distinct keys it does not hold
    yet, appends the entries in the order of the keys. *)
Lemma res_fold_build (g : Z -> res V) (l : list Z) d0 :
  List.NoDup l ->
  (forall c, In c l -> ~ In c (dict_keys d0)) ->
  res_fold (fun acc c => let? v := g c in Ok (dict_set c v acc)) l d0 =
  (let? vs := res_map g l in Ok (d0 ++ combine l vs)).
Proof.
  intros Hnd. revert d0.
  induction Hnd as [|c l Hc Hnd IH]; intros d0 Hfresh; simpl.
  - now rewrite app_nil_r.
  - destruct (g c) as [v|e]; simpl; [|done].
    rewrite dict_set_fresh by (apply Hfresh; simpl; auto).
    rewrite IH.
    + destruct (res_map g l); simpl; [|done].
      now rewrite <- app_assoc.
    + intros c' Hc'. rewrite dict_keys_app, in_app_iff. simpl.
      intros [H|[->|[]]]; [|tauto].
      eapply Hfresh; [|exact H]. simpl; auto.
Qed.
End DictFacts.

Lemma res_fold_ext {A X} (f g : A -> X -> res A) l acc :
  (forall st x, In x l -> f st x = g st x) ->
  res_fold f l acc = res_fold g l acc.
Proof.
  revert acc; induction l as [|x l IH]; intros acc H; simpl; [done|].
  rewrite (H acc x) by (simpl; auto).
  destruct (g acc x); simpl; [|done]. apply IH. intros; apply H; simpl; auto.
Qed.

Lemma res_fold_map {A X Y} (f : A -> Y -> res A) (h : X -> Y) l acc :
  res_fold f (map h l) acc = res_fold (fun st x => f st (h x)) l acc.
Proof.
  revert acc; induction l as [|x l IH]; intros acc; simpl; [done|].
  destruct (f acc (h x)); simpl; auto.
Qed.

Lemma res_map_intro {X Y} (f : X -> res Y) l ys :
  length ys = length l ->
  (forall i x y, nth_error l i = Some x -> nth_error ys i = Some y ->
                 f x = Ok y) ->
  res_map f l = Ok ys.
Proof.
  revert ys; induction l as [|x l IH]; intros [|y ys]; simpl;
    try discriminate; [done|].
  intros [= Hlen] H.
  rewrite (H O x y) by reflexivity. simpl.
  rewrite (IH ys); [done|assumption|].
  intros i x' y' Hx Hy. apply (H (S i)); assumption.
Qed.

Lemma res_map_map {X Y W} (f : Y -> res W) (h : X -> Y) l :
  res_map f (map h l) = res_map (fun x => f (h x)) l.
Proof.
  induction l as [|x l IH]; simpl; [done|]. now rewrite IH.
Qed.

(** Updating, key by key, a dictionary that holds exactly those keys. *)
Lemma res_fold_update {V W} (F : Z -> res W) (G : W -> V -> res V)
    (l : list Z) (pre : list (Z * V)) (rs : list V) :
  List.NoDup l ->
  length rs = length l ->
  (forall c, In c l -> ~ In c (dict_keys pre)) ->
  res_fold (fun d c =>
              let? x := F c in
              let? r := dict_item c d in
              let? r' := G x r in
              Ok (dict_set c r' d))
           l (pre ++ combine l rs) =
  (let? rs' := res_map (fun cr => let? x := F (fst cr) in G x (snd cr))
                       (combine l rs) in
   Ok (pre ++ combine l rs')).
Proof.
  intros Hnd. revert pre rs.
  induction Hnd as [|c l Hc Hnd IH]; intros pre rs Hlen Hfresh.
  - destruct rs; [|discriminate]. reflexivity.
  - destruct rs as [|r rs]; [discriminate|]. injection Hlen as Hlen.
    cbn [combine res_fold res_map fst snd].
    destruct (F c) as [x|e]; cbn [res_bind]; [|done].
    unfold dict_item at 1.
    rewrite dict_get_here by (apply Hfresh; simpl; auto).
    cbn [res_bind].
    destruct (G x r) as [r'|e]; cbn [res_bind]; [|done].
    rewrite dict_set_here by (apply Hfresh; simpl; auto).
    replace (pre ++ (c, r') :: combine l rs)
      with ((pre ++ [(c, r')]) ++ combine l rs)
      by (now rewrite <- app_assoc).
    rewrite IH; [|assumption|].
    + destruct (res_map _ (combine l rs)); cbn [res_bind]; [|done].
      now rewrite <- app_assoc.
    + intros c' Hc'. rewrite dict_keys_app, in_app_iff. simpl.
      intros [H|[->|[]]]; [|tauto].
      eapply Hfresh; [|exact H]. simpl; auto.
Qed.

Lemma nth_error_combine {X Y} (l : list X) (r : list Y) i x y :
  nth_error l i = Some x -> nth_error r i = Some y ->
  nth_error (combine l r) i = Some (x, y).
Proof.
  revert r i; induction l as [|a l IH]; intros [|b r] [|i]; simpl;
    try discriminate.
  - now intros [= ->] [= ->].
  - apply IH.
Qed.

Lemma nth_error_combine_inv {X Y} (l : list X) (r : list Y) i p :
  nth_error (combine l r) i = Some p ->
  nth_error l i = Some (fst p) /\ nth_error r i = Some (snd p).
Proof.
  revert r i; induction l as [|a l IH]; intros [|b r] [|i]; simpl;
    try discriminate.
  - now intros [= <-].
  - apply IH.
Qed.

(** ** The methods, run *)

Section Facts.
Context {E : Collaborators}.

Lemma setData_run data cl s :
  setData data cl s =
  match unmixing_ s with
  | Some w =>
      match dot_special (atleast_3d data) w with
      | Ok a => (Ok tt, set_activations_ (Some a)
                          (after_clear (atleast_3d data) cl s))
      | Raise e => (Raise e, after_clear (atleast_3d data) cl s)
      end
  | None => (Ok tt, after_clear (atleast_3d data) cl s)
  end.
Proof.
  unfold setData, bind, modify, get, lift, ret, after_clear. simpl.
  destruct (unmixing_ s); [|reflexivity].
  destruct (dot_special _ _); reflexivity.
Qed.

Lemma doMVARICA_run s :
  doMVARICA s =
  match data_ s with
  | None => (Raise (RuntimeError "MVARICA requires data to be set"), s)
  | Some X =>
      match mvarica X (var_order_ s) (fst (reduction_mode s))
              (snd (reduction_mode s)) (var_delta_ s) (backend_ s) with
      | Ok result => (Ok tt, after_mvarica result s)
      | Raise e => (Raise e, s)
      end
  end.
Proof.
  unfold doMVARICA, bind, modify, get, lift, ret, raise, reduction_mode,
    after_mvarica. simpl.
  destruct (data_ s); [|reflexivity].
  destruct (negb _); simpl; destruct (mvarica _ _ _ _ _ _); reflexivity.
Qed.

Lemma fit_multiclass_gen data cl P dl (l : list Z) B0 C0 :
  List.NoDup l ->
  (forall c, In c l -> ~ In c (dict_keys B0) /\ ~ In c (dict_keys C0)) ->
  res_fold
    (fun (acc : dict ar_model * dict noise_cov) c =>
       let? x := select_trials data cl c in
       let? bc := var_fit x P dl in
       Ok (dict_set c (fst bc) (fst acc), dict_set c (snd bc) (snd acc)))
    l (B0, C0) =
  (let? bcs := res_map (fit_one data cl P dl) l in
   Ok (B0 ++ combine l (map fst bcs), C0 ++ combine l (map snd bcs))).
Proof.
  intros Hnd. revert B0 C0.
  induction Hnd as [|c l Hc Hnd IH]; intros B0 C0 Hfresh; simpl.
  - now rewrite !app_nil_r.
  - unfold fit_one at 1.
    destruct (select_trials data cl c) as [x|e]; simpl; [|done].
    destruct (var_fit x P dl) as [bc|e]; simpl; [|done].
    destruct (Hfresh c) as [HB HC]; [simpl; auto|].
    rewrite !dict_set_fresh by assumption.
    rewrite IH.
    + destruct (res_map _ l); simpl; [|done].
      now rewrite <- !app_assoc.
    + intros c' Hc'. rewrite !dict_keys_app, !in_app_iff. simpl.
      destruct (Hfresh c') as [HB' HC']; [simpl; auto|].
      split; intros [H|[->|[]]]; tauto.
Qed.

Lemma fit_multiclass_run data cl P dl :
  fit_multiclass data cl P dl =
  (let? bcs := res_map (fit_one data cl P dl) (unique cl) in
   Ok (combine (unique cl) (map fst bcs), combine (unique cl) (map snd bcs))).
Proof.
  unfold fit_multiclass. rewrite fit_multiclass_gen.
  - reflexivity.
  - apply unique_NoDup.
  - simpl. tauto.
Qed.

(** The mappings of the per-class fit are keyed by the distinct labels. *)
Lemma fit_multiclass_keys data cl P dl B C :
  fit_multiclass data cl P dl = Ok (B, C) ->
  dict_keys B = unique cl /\ dict_keys C = unique cl.
Proof.
  rewrite fit_multiclass_run.
  destruct (res_map _ _) as [bcs|] eqn:Hm; simpl; [|discriminate].
  intros [= <- <-]. apply res_map_length in Hm.
  split; apply dict_keys_combine; now rewrite length_map.
Qed.

(** Looking a label up in both mappings of a fit and building its model. *)
Lemma class_model_combine (l : list Z) (bcs : list (ar_model * noise_cov))
    nfft :
  List.NoDup l -> length bcs = length l ->
  res_map (class_model (combine l (map fst bcs)) (combine l (map snd bcs)) nfft)
          l =
  Ok (map (fun bc => Connectivity (fst bc) (snd bc) nfft) bcs).
Proof.
  intros Hnd Hlen. apply res_map_intro.
  - now rewrite length_map.
  - intros i c con Hc Hcon.
    rewrite nth_error_map in Hcon.
    destruct (nth_error bcs i) as [bc|] eqn:Hbc; [|discriminate].
    injection Hcon as <-.
    assert (HB : dict_get c (combine l (map fst bcs)) = Some (fst bc)).
    { apply (dict_get_combine l (map fst bcs) i); auto.
      now rewrite nth_error_map, Hbc. }
    assert (HC : dict_get c (combine l (map snd bcs)) = Some (snd bc)).
    { apply (dict_get_combine l (map snd bcs) i); auto.
      now rewrite nth_error_map, Hbc. }
    unfold class_model, dict_item. now rewrite HB, HC.
Qed.

Lemma for_each_cons {X} (x : X) t (body : X -> M unit) s :
  for_each (x :: t) body s =
  match body x s with
  | (Ok _, s') => for_each t body s'
  | (Raise e, s') => (Raise e, s')
  end.
Proof. reflexivity. Qed.

(** A call known to return, as a pair. *)
Lemma returns_pair {A} (c : M A) (s : SCoT) (a : A) :
  fst (c s) = Ok a -> c s = (Ok a, snd (c s)).
Proof. destruct (c s) as [r s']. cbn [fst snd]. now intros ->. Qed.

Lemma set_connectivity_id s v :
  connectivity_ s = v -> set_connectivity_ v s = s.
Proof. destruct s; simpl; now intros ->. Qed.

Lemma fitVAR_body_run B C nfft c s d0 :
  connectivity_ s = Some (PerClass d0) ->
  (let! b := lift (dict_item c B) in
   let! cv := lift (dict_item c C) in
   connectivity_setitem c (Connectivity b cv nfft)) s =
  match class_model B C nfft c with
  | Ok con =>
      (Ok tt, set_connectivity_ (Some (PerClass (dict_set c con d0))) s)
  | Raise e => (Raise e, s)
  end.
Proof.
  intros Hs. unfold class_model, connectivity_setitem, bind, lift, get, modify.
  destruct (dict_item c B); cbn [res_bind]; [|reflexivity].
  destruct (dict_item c C); cbn [res_bind]; [|reflexivity].
  cbv beta. now rewrite Hs.
Qed.

(** The loop of [fitVAR] that fills [self.connectivity_]: whatever
    happens, only that attribute is touched. *)
Lemma fitVAR_loop B C nfft (l : list Z) s d0 :
  connectivity_ s = Some (PerClass d0) ->
  exists d,
    snd (for_each l (fun c =>
           let! b := lift (dict_item c B) in
           let! cv := lift (dict_item c C) in
           connectivity_setitem c (Connectivity b cv nfft)) s)
    = set_connectivity_ (Some (PerClass d)) s /\
    fst (for_each l (fun c =>
           let! b := lift (dict_item c B) in
           let! cv := lift (dict_item c C) in
           connectivity_setitem c (Connectivity b cv nfft)) s)
    = (let? _ := res_fold (fun d c => let? con := class_model B C nfft c in
                                      Ok (dict_set c con d)) l d0 in Ok tt) /\
    (forall d', res_fold (fun d c => let? con := class_model B C nfft c in
                                     Ok (dict_set c con d)) l d0 = Ok d' ->
                d = d').
Proof.
  revert s d0; induction l as [|c l IH]; intros s d0 Hs.
  - exists d0. simpl. repeat split.
    + symmetry. now apply set_connectivity_id.
    + now intros d' [= <-].
  - rewrite for_each_cons, (fitVAR_body_run B C nfft c s d0 Hs).
    cbn [res_fold].
    destruct (class_model B C nfft c) as [con|e]; cbn [res_bind fst snd].
    2:{ exists d0. repeat split; [|discriminate].
        symmetry. now apply set_connectivity_id. }
    destruct (IH (set_connectivity_ (Some (PerClass (dict_set c con d0))) s)
                 (dict_set c con d0) eq_refl)
      as (d & Hsnd & Hfst & Hd).
    exists d. rewrite Hsnd, Hfst. repeat split; assumption.
Qed.

Lemma fitVAR_none s :
  activations_ s = None ->
  fitVAR s =
  (Raise (RuntimeError
     "VAR fitting requires activations (call setData after doMVARICA)"), s).
Proof. intros H. unfold fitVAR, bind, get. now rewrite H. Qed.

Lemma fitVAR_single s a :
  activations_ s = Some a -> cl_ s = None ->
  fitVAR s =
  match var_fit a (var_order_ s) (var_delta_ s) with
  | Ok bc => (Ok tt, after_fit_single bc s)
  | Raise e => (Raise e, s)
  end.
Proof.
  intros Ha Hcl. unfold fitVAR, bind, get, lift, modify. rewrite Ha, Hcl.
  destruct (var_fit _ _ _); reflexivity.
Qed.

Lemma fitVAR_class s a cl :
  activations_ s = Some a -> cl_ s = Some cl ->
  fitVAR s =
  match res_map (fit_one a cl (var_order_ s) (var_delta_ s)) (unique cl) with
  | Ok bcs => (Ok tt, after_fit_class cl bcs s)
  | Raise e => (Raise e, s)
  end.
Proof.
  intros Ha Hcl. unfold fitVAR. unfold bind at 1, get at 1.
  rewrite Ha, Hcl. unfold bind at 1, lift at 1.
  rewrite fit_multiclass_run.
  destruct (res_map _ _) as [bcs|e] eqn:Hm; cbn [res_bind]; [|reflexivity].
  unfold bind at 1, modify at 1. unfold bind at 1, modify at 1.
  unfold bind at 1, modify at 1. cbn [fst snd].
  set (B := combine (unique cl) (map fst bcs)).
  set (C := combine (unique cl) (map snd bcs)).
  set (s3 := set_connectivity_ (Some (PerClass [])) _).
  destruct (fitVAR_loop B C (nfft_ s) (unique cl) s3 [] eq_refl)
    as (d & Hsnd & Hfst & Hd).
  assert (Hfold :
    res_fold (fun d c => let? con := class_model B C (nfft_ s) c in
                         Ok (dict_set c con d)) (unique cl) [] =
    Ok (combine (unique cl)
          (map (fun bc => Connectivity (fst bc) (snd bc) (nfft_ s)) bcs))).
  { rewrite res_fold_build; [|apply unique_NoDup|simpl; tauto].
    unfold B, C. rewrite class_model_combine.
    - reflexivity.
    - apply unique_NoDup.
    - now apply res_map_length in Hm. }
  rewrite Hfold in Hfst. cbn [res_bind] in Hfst.
  specialize (Hd _ Hfold). subst d.
  rewrite (surjective_pairing (for_each _ _ _)), Hsnd, Hfst.
  reflexivity.
Qed.

Lemma getConnectivity_state m s : snd (getConnectivity m s) = s.
Proof.
  unfold getConnectivity, bind, get, lift, ret, raise.
  destruct (connectivity_ s) as [[con|d]|]; [| |reflexivity].
  - destruct (call_measure con m); reflexivity.
  - destruct (res_fold _ _ _); reflexivity.
Qed.

Lemma getConnectivity_none m s :
  connectivity_ s = None ->
  getConnectivity m s =
  (Raise (RuntimeError
     "Connectivity requires a VAR model (run doMVARICA or fitVAR first)"), s).
Proof. intros H. unfold getConnectivity, bind, get. now rewrite H. Qed.

Lemma getConnectivity_single m s con :
  connectivity_ s = Some (Single con) ->
  getConnectivity m s =
  (match py_getattr con m with
   | Some (Ok v) => Ok (Single v)
   | Some (Raise e) => Raise e
   | None => Raise (AttributeError m)
   end, s).
Proof.
  intros H. unfold getConnectivity, bind, get, lift, ret, call_measure.
  rewrite H. destruct (py_getattr con m) as [[v|e]|]; reflexivity.
Qed.

Lemma getConnectivity_class m s d l :
  connectivity_ s = Some (PerClass d) -> cl_ s = Some l ->
  getConnectivity m s =
  (let? vs := res_map (fun c => let? con := dict_item c d in
                                call_measure con m) (unique l) in
   Ok (PerClass (combine (unique l) vs)), s).
Proof.
  intros Hc Hl. unfold getConnectivity, bind, get, lift, ret.
  rewrite Hc, Hl. unfold unique_labels. rewrite res_fold_map.
  rewrite (res_fold_ext _
    (fun acc c => let? v := (let? con := dict_item c d in call_measure con m)
                  in Ok (dict_set c v acc))).
  2:{ intros st c _. destruct (dict_item c d); simpl; [|reflexivity].
      destruct (call_measure _ _); reflexivity. }
  rewrite res_fold_build; [|apply unique_NoDup|simpl; tauto].
  destruct (res_map _ _); reflexivity.
Qed.

Lemma getTFConnectivity_state m wl ws s :
  snd (getTFConnectivity m wl ws s) = s.
Proof.
  unfold getTFConnectivity, bind, get, lift, ret, raise.
  destruct (activations_ s) as [a|]; [|reflexivity].
  destruct (shape3 a) as [[N M] T].
  destruct (floordiv _ _); [|reflexivity].
  destruct (cl_ s).
  - destruct (res_fold _ _ _); [|reflexivity].
    destruct (py_range _ _); [|reflexivity].
    destruct (res_fold _ _ _); reflexivity.
  - destruct (np_zeros _ _ _); [|reflexivity].
    destruct (py_range _ _); [|reflexivity].
    destruct (res_fold _ _ _); reflexivity.
Qed.

Lemma getTFConnectivity_none m wl ws s :
  activations_ s = None ->
  getTFConnectivity m wl ws s =
  (Raise (RuntimeError
     "Time/Frequency Connectivity requires activations (call setData after doMVARICA)"),
   s).
Proof. intros H. unfold getTFConnectivity, bind, get. now rewrite H. Qed.

(** *** Plot preparation touches the plotting attributes only *)

Lemma plots_only_refl s : plots_only s s.
Proof. unfold plots_only. now destruct s. Qed.

Lemma plots_only_trans s1 s2 s3 :
  plots_only s1 s2 -> plots_only s2 s3 -> plots_only s1 s3.
Proof.
  unfold plots_only. intros H12 H23. rewrite H23 at 1. rewrite H12 at 1.
  reflexivity.
Qed.

Lemma for_each_inv {X} (P : SCoT -> Prop) (l : list X) (body : X -> M unit) :
  (forall x s, P s -> P (snd (body x s))) ->
  forall s, P s -> P (snd (for_each l body s)).
Proof.
  intros Hbody. induction l as [|x l IH]; intros s Hs; [exact Hs|].
  rewrite for_each_cons. specialize (Hbody x s Hs).
  destruct (body x s) as [[[]|e] s']; simpl in *; auto.
Qed.

Lemma draw_map_mix_run v s t :
  topo_ s = Some t ->
  draw_map v (fun m s => set_mixmaps_ (mixmaps_ s ++ [m]) s) s =
  (Ok tt,
   set_mixmaps_ (mixmaps_ s ++ [get_map (create_map (set_values v t))])
     (set_topo_ (Some (create_map (set_values v t))) s)).
Proof. intros H. unfold draw_map, bind, get, modify. now rewrite H. Qed.

Lemma draw_map_unmix_run v s t :
  topo_ s = Some t ->
  draw_map v (fun m s => set_unmixmaps_ (unmixmaps_ s ++ [m]) s) s =
  (Ok tt,
   set_unmixmaps_ (unmixmaps_ s ++ [get_map (create_map (set_values v t))])
     (set_topo_ (Some (create_map (set_values v t))) s)).
Proof. intros H. unfold draw_map, bind, get, modify. now rewrite H. Qed.

Lemma mix_loop_run {X} (f : X -> list scalar) (l : list X) s t :
  topo_ s = Some t ->
  for_each l (fun i => draw_map (f i)
                         (fun m s => set_mixmaps_ (mixmaps_ s ++ [m]) s)) s =
  (Ok tt,
   set_mixmaps_ (mixmaps_ s ++ snd (draw_all t (map f l)))
     (set_topo_ (Some (fst (draw_all t (map f l)))) s)).
Proof.
  revert s t; induction l as [|x l IH]; intros s t Ht.
  - simpl. unfold ret. rewrite app_nil_r. destruct s; simpl in *; now subst.
  - rewrite for_each_cons, (draw_map_mix_run _ _ _ Ht).
    erewrite IH by reflexivity. simpl. now rewrite <- app_assoc.
Qed.

Lemma unmix_loop_run {X} (f : X -> list scalar) (l : list X) s t :
  topo_ s = Some t ->
  for_each l (fun i => draw_map (f i)
                         (fun m s => set_unmixmaps_ (unmixmaps_ s ++ [m]) s)) s =
  (Ok tt,
   set_unmixmaps_ (unmixmaps_ s ++ snd (draw_all t (map f l)))
     (set_topo_ (Some (fst (draw_all t (map f l)))) s)).
Proof.
  revert s t; induction l as [|x l IH]; intros s t Ht.
  - simpl. unfold ret. rewrite app_nil_r. destruct s; simpl in *; now subst.
  - rewrite for_each_cons, (draw_map_unmix_run _ _ _ Ht).
    erewrite IH by reflexivity. simpl. now rewrite <- app_assoc.
Qed.

Lemma set_topo_id s t : topo_ s = t -> set_topo_ t s = s.
Proof. destruct s; simpl; now intros ->. Qed.

Lemma ensure_topo_run l s :
  ensure_topo l s = (Ok tt, set_topo_ (Some (topo_ready l s)) s).
Proof.
  unfold ensure_topo, bind, get, modify, ret, topo_ready.
  destruct (topo_ s) eqn:Ht; [|reflexivity].
  now rewrite set_topo_id.
Qed.

Lemma plot_mixing_run mx s t :
  topo_ s = Some t ->
  plot_mixing mx s =
  if mx && (match mixmaps_ s with [] => true | _ => false end) then
    match mixing_ s with
    | None => (Raise (AttributeError "shape"), s)
    | Some w =>
        (Ok tt,
         set_mixmaps_ (snd (draw_all t (mixing_vectors w)))
           (set_topo_ (Some (fst (draw_all t (mixing_vectors w)))) s))
    end
  else (Ok tt, s).
Proof.
  intros Ht. unfold plot_mixing, bind at 1, get at 1.
  destruct mx; [|reflexivity].
  destruct (mixmaps_ s) eqn:Hm; [|reflexivity]. cbn [andb].
  destruct (mixing_ s) as [w|]; [|reflexivity].
  rewrite (mix_loop_run _ _ _ _ Ht), Hm. reflexivity.
Qed.

Lemma plot_unmixing_run ux s t :
  topo_ s = Some t ->
  plot_unmixing ux s =
  if ux && (match unmixmaps_ s with [] => true | _ => false end) then
    match unmixing_ s with
    | None => (Raise (AttributeError "shape"), s)
    | Some w =>
        (Ok tt,
         set_unmixmaps_ (snd (draw_all t (unmixing_vectors w)))
           (set_topo_ (Some (fst (draw_all t (unmixing_vectors w)))) s))
    end
  else (Ok tt, s).
Proof.
  intros Ht. unfold plot_unmixing, bind at 1, get at 1.
  destruct ux; [|reflexivity].
  destruct (unmixmaps_ s) eqn:Hm; [|reflexivity]. cbn [andb].
  destruct (unmixing_ s) as [w|]; [|reflexivity].
  rewrite (unmix_loop_run _ _ _ _ Ht), Hm. reflexivity.
Qed.

Lemma preparePlots_none mx ux s :
  locations_ s = None ->
  preparePlots mx ux s =
  (Raise (RuntimeError "Need sensor locations for plotting"), s).
Proof. intros H. unfold preparePlots, bind, get. now rewrite H. Qed.

Lemma preparePlots_some mx ux s l :
  locations_ s = Some l ->
  preparePlots mx ux s =
  match plot_mixing mx (set_topo_ (Some (topo_ready l s)) s) with
  | (Ok _, s2) => plot_unmixing ux s2
  | (Raise e, s2) => (Raise e, s2)
  end.
Proof.
  intros H. unfold preparePlots. unfold bind at 1, get at 1. rewrite H.
  unfold bind at 1. rewrite ensure_topo_run. unfold bind at 1.
  destruct (plot_mixing _ _) as [[[]|e] s2]; reflexivity.
Qed.

Lemma plot_mixing_only mx s t :
  topo_ s = Some t ->
  plots_only s (snd (plot_mixing mx s)) /\
  (exists t', topo_ (snd (plot_mixing mx s)) = Some t') /\
  unmixmaps_ (snd (plot_mixing mx s)) = unmixmaps_ s /\
  (mixmaps_ s <> [] -> mixmaps_ (snd (plot_mixing mx s)) = mixmaps_ s).
Proof.
  intros Ht. rewrite (plot_mixing_run _ _ _ Ht).
  destruct mx; cbn [andb]; [|repeat split; eauto using plots_only_refl].
  destruct (mixmaps_ s) eqn:Hm;
    [|repeat split; eauto using plots_only_refl].
  destruct (mixing_ s); cbn [snd];
    [|repeat split; eauto using plots_only_refl].
  split; [|split; [|split]];
    [unfold plots_only; reflexivity|eexists; reflexivity|reflexivity|].
  intros []; reflexivity.
Qed.

Lemma plot_unmixing_only ux s t :
  topo_ s = Some t ->
  plots_only s (snd (plot_unmixing ux s)) /\
  mixmaps_ (snd (plot_unmixing ux s)) = mixmaps_ s /\
  (unmixmaps_ s <> [] -> unmixmaps_ (snd (plot_unmixing ux s)) = unmixmaps_ s).
Proof.
  intros Ht. rewrite (plot_unmixing_run _ _ _ Ht).
  destruct ux; cbn [andb]; [|repeat split; eauto using plots_only_refl].
  destruct (unmixmaps_ s) eqn:Hm;
    [|repeat split; eauto using plots_only_refl].
  destruct (unmixing_ s); cbn [snd];
    [|repeat split; eauto using plots_only_refl].
  split; [|split]; [unfold plots_only; reflexivity|reflexivity|].
  intros []; reflexivity.
Qed.

(** [preparePlots] leaves everything but the plotting attributes alone,
    and never changes a cache that already holds maps. *)
Lemma preparePlots_only mx ux s :
  plots_only s (snd (preparePlots mx ux s)) /\
  (mixmaps_ s <> [] -> mixmaps_ (snd (preparePlots mx ux s)) = mixmaps_ s) /\
  (unmixmaps_ s <> [] ->
   unmixmaps_ (snd (preparePlots mx ux s)) = unmixmaps_ s).
Proof.
  destruct (locations_ s) as [l|] eqn:Hl.
  2:{ rewrite preparePlots_none by assumption.
      repeat split; auto using plots_only_refl. }
  rewrite (preparePlots_some _ _ _ _ Hl).
  set (s1 := set_topo_ (Some (topo_ready l s)) s).
  assert (H1 : plots_only s s1) by (unfold plots_only; reflexivity).
  destruct (plot_mixing_only mx s1 (topo_ready l s) eq_refl)
    as (Hm1 & [t' Ht'] & Hm2 & Hm3).
  destruct (plot_mixing mx s1) as [[[]|e] s2]; cbn [snd] in *.
  - destruct (plot_unmixing_only ux s2 t' Ht') as (Hu1 & Hu2 & Hu3).
    repeat split.
    + eauto using plots_only_trans.
    + intros Hne. rewrite Hu2. now apply Hm3.
    + intros Hne. rewrite Hu3; rewrite Hm2; auto.
  - repeat split; eauto using plots_only_trans.
Qed.

(** *** The attributes each method can change *)

Lemma setData_state data cl s :
  snd (setData data cl s) = after_clear (atleast_3d data) cl s \/
  exists a w, unmixing_ s = Some w /\
              dot_special (atleast_3d data) w = Ok a /\
              snd (setData data cl s) =
              set_activations_ (Some a) (after_clear (atleast_3d data) cl s).
Proof.
  rewrite setData_run. destruct (unmixing_ s) as [w|]; [|now left].
  destruct (dot_special _ w) as [a|e] eqn:Hd; [|now left].
  right. eauto.
Qed.

Lemma doMVARICA_state s :
  snd (doMVARICA s) = s \/
  exists X r, data_ s = Some X /\ snd (doMVARICA s) = after_mvarica r s.
Proof.
  rewrite doMVARICA_run. destruct (data_ s) as [X|]; [|now left].
  destruct (mvarica _ _ _ _ _ _) as [r|e]; [|now left].
  right. eauto.
Qed.

Lemma fitVAR_state s :
  snd (fitVAR s) = s \/
  (exists bc, cl_ s = None /\ activations_ s <> None /\
              snd (fitVAR s) = after_fit_single bc s) \/
  (exists cl bcs, cl_ s = Some cl /\ activations_ s <> None /\
                  length bcs = length (unique cl) /\
                  snd (fitVAR s) = after_fit_class cl bcs s).
Proof.
  destruct (activations_ s) as [a|] eqn:Ha.
  2:{ left. now rewrite fitVAR_none. }
  destruct (cl_ s) as [cl|] eqn:Hcl.
  - rewrite (fitVAR_class _ _ _ Ha Hcl).
    destruct (res_map _ _) as [bcs|e] eqn:Hm; [|now left].
    right; right. exists cl, bcs. apply res_map_length in Hm.
    repeat split; auto; congruence.
  - rewrite (fitVAR_single _ _ Ha Hcl).
    destruct (var_fit _ _ _) as [bc|e]; [|now left].
    right; left. exists bc. repeat split; auto; congruence.
Qed.

Ltac plots_fields H :=
  unfold plots_only in H; rewrite H; reflexivity.

Lemma plots_only_activations s s' :
  plots_only s s' -> activations_ s' = activations_ s.
Proof. intros H. plots_fields H. Qed.
Lemma plots_only_unmixing s s' :
  plots_only s s' -> unmixing_ s' = unmixing_ s.
Proof. intros H. plots_fields H. Qed.
Lemma plots_only_mixing s s' :
  plots_only s s' -> mixing_ s' = mixing_ s.
Proof. intros H. plots_fields H. Qed.
Lemma plots_only_data s s' : plots_only s s' -> data_ s' = data_ s.
Proof. intros H. plots_fields H. Qed.
Lemma plots_only_cl s s' : plots_only s s' -> cl_ s' = cl_ s.
Proof. intros H. plots_fields H. Qed.
Lemma plots_only_connectivity s s' :
  plots_only s s' -> connectivity_ s' = connectivity_ s.
Proof. intros H. plots_fields H. Qed.
Lemma plots_only_var_model s s' :
  plots_only s s' -> var_model_ s' = var_model_ s.
Proof. intros H. plots_fields H. Qed.
Lemma plots_only_var_cov s s' :
  plots_only s s' -> var_cov_ s' = var_cov_ s.
Proof. intros H. plots_fields H. Qed.

(** Case analysis on the state an operation leaves behind. *)
Ltac exec_cases o s :=
  destruct o as [data cl| | |m|m wl ws|mx ux]; cbn [exec];
  [ destruct (setData_state data cl s) as [->|(?a & ?w & ?Hw & ?Hd & ->)]
  | destruct (doMVARICA_state s) as [->|(?X & ?r & ?HX & ->)]
  | destruct (fitVAR_state s)
      as [->|[(?bc & ?Hcl & ?Ha & ->)|(?cl & ?bcs & ?Hcl & ?Ha & ?Hlen & ->)]]
  | rewrite getConnectivity_state
  | rewrite getTFConnectivity_state
  | pose proof (preparePlots_only mx ux s) as (?Hp & ?Hmm & ?Hum) ].

Lemma exec_activations o s :
  is_setData o = false -> activations_ (exec o s) = activations_ s.
Proof.
  exec_cases o s; try discriminate; intros _; try reflexivity.
  now apply plots_only_activations.
Qed.

Lemma exec_data o s :
  is_setData o = false -> data_ (exec o s) = data_ s.
Proof.
  exec_cases o s; try discriminate; intros _; try reflexivity.
  now apply plots_only_data.
Qed.

Lemma exec_unmixing o s :
  is_decomposition o = false -> unmixing_ (exec o s) = unmixing_ s.
Proof.
  exec_cases o s; try discriminate; intros _; try reflexivity.
  now apply plots_only_unmixing.
Qed.

Lemma exec_connectivity_none o s :
  is_fit o = false -> connectivity_ s = None ->
  connectivity_ (exec o s) = None.
Proof.
  exec_cases o s; try discriminate; intros _ Hc; try reflexivity;
    try assumption.
  now rewrite (plots_only_connectivity _ _ Hp).
Qed.

(** Only [preparePlots] writes the caches, and only when they are empty. *)
Lemma exec_mixmaps o s :
  mixmaps_ s <> [] -> mixmaps_ (exec o s) = mixmaps_ s.
Proof. exec_cases o s; intros Hne; try reflexivity. auto. Qed.

Lemma exec_unmixmaps o s :
  unmixmaps_ s <> [] -> unmixmaps_ (exec o s) = unmixmaps_ s.
Proof. exec_cases o s; intros Hne; try reflexivity. auto. Qed.

Lemma exec_maps_other o s :
  match o with OpPreparePlots _ _ => False | _ => True end ->
  mixmaps_ (exec o s) = mixmaps_ s /\ unmixmaps_ (exec o s) = unmixmaps_ s.
Proof. exec_cases o s; intros H; try (split; reflexivity). destruct H. Qed.

(** *** Every reachable state is consistent *)

Lemma init_consistent vo vd lo rd nf be : consistent (init vo vd lo rd nf be).
Proof. split; simpl; [congruence|discriminate]. Qed.

Lemma exec_consistent o s : consistent s -> consistent (exec o s).
Proof.
  intros [Hact Hconn].
  exec_cases o s; try (split; assumption).
  - split; simpl; [|discriminate]. intros H. destruct (Hact H). split; congruence.
  - split; simpl; [|discriminate]. intros _. split; congruence.
  - split; simpl; [|discriminate]. intros H. destruct (Hact H). split; congruence.
  - split; simpl; [assumption|discriminate].
  - split; simpl; [assumption|]. intros d [= <-]. exists cl. split; [assumption|].
    apply dict_keys_combine. now rewrite length_map.
  - split.
    + rewrite (plots_only_activations _ _ Hp), (plots_only_unmixing _ _ Hp),
        (plots_only_data _ _ Hp). assumption.
    + rewrite (plots_only_connectivity _ _ Hp), (plots_only_cl _ _ Hp).
      assumption.
Qed.

Lemma reachable_consistent s : reachable s -> consistent s.
Proof.
  induction 1; [apply init_consistent|now apply exec_consistent].
Qed.

Lemma run_app ops1 ops2 s : run (ops1 ++ ops2) s = run ops2 (run ops1 s).
Proof. unfold run. apply fold_left_app. Qed.

Lemma run_reachable ops s : reachable s -> reachable (run ops s).
Proof.
  revert s; induction ops as [|o ops IH]; intros s Hs; [exact Hs|].
  simpl. apply IH. now constructor.
Qed.

(** *** The projection *)

Lemma dot_special_shape x w N Mc T C :
  shape3 x = (N, Mc, T) -> shape2 w = (Mc, C) ->
  exists a, dot_special x w = Ok a /\
            shape3 a = (N, C, T) /\
            wf3 a = true /\
            forall n c t, (n < N)%nat -> (c < C)%nat -> (t < T)%nat ->
                          get3 szero a n c t = proj_entry x w n c t.
Proof.
  intros Hx Hw. unfold dot_special. rewrite Hx, Hw, Nat.eqb_refl.
  eexists. split; [reflexivity|]. split; [reflexivity|]. split.
  - unfold wf3. cbn [shape3 elems3].
    rewrite length_map, length_seq, Nat.eqb_refl. cbn [andb].
    apply forallb_forall. intros row Hrow.
    apply in_map_iff in Hrow as (n & <- & _).
    rewrite length_map, length_seq, Nat.eqb_refl. cbn [andb].
    apply forallb_forall. intros cell Hcell.
    apply in_map_iff in Hcell as (c & <- & _).
    rewrite length_map, length_seq. apply Nat.eqb_refl.
  - intros n c t Hn Hc Ht. unfold get3. cbn [elems3].
    rewrite (nth_indep _ [] (map (fun c => map (fun t => proj_entry x w 0 c t)
                                               (seq 0 T)) (seq 0 C)))
      by (now rewrite length_map, length_seq).
    rewrite (map_nth (fun n => map (fun c => map (fun t => proj_entry x w n c t)
                                                 (seq 0 T)) (seq 0 C))).
    rewrite seq_nth by assumption. cbn [Nat.add].
    rewrite (nth_indep _ [] (map (fun t => proj_entry x w n 0 t) (seq 0 T)))
      by (now rewrite length_map, length_seq).
    rewrite (map_nth (fun c => map (fun t => proj_entry x w n c t) (seq 0 T))).
    rewrite seq_nth by assumption. cbn [Nat.add].
    rewrite (nth_indep _ szero (proj_entry x w n c 0))
      by (now rewrite length_map, length_seq).
    rewrite (map_nth (fun t => proj_entry x w n c t)).
    now rewrite seq_nth by assumption.
Qed.

Lemma run_no_setData ops s :
  no_setData ops = true ->
  data_ (run ops s) = data_ s /\ activations_ (run ops s) = activations_ s.
Proof.
  revert s; induction ops as [|o ops IH]; intros s; simpl; [auto|].
  rewrite andb_true_iff, negb_true_iff. intros [Ho Hops].
  destruct (IH (exec o s) Hops) as [-> ->].
  split; [now apply exec_data|now apply exec_activations].
Qed.

Lemma exec_no_unmixing o s :
  is_decomposition o = false ->
  unmixing_ s = None -> activations_ s = None ->
  unmixing_ (exec o s) = None /\ activations_ (exec o s) = None.
Proof.
  intros Ho Hu Ha. split; [now rewrite exec_unmixing|].
  destruct o as [data cl| | | | |]; try (now rewrite exec_activations).
  cbn [exec]. rewrite setData_run, Hu. exact Ha.
Qed.

Lemma run_no_decomposition ops s :
  no_decomposition ops = true ->
  unmixing_ s = None -> activations_ s = None ->
  unmixing_ (run ops s) = None /\ activations_ (run ops s) = None.
Proof.
  revert s; induction ops as [|o ops IH]; intros s; simpl; [auto|].
  rewrite andb_true_iff, negb_true_iff. intros [Ho Hops] Hu Ha.
  destruct (exec_no_unmixing o s Ho Hu Ha). now apply IH.
Qed.

Lemma run_no_fit ops s :
  no_fit ops = true -> connectivity_ s = None ->
  connectivity_ (run ops s) = None.
Proof.
  revert s; induction ops as [|o ops IH]; intros s; simpl; [auto|].
  rewrite andb_true_iff, negb_true_iff. intros [Ho Hops] Hc.
  apply IH; [assumption|]. now apply exec_connectivity_none.
Qed.

End Facts.

(** * The lifecycle claims *)

Section Lifecycle.
Context {E : Collaborators}.

(** C3. Whatever the object went through before, [setData] leaves the AR
    model, the noise covariance and the connectivity model unset, whether
    they held one instance or a label-keyed mapping, and whether or not the
    call itself ends in an exception of the projection. *)
Theorem setData_invalidates_models (s : SCoT) (data : ndarray scalar)
    (cl : option (list Z)) :
  var_model_ (snd (setData data cl s)) = None /\
  var_cov_ (snd (setData data cl s)) = None /\
  connectivity_ (snd (setData data cl s)) = None.
Proof.
  destruct (setData_state data cl s) as [->|(a & w & _ & _ & ->)];
    repeat split.
Qed.

(** C4. On a state the methods can reach, [setData] with data of shape
    (N', M, T') and a stored unmixing transform of shape (M, C) succeeds and
    sets the activations to the projection of the 3-D data through that
    transform: an array that fills the shape (N', C, T') and whose entries
    are the channel sums of data times transform.  Without an unmixing
    transform the activations are unset after the call. *)
Theorem setData_reprojects (s : SCoT) (data : ndarray scalar)
    (cl : option (list Z)) (Hreach : reachable s) :
  (forall w N' Mc T' C,
      unmixing_ s = Some w ->
      shape3 (atleast_3d data) = (N', Mc, T') ->
      shape2 w = (Mc, C) ->
      exists a,
        fst (setData data cl s) = Ok tt /\
        activations_ (snd (setData data cl s)) = Some a /\
        dot_special (atleast_3d data) w = Ok a /\
        shape3 a = (N', C, T') /\
        wf3 a = true /\
        forall n c t, (n < N')%nat -> (c < C)%nat -> (t < T')%nat ->
          get3 szero a n c t = proj_entry (atleast_3d data) w n c t) /\
  (unmixing_ s = None ->
   fst (setData data cl s) = Ok tt /\
   activations_ (snd (setData data cl s)) = None).
Proof.
  split.
  - intros w N' Mc T' C Hw Hx Hsh.
    destruct (dot_special_shape _ _ _ _ _ _ Hx Hsh) as (a & Hd & Ha & Hwf & Hent).
    exists a. rewrite setData_run, Hw, Hd. cbn [fst snd].
    split; [reflexivity|]. split; [reflexivity|]. auto.
  - intros Hu. rewrite setData_run, Hu. cbn [fst snd]. split; [reflexivity|].
    simpl. apply reachable_consistent in Hreach as [Hact _].
    destruct (activations_ s) eqn:Ha; [|reflexivity].
    destruct Hact as [Hne _]; congruence.
Qed.

(** C5. After a successful fit the AR model, the noise covariance and the
    connectivity model are all single or all mappings keyed by the distinct
    labels: [doMVARICA] always gives the single form, [fitVAR] gives the
    single form without labels and the class-mapped form with labels. *)
Theorem fit_mode_consistency (s s' : SCoT)
    (Hfit : doMVARICA s = (Ok tt, s') \/ fitVAR s = (Ok tt, s')) :
  (all_single s' \/ all_class_mapped s') /\
  (doMVARICA s = (Ok tt, s') -> all_single s') /\
  (fitVAR s = (Ok tt, s') ->
   (cl_ s = None -> all_single s') /\
   (cl_ s <> None -> all_class_mapped s') /\
   cl_ s' = cl_ s).
Proof.
  assert (Hdec : doMVARICA s = (Ok tt, s') -> all_single s').
  { rewrite doMVARICA_run. destruct (data_ s); [|discriminate].
    destruct (mvarica _ _ _ _ _ _) as [r|]; [|discriminate].
    intros [= <-]. unfold all_single, after_mvarica. simpl.
    do 3 eexists. repeat split. }
  assert (Hvar : fitVAR s = (Ok tt, s') ->
                 (cl_ s = None -> all_single s') /\
                 (cl_ s <> None -> all_class_mapped s') /\
                 cl_ s' = cl_ s).
  { destruct (activations_ s) as [a|] eqn:Ha;
      [|rewrite fitVAR_none by assumption; discriminate].
    destruct (cl_ s) as [cl|] eqn:Hcl.
    - rewrite (fitVAR_class _ _ _ Ha Hcl).
      destruct (res_map _ _) as [bcs|] eqn:Hm; [|discriminate].
      intros [= <-]. apply res_map_length in Hm.
      split; [discriminate|]. split; [|assumption]. intros _.
      unfold all_class_mapped, after_fit_class. simpl.
      exists cl. do 3 eexists. rewrite Hcl.
      repeat split; apply dict_keys_combine; now rewrite length_map.
    - rewrite (fitVAR_single _ _ Ha Hcl).
      destruct (var_fit _ _ _) as [bc|]; [|discriminate].
      intros [= <-]. split; [|split; [congruence|assumption]]. intros _.
      unfold all_single, after_fit_single. simpl.
      do 3 eexists. repeat split. }
  split; [|split; assumption].
  destruct Hfit as [H|H]; [left; auto|].
  destruct (Hvar H) as (Hn & Hs & _).
  destruct (cl_ s); [right; apply Hs; discriminate|left; auto].
Qed.

(** C6. On an object that went through any calls of which none set data,
    or none was a decomposition, [fitVAR] raises its precondition error;
    after any calls of which none was a fit, [getConnectivity] raises its
    precondition error.  Each error is raised before anything is computed
    and leaves every attribute as it was. *)
Theorem precondition_errors vo vd lo rd nf be (ops : list op) (m : string) :
  let s := run ops (init vo vd lo rd nf be) in
  (no_setData ops = true \/ no_decomposition ops = true ->
   fitVAR s = (Raise fitVAR_error, s)) /\
  (no_fit ops = true ->
   getConnectivity m s = (Raise getConnectivity_error, s)).
Proof.
  intros s. split.
  - intros [H|H]; apply fitVAR_none; subst s.
    + now destruct (run_no_setData ops (init vo vd lo rd nf be) H) as [_ ->].
    + now destruct (run_no_decomposition ops (init vo vd lo rd nf be) H
                      eq_refl eq_refl).
  - intros H. apply getConnectivity_none. subst s.
    now apply run_no_fit.
Qed.

(** C7. [doMVARICA] never assigns the activations.  After a first [setData]
    and a successful [doMVARICA] the unmixing transform, the AR model and
    the connectivity model are set while the activations are still unset,
    so [fitVAR] and [getTFConnectivity] raise their precondition errors, and
    they keep doing so whatever is called until the next [setData], which
    projects the new data through the stored unmixing transform. *)
Theorem decomposition_keeps_activations vo vd lo rd nf be
    (data : ndarray scalar) (cl : option (list Z)) (s2 : SCoT)
    (Hdec : doMVARICA (snd (setData data cl (init vo vd lo rd nf be)))
            = (Ok tt, s2)) :
  (forall s, activations_ (snd (doMVARICA s)) = activations_ s) /\
  activations_ s2 = None /\
  (exists w, unmixing_ s2 = Some w) /\
  var_model_ s2 <> None /\
  connectivity_ s2 <> None /\
  (forall ops, no_setData ops = true ->
     let s := run ops s2 in
     fitVAR s = (Raise fitVAR_error, s) /\
     forall m wl ws,
       getTFConnectivity m wl ws s = (Raise getTFConnectivity_error, s)) /\
  (forall data' cl' w a,
     unmixing_ s2 = Some w ->
     dot_special (atleast_3d data') w = Ok a ->
     activations_ (snd (setData data' cl' s2)) = Some a).
Proof.
  assert (Hframe : forall s, activations_ (snd (doMVARICA s)) = activations_ s).
  { intros s. now destruct (doMVARICA_state s) as [->|(X & r & _ & ->)]. }
  split; [exact Hframe|].
  assert (Hact : activations_ s2 = None).
  { change s2 with (snd (Ok tt, s2)). rewrite <- Hdec, Hframe, setData_run.
    reflexivity. }
  revert Hdec. rewrite doMVARICA_run.
  destruct (data_ _); [|discriminate].
  destruct (mvarica _ _ _ _ _ _) as [r|]; [|discriminate].
  intros Hdec. apply (f_equal snd) in Hdec. cbn [snd] in Hdec.
  rename Hdec into Hs2.
  split; [exact Hact|].
  split; [exists (r_unmixing r); now rewrite <- Hs2|].
  split; [now rewrite <- Hs2|].
  split; [now rewrite <- Hs2|].
  split.
  - intros ops Hops s.
    assert (Hs : activations_ s = None).
    { subst s. destruct (run_no_setData ops s2 Hops) as [_ ->]. exact Hact. }
    split; [now apply fitVAR_none|].
    intros m wl ws. now apply getTFConnectivity_none.
  - intros data' cl' w a' Hw Hd. now rewrite setData_run, Hw, Hd.
Qed.

End Lifecycle.

(** * The sliding-window loop *)

(** ** Counting windows *)

Lemma range_len_ge_floor stop step :
  step <> 0 ->
  stop / step <= range_len stop step.
Proof.
  intros Hstep. unfold range_len.
  destruct (Z.ltb_spec 0 step).
  - assert (stop / step <= (stop + step - 1) / step)
      by (apply Z.div_le_mono; lia). lia.
  - rewrite <- (Z.div_opp_opp stop step) by assumption.
    assert (- stop / - step <= (- stop + - step - 1) / - step)
      by (apply Z.div_le_mono; lia). lia.
Qed.
Lemma range_len_divisible stop step :
  0 < step -> 0 <= stop -> stop mod step = 0 ->
  range_len stop step = stop / step.
Proof.
  intros Hs Hst Hm. unfold range_len.
  destruct (Z.ltb_spec 0 step); [|lia].
  pose proof (Z.div_mod stop step ltac:(lia)) as Hdm. rewrite Hm in Hdm.
  assert ((stop + step - 1) / step = stop / step).
  { symmetry. apply (Z.div_unique _ _ _ (step - 1)); [lia|]. lia. }
  assert (0 <= stop / step) by (apply Z.div_pos; lia). lia.
Qed.
Lemma range_len_remainder stop step :
  0 < step -> 0 < stop -> stop mod step <> 0 ->
  range_len stop step = stop / step + 1.
Proof.
  intros Hs Hst Hm. unfold range_len.
  destruct (Z.ltb_spec 0 step); [|lia].
  pose proof (Z.div_mod stop step ltac:(lia)) as Hdm.
  pose proof (Z.mod_pos_bound stop step Hs) as Hb.
  assert ((stop + step - 1) / step = stop / step + 1).
  { symmetry. apply (Z.div_unique _ _ _ (stop mod step - 1)); [lia|]. lia. }
  assert (0 <= stop / step) by (apply Z.div_pos; lia). lia.
Qed.

Lemma py_range_nth stop step offs j :
  py_range stop step = Ok offs ->
  (j < Z.to_nat (range_len stop step))%nat ->
  nth_error offs j = Some (Z.of_nat j * step).
Proof.
  unfold py_range. destruct (step =? 0); [discriminate|].
  intros [= <-] Hj.
  rewrite nth_error_map.
  rewrite (nth_error_nth' _ O) by (now rewrite length_seq).
  now rewrite seq_nth by assumption.
Qed.

Lemma py_range_length stop step offs :
  py_range stop step = Ok offs ->
  length offs = Z.to_nat (range_len stop step).
Proof.
  unfold py_range. destruct (step =? 0); [discriminate|].
  intros [= <-]. now rewrite length_map, length_seq.
Qed.

Section Windows.
Context {E : Collaborators}.

(** ** The loop without class labels *)

Lemma tf_setitem_ok r i v r' :
  tf_setitem r i v = Ok r' ->
  exists b, (i < snd (fst (tf_shape r)))%nat /\
            setitem64 (fst (fst (fst (tf_shape r)))) (snd (tf_shape r)) v = Ok b /\
            r' = mk_tfarray (tf_shape r) (<[i := b]> (tf_slots r)).
Proof.
  unfold tf_setitem. destruct (tf_shape r) as [[[M M2] Nstep] nf]. cbn [fst snd].
  destruct (Nat.ltb_spec i Nstep); [|discriminate].
  destruct (setitem64 M nf v) as [b|]; [|discriminate].
  intros [= <-]. eauto.
Qed.

Lemma tf_single_loop a P dl nfft m winlen offs :
  forall i r st,
    res_fold (tf_step_single a P dl nfft m winlen) offs (i, r) = Ok st ->
    length (tf_slots r) = snd (fst (tf_shape r)) ->
    fst st = (i + length offs)%nat /\
    tf_shape (snd st) = tf_shape r /\
    length (tf_slots (snd st)) = length (tf_slots r) /\
    (offs <> [] -> (i + length offs <= snd (fst (tf_shape r)))%nat) /\
    (forall j, (j < i)%nat -> tf_slots (snd st) !! j = tf_slots r !! j) /\
    (forall j n, nth_error offs j = Some n ->
       exists data bc v b,
         take_rows a (arange_plus winlen n) = Ok data /\
         var_fit data P dl = Ok bc /\
         call_measure (Connectivity (fst bc) (snd bc) nfft) m = Ok v /\
         setitem64 (fst (fst (fst (tf_shape r)))) (snd (tf_shape r)) v = Ok b /\
         tf_slots (snd st) !! (i + j)%nat = Some b).
Proof.
  induction offs as [|n offs IH]; intros i r st Hrun Hlen.
  - injection Hrun as <-. cbn [fst snd length]. rewrite Nat.add_0_r.
    repeat split; try done. intros [|j] n; discriminate.
  - cbn [res_fold] in Hrun. unfold tf_step_single at 1 in Hrun.
    destruct (take_rows a _) as [data|] eqn:Hdata; [|discriminate].
    cbn [res_bind] in Hrun.
    destruct (var_fit data P dl) as [bc|] eqn:Hfit; [|discriminate].
    cbn [res_bind] in Hrun.
    destruct (call_measure _ m) as [v|] eqn:Hv; [|discriminate].
    cbn [res_bind] in Hrun.
    destruct (tf_setitem r i v) as [r'|] eqn:Hset; [|discriminate].
    cbn [res_bind] in Hrun.
    apply tf_setitem_ok in Hset as (b & Hi & Hb & ->).
    destruct (IH (S i) _ st Hrun) as (Hfst & Hsh & Hl & Hbound & Hold & Hnew).
    { cbn [tf_slots tf_shape]. now rewrite length_insert. }
    cbn [tf_slots tf_shape] in *. rewrite length_insert in Hl.
    cbn [length]. repeat split.
    + lia.
    + assumption.
    + assumption.
    + intros _. destruct offs as [|n' offs']; [cbn [length]; lia|].
      specialize (Hbound ltac:(discriminate)). lia.
    + intros j Hj. rewrite Hold by lia.
      apply list_lookup_insert_ne. lia.
    + intros [|j] n0; cbn [nth_error].
      * intros [= <-]. exists data, bc, v, b. repeat split; try assumption.
        rewrite Nat.add_0_r, Hold by lia.
        apply list_lookup_insert_eq. lia.
      * intros Hj. destruct (Hnew j n0 Hj) as (d' & bc' & v' & b' & ? & ? & ? & ? & Hs).
        exists d', bc', v', b'. repeat split; try assumption.
        now replace (i + S j)%nat with (S i + j)%nat by lia.
Qed.

Lemma getTF_single_run s a N M T m wl ws :
  activations_ s = Some a -> shape3 a = (N, M, T) -> cl_ s = None ->
  fst (getTFConnectivity m wl ws s) =
  (let? Nstep := floordiv (Z.of_nat N - wl) ws in
   let? r0 := np_zeros M Nstep (nfft_ s) in
   let? offs := py_range (Z.of_nat N - wl) ws in
   let? st := res_fold (tf_step_single a (var_order_ s) (var_delta_ s)
                          (nfft_ s) m wl) offs (O, r0) in
   Ok (Single (snd st))).
Proof.
  intros Ha Hsh Hcl. unfold getTFConnectivity, bind, get, lift, ret.
  rewrite Ha, Hsh, Hcl.
  destruct (floordiv _ _); cbn [res_bind fst]; [|reflexivity].
  destruct (np_zeros _ _ _); cbn [res_bind fst]; [|reflexivity].
  destruct (py_range _ _); cbn [res_bind fst]; [|reflexivity].
  destruct (res_fold _ _ _); reflexivity.
Qed.

Lemma getTF_class_run s a N M T cl m wl ws :
  activations_ s = Some a -> shape3 a = (N, M, T) -> cl_ s = Some cl ->
  fst (getTFConnectivity m wl ws s) =
  (let? Nstep := floordiv (Z.of_nat N - wl) ws in
   let? r0 := res_fold (fun (result : dict tfarray) c =>
                          let? z := np_zeros M Nstep (nfft_ s) in
                          Ok (dict_set c z result)) (unique cl) [] in
   let? offs := py_range (Z.of_nat N - wl) ws in
   let? st := res_fold (tf_step_class a cl (var_order_ s) (var_delta_ s)
                          (nfft_ s) m wl) offs (O, r0) in
   Ok (PerClass (snd st))).
Proof.
  intros Ha Hsh Hcl. unfold getTFConnectivity, bind, get, lift, ret.
  rewrite Ha, Hsh, Hcl.
  destruct (floordiv _ _); cbn [res_bind fst]; [|reflexivity].
  destruct (res_fold _ (unique cl) _); cbn [res_bind fst]; [|reflexivity].
  destruct (py_range _ _); cbn [res_bind fst]; [|reflexivity].
  destruct (res_fold _ _ _); reflexivity.
Qed.

Lemma floordiv_ok a b q : floordiv a b = Ok q -> b <> 0 /\ q = a / b.
Proof.
  unfold floordiv. destruct (Z.eqb_spec b 0); [discriminate|].
  now intros [= <-].
Qed.

Lemma np_zeros_ok M Nstep nfft r :
  np_zeros M Nstep nfft = Ok r ->
  0 <= Nstep /\
  tf_shape r = (M, M, Z.to_nat Nstep, nfft) /\
  tf_slots r = replicate (Z.to_nat Nstep) (zeros64 M nfft).
Proof.
  unfold np_zeros. destruct (Z.ltb_spec Nstep 0); [discriminate|].
  intros [= <-]. auto.
Qed.

(** A call without class labels that returns: the output has the shape
    (M, M, Nstep, nfft), the loop made exactly Nstep passes, and slot [i]
    holds the complex64 copy of the value of the window at [i * winstep]. *)
Lemma getTF_single_slots s a N M T m wl ws out :
  activations_ s = Some a -> shape3 a = (N, M, T) -> cl_ s = None ->
  fst (getTFConnectivity m wl ws s) = Ok out ->
  exists r,
    out = Single r /\
    ws <> 0 /\
    tf_shape r = (M, M, window_count N wl ws, nfft_ s) /\
    length (tf_slots r) = window_count N wl ws /\
    Z.to_nat (range_len (Z.of_nat N - wl) ws) = window_count N wl ws /\
    forall i, (i < window_count N wl ws)%nat ->
      exists v b,
        window_value s a m wl (Z.of_nat i * ws) = Ok v /\
        setitem64 M (nfft_ s) v = Ok b /\
        tf_slots r !! i = Some b.
Proof.
  intros Ha Hsh Hcl. rewrite (getTF_single_run _ _ _ _ _ _ _ _ Ha Hsh Hcl).
  destruct (floordiv _ _) as [Nstep|] eqn:Hdiv; [|discriminate].
  apply floordiv_ok in Hdiv as [Hws ->]. cbn [res_bind].
  destruct (np_zeros _ _ _) as [r0|] eqn:Hz; [|discriminate].
  apply np_zeros_ok in Hz as (Hpos & Hshape0 & Hslots0). cbn [res_bind].
  destruct (py_range _ _) as [offs|] eqn:Hoffs; [|discriminate].
  cbn [res_bind].
  destruct (res_fold _ _ _) as [st|] eqn:Hrun; [|discriminate].
  cbn [res_bind]. intros [= <-].
  assert (Hlen0 : length (tf_slots r0) = snd (fst (tf_shape r0))).
  { rewrite Hslots0, Hshape0. cbn [fst snd]. apply length_replicate. }
  destruct (tf_single_loop _ _ _ _ _ _ _ _ _ _ Hrun Hlen0)
    as (Hfst & Hsh' & Hl & Hbound & _ & Hnew).
  rewrite Hshape0 in *. cbn [fst snd] in *.
  pose proof (py_range_length _ _ _ Hoffs) as Hlo.
  pose proof (range_len_ge_floor (Z.of_nat N - wl) ws Hws) as Hge.
  assert (Hcount : Z.to_nat (range_len (Z.of_nat N - wl) ws)
                   = window_count N wl ws).
  { unfold window_count.
    destruct offs as [|n offs'].
    - cbn [length] in Hlo. lia.
    - specialize (Hbound ltac:(discriminate)). rewrite Hlo in Hbound. lia. }
  exists (snd st). split; [reflexivity|]. split; [assumption|].
  split; [now rewrite Hsh'|].
  split; [rewrite Hl, Hslots0; apply length_replicate|].
  split; [assumption|].
  intros i Hi.
  destruct (Hnew i (Z.of_nat i * ws)) as (data & bc & v & b & Hd & Hf & Hv & Hb & Hs).
  { apply (py_range_nth _ _ _ _ Hoffs). now rewrite Hcount. }
  exists v, b. split; [|split; assumption].
  unfold window_value. rewrite Hd. cbn [res_bind]. rewrite Hf. exact Hv.
Qed.

(** ** The loop with class labels *)

(** The value written for label [c] in a pass whose fit gave [(B, C)]. *)
Lemma tf_class_write_form B C nfft m i d c :
  tf_class_write B C nfft m i d c =
  (let? v := (let? con := class_model B C nfft c in call_measure con m) in
   let? r := dict_item c d in
   let? r' := tf_setitem r i v in
   Ok (dict_set c r' d)).
Proof.
  unfold tf_class_write, class_model.
  destruct (dict_item c B); cbn [res_bind]; [|reflexivity].
  destruct (dict_item c C); reflexivity.
Qed.

Lemma tf_class_pass B C nfft m i (l : list Z) (rs : list tfarray) :
  List.NoDup l -> length rs = length l ->
  res_fold (tf_class_write B C nfft m i) l (combine l rs) =
  (let? rs' := res_map (fun cr =>
                          let? v := (let? con := class_model B C nfft (fst cr) in
                                     call_measure con m) in
                          tf_setitem (snd cr) i v) (combine l rs) in
   Ok (combine l rs')).
Proof.
  intros Hnd Hlen.
  rewrite (res_fold_ext _ _ _ _ (fun st x _ => tf_class_write_form B C nfft m i st x)).
  apply (res_fold_update
           (fun c => let? con := class_model B C nfft c in call_measure con m)
           (fun v r => tf_setitem r i v) l [] rs Hnd Hlen).
  simpl. tauto.
Qed.

Lemma tf_class_loop a cl P dl nfft m winlen sh offs :
  forall i rs st,
    res_fold (tf_step_class a cl P dl nfft m winlen) offs
             (i, combine (unique cl) rs) = Ok st ->
    length rs = length (unique cl) ->
    slots_fit sh rs ->
    exists rs',
      st = ((i + length offs)%nat, combine (unique cl) rs') /\
      length rs' = length (unique cl) /\
      slots_fit sh rs' /\
      (forall j r r' q, nth_error rs j = Some r -> nth_error rs' j = Some r' ->
                        (q < i)%nat -> tf_slots r' !! q = tf_slots r !! q) /\
      (forall k n, nth_error offs k = Some n ->
         exists data bc,
           take_rows a (arange_plus winlen n) = Ok data /\
           fit_multiclass data cl P dl = Ok bc /\
           forall j c r', nth_error (unique cl) j = Some c ->
                          nth_error rs' j = Some r' ->
             exists v b,
               (let? con := class_model (fst bc) (snd bc) nfft c in
                call_measure con m) = Ok v /\
               setitem64 (fst (fst (fst sh))) (snd sh) v = Ok b /\
               tf_slots r' !! (i + k)%nat = Some b).
Proof.
  induction offs as [|n offs IH]; intros i rs st Hrun Hlen Hfit.
  - injection Hrun as <-. exists rs. cbn [length]. rewrite Nat.add_0_r.
    split; [reflexivity|]. split; [assumption|]. split; [assumption|]. split.
    + intros j r r' q Hr Hr' _. congruence.
    + intros [|k] n; discriminate.
  - cbn [res_fold] in Hrun. unfold tf_step_class at 1 in Hrun.
    destruct (take_rows a _) as [data|] eqn:Hdata; [|discriminate].
    cbn [res_bind] in Hrun.
    destruct (fit_multiclass data cl P dl) as [bc|] eqn:Hmc; [|discriminate].
    cbn [res_bind] in Hrun.
    rewrite tf_class_pass in Hrun by (auto using unique_NoDup).
    destruct (res_map _ (combine (unique cl) rs)) as [rs1|] eqn:Hpass;
      [|discriminate].
    cbn [res_bind] in Hrun.
    assert (Hlen1 : length rs1 = length (unique cl)).
    { apply res_map_length in Hpass. rewrite Hpass, length_combine. lia. }
    assert (Hstep : forall j c r r1,
               nth_error (unique cl) j = Some c -> nth_error rs j = Some r ->
               nth_error rs1 j = Some r1 ->
               exists v b,
                 (let? con := class_model (fst bc) (snd bc) nfft c in
                  call_measure con m) = Ok v /\
                 (i < snd (fst sh))%nat /\
                 setitem64 (fst (fst (fst sh))) (snd sh) v = Ok b /\
                 r1 = mk_tfarray sh (<[i := b]> (tf_slots r))).
    { intros j c r r1 Hc Hr Hr1.
      destruct (res_map_nth _ _ _ j (c, r) Hpass (nth_error_combine _ _ _ _ _ Hc Hr))
        as (r1' & Hr1' & Hw).
      rewrite Hr1 in Hr1'. injection Hr1' as <-. cbn [fst snd] in Hw.
      destruct (let? con := class_model _ _ _ c in call_measure con m) as [v|];
        [|discriminate].
      cbn [res_bind] in Hw. apply tf_setitem_ok in Hw as (b & Hi & Hb & ->).
      destruct (Hfit j r Hr) as [Hsh _]. rewrite Hsh in *.
      exists v, b. auto. }
    assert (Hfit1 : slots_fit sh rs1).
    { intros j r1 Hr1.
      assert (Hj : (j < length rs)%nat).
      { rewrite Hlen, <- Hlen1. apply nth_error_Some. congruence. }
      destruct (nth_error rs j) as [r|] eqn:Hr;
        [|apply nth_error_None in Hr; lia].
      destruct (nth_error (unique cl) j) as [c|] eqn:Hc;
        [|apply nth_error_None in Hc; lia].
      destruct (Hstep j c r r1 Hc Hr Hr1) as (v & b & _ & _ & _ & ->).
      cbn [tf_shape tf_slots]. split; [reflexivity|].
      rewrite length_insert. now destruct (Hfit j r Hr). }
    destruct (IH (S i) rs1 st Hrun Hlen1 Hfit1)
      as (rs' & -> & Hlen' & Hfit' & Hold & Hnew).
    exists rs'. cbn [length]. split; [f_equal; lia|].
    split; [assumption|]. split; [assumption|]. split.
    + intros j r r' q Hr Hr' Hq.
      assert (Hj : (j < length rs1)%nat).
      { rewrite Hlen1, <- Hlen. apply nth_error_Some. congruence. }
      destruct (nth_error rs1 j) as [r1|] eqn:Hr1;
        [|apply nth_error_None in Hr1; lia].
      destruct (nth_error (unique cl) j) as [c|] eqn:Hc;
        [|apply nth_error_None in Hc; lia].
      rewrite (Hold j r1 r' q Hr1 Hr') by lia.
      destruct (Hstep j c r r1 Hc Hr Hr1) as (v & b & _ & _ & _ & ->).
      cbn [tf_slots]. apply list_lookup_insert_ne. lia.
    + intros [|k] n0; cbn [nth_error].
      * intros [= <-]. exists data, bc. split; [assumption|].
        split; [assumption|].
        intros j c r' Hc Hr'.
        assert (Hj : (j < length rs)%nat).
        { rewrite Hlen. apply nth_error_Some. congruence. }
        destruct (nth_error rs j) as [r|] eqn:Hr;
          [|apply nth_error_None in Hr; lia].
        destruct (nth_error rs1 j) as [r1|] eqn:Hr1;
          [|apply nth_error_None in Hr1; lia].
        destruct (Hstep j c r r1 Hc Hr Hr1) as (v & b & Hv & Hi & Hb & ->).
        exists v, b. split; [assumption|]. split; [assumption|].
        rewrite Nat.add_0_r, (Hold j _ r' i Hr1 Hr') by lia.
        cbn [tf_slots]. apply list_lookup_insert_eq.
        destruct (Hfit j r Hr) as [_ ->]. exact Hi.
      * intros Hk. destruct (Hnew k n0 Hk) as (d' & bc' & ? & ? & Hall).
        exists d', bc'. split; [assumption|]. split; [assumption|].
        intros j c r' Hc Hr'.
        destruct (Hall j c r' Hc Hr') as (v & b & ? & ? & Hs).
        exists v, b. split; [assumption|]. split; [assumption|].
        now replace (i + S k)%nat with (S i + k)%nat by lia.
Qed.

(** A call with class labels that returns: one array per distinct label,
    in the order of [np.unique], each of the shape (M, M, Nstep, nfft), and
    slot [i] of the array of label [c] holds the complex64 copy of the value
    for [c] of the window at [i * winstep]. *)
Lemma getTF_class_slots s a N M T cl m wl ws out :
  activations_ s = Some a -> shape3 a = (N, M, T) -> cl_ s = Some cl ->
  fst (getTFConnectivity m wl ws s) = Ok out ->
  exists rs,
    out = PerClass (combine (unique cl) rs) /\
    length rs = length (unique cl) /\
    ws <> 0 /\
    slots_fit (M, M, window_count N wl ws, nfft_ s) rs /\
    forall i, (i < window_count N wl ws)%nat ->
      exists data bc,
        take_rows a (arange_plus wl (Z.of_nat i * ws)) = Ok data /\
        fit_multiclass data cl (var_order_ s) (var_delta_ s) = Ok bc /\
        forall j c r, nth_error (unique cl) j = Some c ->
                      nth_error rs j = Some r ->
          exists v b,
            (let? con := class_model (fst bc) (snd bc) (nfft_ s) c in
             call_measure con m) = Ok v /\
            setitem64 M (nfft_ s) v = Ok b /\
            tf_slots r !! i = Some b.
Proof.
  intros Ha Hsh Hcl. rewrite (getTF_class_run _ _ _ _ _ _ _ _ _ Ha Hsh Hcl).
  destruct (floordiv _ _) as [Nstep|] eqn:Hdiv; [|discriminate].
  apply floordiv_ok in Hdiv as [Hws ->]. cbn [res_bind].
  unfold dict.
  rewrite (res_fold_build
             (fun _ => np_zeros M ((Z.of_nat N - wl) / ws) (nfft_ s)))
    by (auto using unique_NoDup).
  destruct (res_map _ (unique cl)) as [zs|] eqn:Hzs; [|discriminate].
  cbn [res_bind app].
  destruct (py_range _ _) as [offs|] eqn:Hoffs; [|discriminate].
  cbn [res_bind].
  destruct (res_fold _ _ _) as [st|] eqn:Hrun; [|discriminate].
  cbn [res_bind]. intros [= <-].
  assert (Hlenz : length zs = length (unique cl))
    by (now apply res_map_length in Hzs).
  assert (Hfit0 : slots_fit (M, M, window_count N wl ws, nfft_ s) zs).
  { intros j z Hz.
    assert (Hj : (j < length (unique cl))%nat).
    { rewrite <- Hlenz. apply nth_error_Some. congruence. }
    destruct (nth_error (unique cl) j) as [c|] eqn:Hc;
      [|apply nth_error_None in Hc; lia].
    destruct (res_map_nth _ _ _ j c Hzs Hc) as (z' & Hz' & Hnz).
    rewrite Hz in Hz'. injection Hz' as <-.
    apply np_zeros_ok in Hnz as (_ & Hshz & Hslz).
    rewrite Hshz, Hslz. cbn [fst snd]. split; [reflexivity|].
    apply length_replicate. }
  destruct (tf_class_loop _ _ _ _ _ _ _ _ _ _ _ _ Hrun Hlenz Hfit0)
    as (rs & -> & Hlen & Hfit & _ & Hnew).
  exists rs. cbn [snd fst] in *.
  split; [reflexivity|]. split; [assumption|]. split; [assumption|].
  split; [assumption|].
  intros i Hi.
  apply (Hnew i (Z.of_nat i * ws)).
  apply (py_range_nth _ _ _ _ Hoffs).
  pose proof (range_len_ge_floor (Z.of_nat N - wl) ws Hws).
  unfold window_count in Hi. lia.
Qed.

(** ** The single-shot path, computed *)

Lemma single_shot_single s w m :
  cl_ s = None ->
  single_shot s w m =
  (let? bc := var_fit w (var_order_ s) (var_delta_ s) in
   let? v := call_measure (Connectivity (fst bc) (snd bc) (nfft_ s)) m in
   Ok (Single v)).
Proof.
  intros Hcl. unfold single_shot.
  rewrite (fitVAR_single (set_activations_ (Some w) s) w eq_refl Hcl).
  cbn [var_order_ var_delta_ set_activations_].
  destruct (var_fit _ _ _) as [bc|]; [|reflexivity].
  rewrite (getConnectivity_single m
             (after_fit_single bc (set_activations_ (Some w) s))
             (Connectivity (fst bc) (snd bc) (nfft_ s)) eq_refl).
  cbn [fst res_bind].
  unfold call_measure. cbn [nfft_ set_activations_].
  destruct (py_getattr _ m) as [[v|e]|]; reflexivity.
Qed.

Lemma In_nth_error_Z (l : list Z) c :
  In c l -> exists j, nth_error l j = Some c.
Proof. apply In_nth_error. Qed.

Lemma single_shot_class s w cl m :
  cl_ s = Some cl ->
  single_shot s w m =
  (let? bc := fit_multiclass w cl (var_order_ s) (var_delta_ s) in
   let? vs := res_map (fun c =>
                         let? con := class_model (fst bc) (snd bc) (nfft_ s) c in
                         call_measure con m) (unique cl) in
   Ok (PerClass (combine (unique cl) vs))).
Proof.
  intros Hcl. unfold single_shot.
  rewrite (fitVAR_class (set_activations_ (Some w) s) w cl eq_refl Hcl).
  cbn [var_order_ var_delta_ set_activations_].
  rewrite fit_multiclass_run.
  destruct (res_map _ (unique cl)) as [bcs|] eqn:Hm; [|reflexivity].
  cbn [res_bind fst snd].
  rewrite (getConnectivity_class m
             (after_fit_class cl bcs (set_activations_ (Some w) s))
             _ cl eq_refl Hcl). cbn [fst].
  cbn [nfft_ set_activations_].
  pose proof (res_map_length _ _ _ Hm) as Hlen.
  pose proof (class_model_combine (unique cl) bcs (nfft_ s)
                (unique_NoDup cl) Hlen) as Hmodels.
  erewrite (res_map_ext _ (fun c =>
              let? con := class_model (combine (unique cl) (map fst bcs))
                            (combine (unique cl) (map snd bcs)) (nfft_ s) c in
              call_measure con m)); [reflexivity|].
  intros c Hc. apply In_nth_error in Hc as [j Hj].
  destruct (res_map_nth _ _ _ j c Hmodels Hj) as (con & Hcon & ->).
  unfold dict_item.
  now rewrite (dict_get_combine (unique cl) _ j c con (unique_NoDup cl) Hj Hcon).
Qed.

Lemma res_map_total {X Y} (f : X -> res Y) l :
  (forall x, In x l -> exists y, f x = Ok y) ->
  exists ys, res_map f l = Ok ys.
Proof.
  induction l as [|x l IH]; intros H; simpl; [eauto|].
  destruct (H x) as [y ->]; [simpl; auto|].
  destruct IH as [ys ->]; [intros; apply H; simpl; auto|].
  simpl. eauto.
Qed.

(** The window at [n] is the block of samples [n, n + winlen). *)
Lemma take_rows_slice (a : array3 scalar) N M T wl n :
  shape3 a = (N, M, T) -> length (elems3 a) = N ->
  0 <= n -> 0 <= wl -> n + wl <= Z.of_nat N ->
  take_rows a (arange_plus wl n) =
  Ok (mk_array3 (Z.to_nat wl, M, T)
        (firstn (Z.to_nat wl) (skipn (Z.to_nat n) (elems3 a)))).
Proof.
  intros Hsh Hlen Hn Hwl Hfit. unfold take_rows.
  rewrite (res_map_intro (take_row a) (arange_plus wl n)
             (firstn (Z.to_nat wl) (skipn (Z.to_nat n) (elems3 a)))).
  - cbn [res_bind]. rewrite Hsh. unfold arange_plus.
    now rewrite length_map, length_seq.
  - unfold arange_plus. rewrite length_map, length_seq, length_firstn,
      length_skipn. lia.
  - intros i x y Hx Hy. unfold arange_plus in Hx.
    rewrite nth_error_map in Hx.
    destruct (nth_error (seq 0 (Z.to_nat wl)) i) as [k|] eqn:Hk;
      [|discriminate].
    injection Hx as <-.
    assert (Hi : (i < length (seq 0 (Z.to_nat wl)))%nat)
      by (apply nth_error_Some; congruence).
    rewrite length_seq in Hi.
    rewrite (nth_error_nth' _ O) in Hk by (now rewrite length_seq).
    rewrite seq_nth in Hk by assumption. injection Hk as <-. cbn [Nat.add].
    unfold take_row. rewrite Hsh. cbn [fst].
    destruct (Z.ltb_spec (Z.of_nat i + n) 0); [lia|].
    destruct (Z.leb_spec 0 (Z.of_nat i + n)); [|lia].
    destruct (Z.ltb_spec (Z.of_nat i + n) (Z.of_nat N)); [|lia].
    cbn [andb].
    rewrite nth_error_firstn in Hy.
    destruct (Nat.ltb_spec i (Z.to_nat wl)); [|lia].
    rewrite nth_error_skipn in Hy.
    replace (Z.to_nat (Z.of_nat i + n)) with (Z.to_nat n + i)%nat by lia.
    now rewrite Hy.
Qed.

(** ** Running the loop forwards *)

Lemma tf_single_fwd s a m wl ws r0 k :
  (k <= snd (fst (tf_shape r0)))%nat ->
  (forall i, (i < k)%nat ->
     exists v b, window_value s a m wl (Z.of_nat i * ws) = Ok v /\
                 setitem64 (fst (fst (fst (tf_shape r0)))) (snd (tf_shape r0)) v
                 = Ok b) ->
  exists r,
    res_fold (tf_step_single a (var_order_ s) (var_delta_ s) (nfft_ s) m wl)
             (map (fun i => Z.of_nat i * ws) (seq 0 k)) (O, r0) = Ok (k, r) /\
    tf_shape r = tf_shape r0.
Proof.
  induction k as [|k IH]; intros Hk Hwin.
  - exists r0. split; reflexivity.
  - destruct IH as (r & Hrun & Hsh); [lia|intros; apply Hwin; lia|].
    rewrite seq_S, map_app, res_fold_app, Hrun. cbn [res_bind map res_fold Nat.add].
    destruct (Hwin k) as (v & b & Hv & Hb); [lia|].
    unfold window_value in Hv. unfold tf_step_single.
    destruct (take_rows a _) as [data|]; [|discriminate]. cbn [res_bind] in *.
    destruct (var_fit data _ _) as [bc|]; [|discriminate]. cbn [res_bind] in *.
    rewrite Hv. cbn [res_bind]. unfold tf_setitem. rewrite Hsh.
    destruct (tf_shape r0) as [[[M M2] Nstep] nf]. cbn [fst snd] in *.
    destruct (Nat.ltb_spec k Nstep); [|lia].
    rewrite Hb. cbn [res_bind]. eexists. split; reflexivity.
Qed.

Lemma py_range_positive stop step :
  0 < step ->
  py_range stop step =
  Ok (map (fun i => Z.of_nat i * step) (seq 0 (Z.to_nat (range_len stop step)))).
Proof.
  intros H. unfold py_range. destruct (Z.eqb_spec step 0); [lia|reflexivity].
Qed.

End Windows.

(** * The sliding-window claims *)

Section TimeFrequency.
Context {E : Collaborators}.

(** C1. The window count and the loop disagree.  Without class labels,
    with a positive step that does not divide N - winlen > 0, the loop makes
    one pass more than the output has slots: even when every window fits,
    evaluates and converts, the call ends in the [IndexError] of the write
    at index Nstep. *)
Theorem tf_window_count_mismatch (s : SCoT) (a : array3 scalar) (N M T : nat)
    (m : string) (wl ws : Z)
    (Ha : activations_ s = Some a) (Hsh : shape3 a = (N, M, T))
    (Hcl : cl_ s = None)
    (Hws : 0 < ws) (Hwl : wl < Z.of_nat N)
    (Hrem : (Z.of_nat N - wl) mod ws <> 0)
    (Hwin : forall i, (i <= window_count N wl ws)%nat ->
       exists v b, window_value s a m wl (Z.of_nat i * ws) = Ok v /\
                   setitem64 M (nfft_ s) v = Ok b) :
  getTFConnectivity m wl ws s = (Raise IndexError, s).
Proof.
  rewrite (surjective_pairing (getTFConnectivity m wl ws s)),
    getTFConnectivity_state. f_equal.
  rewrite (getTF_single_run _ _ _ _ _ _ _ _ Ha Hsh Hcl).
  unfold floordiv. destruct (Z.eqb_spec ws 0); [lia|]. cbn [res_bind].
  assert (Hpos : 0 <= (Z.of_nat N - wl) / ws) by (apply Z.div_pos; lia).
  unfold np_zeros. destruct (Z.ltb_spec ((Z.of_nat N - wl) / ws) 0); [lia|].
  cbn [res_bind]. rewrite py_range_positive by assumption. cbn [res_bind].
  rewrite range_len_remainder by lia.
  replace (Z.to_nat ((Z.of_nat N - wl) / ws + 1))
    with (S (window_count N wl ws)) by (unfold window_count; lia).
  rewrite seq_S, map_app, res_fold_app.
  fold (window_count N wl ws).
  set (r0 := mk_tfarray _ _).
  destruct (tf_single_fwd s a m wl ws r0 (window_count N wl ws))
    as (r & Hrun & Hshape); [reflexivity|intros; apply Hwin; lia|].
  unfold tfarray in *. rewrite Hrun. cbn [res_bind map res_fold Nat.add].
  destruct (Hwin (window_count N wl ws)) as (v & b & Hv & _); [lia|].
  unfold window_value in Hv. unfold tf_step_single.
  destruct (take_rows a _) as [data|]; [|discriminate]. cbn [res_bind] in *.
  destruct (var_fit data _ _) as [bc|]; [|discriminate]. cbn [res_bind] in *.
  rewrite Hv. cbn [res_bind]. unfold tf_setitem. rewrite Hshape.
  cbn [tf_shape r0]. rewrite Nat.ltb_irrefl. reflexivity.
Qed.

(** C2, as the code has it.  In a call that returns, slot [i] holds the
    result of the single-shot path run in isolation on the window of
    samples [i * winstep, i * winstep + winlen) -- a fresh fit on that
    sub-array with the same labels, a fresh connectivity model, the measure
    evaluated -- after its conversion to the complex64 block of the output
    array.  Nothing but the window and the configuration enters a slot. *)
Theorem window_independence (s : SCoT) (a : array3 scalar) (N M T : nat)
    (m : string) (wl ws : Z) (out : per_class tfarray) (i : nat)
    (Ha : activations_ s = Some a) (Hsh : shape3 a = (N, M, T))
    (Hout : fst (getTFConnectivity m wl ws s) = Ok out)
    (Hi : (i < window_count N wl ws)%nat) :
  exists window,
    take_rows a (arange_plus wl (Z.of_nat i * ws)) = Ok window /\
    (0 < ws -> 0 <= wl -> length (elems3 a) = N ->
     elems3 window =
     firstn (Z.to_nat wl) (skipn (Z.to_nat (Z.of_nat i * ws)) (elems3 a))) /\
    match out with
    | Single r =>
        exists v b,
          single_shot s window m = Ok (Single v) /\
          setitem64 M (nfft_ s) v = Ok b /\
          tf_slots r !! i = Some b
    | PerClass d =>
        exists vs,
          single_shot s window m = Ok (PerClass vs) /\
          dict_keys vs = dict_keys d /\
          forall c r, dict_get c d = Some r ->
            exists v b,
              dict_get c vs = Some v /\
              setitem64 M (nfft_ s) v = Ok b /\
              tf_slots r !! i = Some b
    end.
Proof.
  assert (Hslice : forall window,
    take_rows a (arange_plus wl (Z.of_nat i * ws)) = Ok window ->
    0 < ws -> 0 <= wl -> length (elems3 a) = N ->
    elems3 window =
    firstn (Z.to_nat wl) (skipn (Z.to_nat (Z.of_nat i * ws)) (elems3 a))).
  { intros window Hw Hws Hwl Hlen.
    unfold window_count in Hi.
    pose proof (Z.mul_div_le (Z.of_nat N - wl) ws Hws).
    assert (Z.of_nat i + 1 <= (Z.of_nat N - wl) / ws) by lia.
    rewrite (take_rows_slice a N M T wl (Z.of_nat i * ws)) in Hw;
      [now injection Hw as <-|assumption|assumption|nia|assumption|nia]. }
  destruct (cl_ s) as [cl|] eqn:Hcl.
  - destruct (getTF_class_slots _ _ _ _ _ _ _ _ _ _ Ha Hsh Hcl Hout)
      as (rs & -> & Hlen & Hws & Hfit & Hslots).
    destruct (Hslots i Hi) as (data & bc & Hdata & Hmc & Hall).
    exists data. split; [assumption|]. split; [now apply Hslice|].
    rewrite (single_shot_class _ _ _ _ Hcl), Hmc. cbn [res_bind].
    destruct (res_map_total
                (fun c => let? con := class_model (fst bc) (snd bc) (nfft_ s) c in
                          call_measure con m) (unique cl)) as [vs Hvs].
    { intros c Hc. apply In_nth_error in Hc as [j Hj].
      assert (Hjr : (j < length rs)%nat).
      { rewrite Hlen. apply nth_error_Some. congruence. }
      destruct (nth_error rs j) as [r|] eqn:Hr;
        [|apply nth_error_None in Hr; lia].
      destruct (Hall j c r Hj Hr) as (v & _ & Hv & _). eauto. }
    rewrite Hvs. cbn [res_bind]. exists (combine (unique cl) vs).
    pose proof (res_map_length _ _ _ Hvs) as Hlenv.
    split; [reflexivity|]. split.
    + now rewrite !dict_keys_combine.
    + intros c r Hget.
      apply dict_get_combine_inv in Hget as (j & Hj & Hr).
      destruct (Hall j c r Hj Hr) as (v & b & Hv & Hb & Hs).
      exists v, b. split; [|split; assumption].
      destruct (res_map_nth _ _ _ j c Hvs Hj) as (v' & Hv' & Hcv).
      rewrite Hv in Hcv. injection Hcv as <-.
      apply (dict_get_combine _ _ j); auto using unique_NoDup.
  - destruct (getTF_single_slots _ _ _ _ _ _ _ _ _ Ha Hsh Hcl Hout)
      as (r & -> & Hws & _ & _ & _ & Hslots).
    destruct (Hslots i Hi) as (v & b & Hv & Hb & Hs).
    unfold window_value in Hv.
    destruct (take_rows a _) as [data|] eqn:Hdata; [|discriminate].
    cbn [res_bind] in Hv.
    exists data. split; [reflexivity|]. split; [now apply Hslice|].
    exists v, b. split; [|split; assumption].
    rewrite (single_shot_single _ _ _ Hcl).
    destruct (var_fit data _ _) as [bc|]; [|discriminate].
    cbn [res_bind] in *. now rewrite Hv.
Qed.

(** C9. [getTFConnectivity] assigns no attribute, whether it returns or
    raises.  If the AR fit of any window raises, the call raises and the
    caller gets no array; and when the loop got through every earlier
    window, the error of the call is the very error of that fit. *)
Theorem tf_failure_propagates (s : SCoT) (a : array3 scalar) (N M T : nat)
    (m : string) (wl ws : Z)
    (Ha : activations_ s = Some a) (Hsh : shape3 a = (N, M, T)) :
  snd (getTFConnectivity m wl ws s) = s /\
  (forall offs n data e,
     py_range (Z.of_nat N - wl) ws = Ok offs -> In n offs ->
     take_rows a (arange_plus wl n) = Ok data ->
     window_fit s data = Raise e ->
     is_ok (fst (getTFConnectivity m wl ws s)) = false) /\
  (forall pre n post data e,
     ws <> 0 ->
     py_range (Z.of_nat N - wl) ws = Ok (pre ++ n :: post) ->
     tf_prefix_ok s a m wl ws pre = true ->
     take_rows a (arange_plus wl n) = Ok data ->
     window_fit s data = Raise e ->
     fst (getTFConnectivity m wl ws s) = Raise e).
Proof.
  split; [apply getTFConnectivity_state|]. split.
  - intros offs n data e Hoffs Hin Hdata Hfit.
    unfold window_fit in Hfit.
    destruct (cl_ s) as [cl|] eqn:Hcl.
    + rewrite (getTF_class_run _ _ _ _ _ _ _ _ _ Ha Hsh Hcl).
      destruct (floordiv _ _) as [Nstep|]; [|reflexivity]. cbn [res_bind].
      destruct (res_fold _ (unique cl) _) as [r0|]; [|reflexivity].
      cbn [res_bind]. rewrite Hoffs. cbn [res_bind].
      assert (Hr : is_ok (res_fold (tf_step_class a cl (var_order_ s)
                                      (var_delta_ s) (nfft_ s) m wl)
                                   offs (O, r0)) = false).
      { apply (res_fold_raises _ _ n); [assumption|].
        intros [i result]. unfold tf_step_class. rewrite Hdata. cbn [res_bind].
        destruct (fit_multiclass data cl _ _); [discriminate|reflexivity]. }
      destruct (res_fold _ offs _); [discriminate|reflexivity].
    + rewrite (getTF_single_run _ _ _ _ _ _ _ _ Ha Hsh Hcl).
      destruct (floordiv _ _) as [Nstep|]; [|reflexivity]. cbn [res_bind].
      destruct (np_zeros _ _ _) as [r0|]; [|reflexivity]. cbn [res_bind].
      rewrite Hoffs. cbn [res_bind].
      assert (Hr : is_ok (res_fold (tf_step_single a (var_order_ s)
                                      (var_delta_ s) (nfft_ s) m wl)
                                   offs (O, r0)) = false).
      { apply (res_fold_raises _ _ n); [assumption|].
        intros [i result]. unfold tf_step_single. rewrite Hdata. cbn [res_bind].
        destruct (var_fit data _ _); [discriminate|reflexivity]. }
      destruct (res_fold _ offs _); [discriminate|reflexivity].
  - intros pre n post data e Hws Hoffs Hpre Hdata Hfit.
    unfold window_fit in Hfit. unfold tf_prefix_ok in Hpre. rewrite Hsh in Hpre.
    destruct (cl_ s) as [cl|] eqn:Hcl.
    + rewrite (getTF_class_run _ _ _ _ _ _ _ _ _ Ha Hsh Hcl).
      unfold floordiv. destruct (Z.eqb_spec ws 0); [contradiction|].
      cbn [res_bind].
      destruct (res_fold _ (unique cl) _) as [r0|]; [|discriminate].
      cbn [res_bind] in *. rewrite Hoffs. cbn [res_bind].
      destruct (res_fold _ pre _) as [st|] eqn:Hrun; [|discriminate].
      rewrite (res_fold_first_error _ pre n post _ st e Hrun); [reflexivity|].
      destruct st as [i result]. unfold tf_step_class. rewrite Hdata.
      cbn [res_bind].
      destruct (fit_multiclass data cl _ _); [discriminate|].
      cbn [res_bind] in Hfit. now injection Hfit as ->.
    + rewrite (getTF_single_run _ _ _ _ _ _ _ _ Ha Hsh Hcl).
      unfold floordiv. destruct (Z.eqb_spec ws 0); [contradiction|].
      cbn [res_bind].
      destruct (np_zeros _ _ _) as [r0|]; [|discriminate].
      cbn [res_bind] in *. rewrite Hoffs. cbn [res_bind].
      destruct (res_fold _ pre _) as [st|] eqn:Hrun; [|discriminate].
      rewrite (res_fold_first_error _ pre n post _ st e Hrun); [reflexivity|].
      destruct st as [i result]. unfold tf_step_single. rewrite Hdata.
      cbn [res_bind].
      destruct (var_fit data _ _); [discriminate|].
      cbn [res_bind] in Hfit. now injection Hfit as ->.
Qed.

End TimeFrequency.

(** * Measure dispatch and plot caches *)

Lemma dict_get_NoDup {V} (d : list (Z * V)) k v :
  List.NoDup (dict_keys d) -> In (k, v) d -> dict_get k d = Some v.
Proof.
  unfold dict_keys. induction d as [|[k' v'] d IH]; simpl; [tauto|].
  intros Hnd [[= -> ->]|Hin].
  - now rewrite Z.eqb_refl.
  - inversion Hnd as [|? ? Hk' Hnd']; subst.
    destruct (Z.eqb_spec k k') as [->|_]; [|auto].
    exfalso. apply Hk'. apply in_map_iff. exists (k', v). auto.
Qed.

Lemma res_map_values {V Y} (f : V -> res Y) (d : list (Z * V)) :
  List.NoDup (dict_keys d) ->
  res_map (fun c => let? x := dict_item c d in f x) (dict_keys d) =
  res_map f (map snd d).
Proof.
  intros Hnd. unfold dict_keys. rewrite !res_map_map.
  apply res_map_ext. intros [k v] Hin. cbn [fst snd].
  unfold dict_item. now rewrite (dict_get_NoDup d k v Hnd Hin).
Qed.

Section Dispatch.
Context {E : Collaborators}.

(** C8, as the code has it.  In a reachable state with a connectivity
    model, [getConnectivity] assigns nothing and dispatches by attribute
    lookup: on a single model it raises [AttributeError] exactly when the
    model has no attribute of that name and otherwise gives what calling
    the attribute gives; on a class-mapped model it evaluates the models in
    the order of the distinct labels, which is increasing, and returns the
    mapping from those labels to the values, the first exception ending
    the call. *)
Theorem getConnectivity_dispatch (s : SCoT) (m : string)
    (Hreach : reachable s) (Hconn : connectivity_ s <> None) :
  snd (getConnectivity m s) = s /\
  match connectivity_ s with
  | Some (Single con) =>
      fst (getConnectivity m s) =
      match py_getattr con m with
      | None => Raise (AttributeError m)
      | Some (Ok v) => Ok (Single v)
      | Some (Raise e) => Raise e
      end
  | Some (PerClass d) =>
      exists l,
        cl_ s = Some l /\
        dict_keys d = unique l /\
        StronglySorted Z.lt (unique l) /\
        fst (getConnectivity m s) =
        (let? vs := res_map (fun con => call_measure con m) (map snd d) in
         Ok (PerClass (combine (unique l) vs)))
  | None => False
  end.
Proof.
  split; [apply getConnectivity_state|].
  destruct (connectivity_ s) as [[con|d]|] eqn:Hc; [| |congruence].
  - now rewrite (getConnectivity_single _ _ _ Hc).
  - apply reachable_consistent in Hreach as [_ Hkeys].
    destruct (Hkeys d Hc) as (l & Hl & Hd).
    exists l. split; [assumption|]. split; [assumption|].
    split; [apply unique_sorted|].
    rewrite (getConnectivity_class _ _ _ _ Hc Hl). cbn [fst].
    rewrite <- Hd, res_map_values; [reflexivity|].
    rewrite Hd. apply unique_NoDup.
Qed.

(** C10, as the code has it.  Plot preparation raises when no sensor
    locations are configured and then changes nothing; a first request
    fills an empty cache with the maps of the current transform; a request
    on filled caches changes nothing; and no method, [doMVARICA] included,
    ever empties or rewrites a cache that holds maps.  The invalidation
    the specification describes is missing: once [doMVARICA] has stored new
    transforms, the caches still hold the maps of the old ones and the
    next request does not redraw them. *)
Theorem plot_cache_lifecycle (s : SCoT) (mx ux : bool) :
  (locations_ s = None ->
   preparePlots mx ux s =
   (Raise (RuntimeError "Need sensor locations for plotting"), s)) /\
  (forall l w, locations_ s = Some l -> mixmaps_ s = [] ->
     mixing_ s = Some w ->
     mixmaps_ (snd (preparePlots true ux s)) =
     snd (draw_all (topo_ready l s) (mixing_vectors w))) /\
  (forall l w, locations_ s = Some l -> unmixmaps_ s = [] ->
     unmixing_ s = Some w ->
     unmixmaps_ (snd (preparePlots false true s)) =
     snd (draw_all (topo_ready l s) (unmixing_vectors w))) /\
  (forall l t, locations_ s = Some l -> topo_ s = Some t ->
     mixmaps_ s <> [] -> unmixmaps_ s <> [] ->
     preparePlots mx ux s = (Ok tt, s)) /\
  (forall ops,
     (mixmaps_ s <> [] -> mixmaps_ (run ops s) = mixmaps_ s) /\
     (unmixmaps_ s <> [] -> unmixmaps_ (run ops s) = unmixmaps_ s)) /\
  (mixmaps_ (snd (doMVARICA s)) = mixmaps_ s /\
   unmixmaps_ (snd (doMVARICA s)) = unmixmaps_ s).
Proof.
  split; [apply preparePlots_none|]. split; [|split; [|split; [|split]]].
  - intros l w Hl Hm Hw. rewrite (preparePlots_some _ _ _ _ Hl).
    rewrite (plot_mixing_run true (set_topo_ (Some (topo_ready l s)) s)
               (topo_ready l s) eq_refl).
    cbn [mixmaps_ set_topo_ mixing_]. rewrite Hm, Hw. cbn [andb].
    set (s2 := set_mixmaps_ _ _).
    destruct (plot_unmixing_only ux s2
                (fst (draw_all (topo_ready l s) (mixing_vectors w))) eq_refl)
      as (_ & -> & _).
    reflexivity.
  - intros l w Hl Hm Hw. rewrite (preparePlots_some _ _ _ _ Hl).
    rewrite (plot_mixing_run false (set_topo_ (Some (topo_ready l s)) s)
               (topo_ready l s) eq_refl). cbn [andb].
    rewrite (plot_unmixing_run true (set_topo_ (Some (topo_ready l s)) s)
               (topo_ready l s) eq_refl).
    cbn [unmixmaps_ set_topo_ unmixing_]. rewrite Hm, Hw. reflexivity.
  - intros l t Hl Ht Hm Hu. rewrite (preparePlots_some _ _ _ _ Hl).
    unfold topo_ready. rewrite Ht, (set_topo_id s (Some t) Ht).
    rewrite (plot_mixing_run mx _ t Ht).
    destruct (mixmaps_ s); [congruence|]. rewrite andb_false_r.
    rewrite (plot_unmixing_run ux _ t Ht).
    destruct (unmixmaps_ s); [congruence|]. now rewrite andb_false_r.
  - intros ops. revert s.
    induction ops as [|o ops IH]; intros s; [split; reflexivity|].
    cbn [run fold_left]. destruct (IH (exec o s)) as [IHm IHu]. split.
    + intros Hne. rewrite <- (exec_mixmaps o s Hne) in Hne |- *.
      apply IHm. assumption.
    + intros Hne. rewrite <- (exec_unmixmaps o s Hne) in Hne |- *.
      apply IHu. assumption.
  - apply (exec_maps_other OpDoMVARICA s I).
Qed.

End Dispatch.

(** * Further properties of the methods *)

Section ObjectInvariants.
Context {E : Collaborators}.

(** What [preparePlots] leaves behind: nothing changed without sensor
    locations; otherwise a topology object, and caches that are either as
    they were or were filled from a transform that exists. *)
Lemma preparePlots_cases mx ux s :
  (locations_ s = None /\ snd (preparePlots mx ux s) = s) \/
  (exists t', locations_ s <> None /\
     topo_ (snd (preparePlots mx ux s)) = Some t' /\
     (mixmaps_ (snd (preparePlots mx ux s)) = mixmaps_ s \/
      mixing_ s <> None) /\
     (unmixmaps_ (snd (preparePlots mx ux s)) = unmixmaps_ s \/
      unmixing_ s <> None)).
Proof.
  destruct (locations_ s) as [l|] eqn:Hl.
  2:{ left. split; [reflexivity|]. now rewrite preparePlots_none. }
  right. rewrite (preparePlots_some _ _ _ _ Hl).
  set (s1 := set_topo_ (Some (topo_ready l s)) s).
  rewrite (plot_mixing_run mx s1 (topo_ready l s) eq_refl).
  destruct (mx && _).
  - destruct (mixing_ s1) as [w|] eqn:Hw.
    + match goal with |- context [plot_unmixing ux ?x] =>
        rewrite (plot_unmixing_run ux x _ eq_refl) end.
      destruct (ux && _).
      * match goal with |- context [match unmixing_ ?x with _ => _ end] =>
          destruct (unmixing_ x) as [u|] eqn:Hu end.
        -- eexists. split; [discriminate|]. split; [reflexivity|].
           split; right; subst s1; cbn in *; congruence.
        -- eexists. split; [discriminate|]. split; [reflexivity|].
           split; [right; subst s1; cbn in *; congruence|left; reflexivity].
      * eexists. split; [discriminate|]. split; [reflexivity|].
        split; [right; subst s1; cbn in *; congruence|left; reflexivity].
    + eexists. split; [discriminate|]. split; [reflexivity|].
      split; left; reflexivity.
  - match goal with |- context [plot_unmixing ux ?x] =>
        rewrite (plot_unmixing_run ux x _ eq_refl) end.
    destruct (ux && _).
    + destruct (unmixing_ s1) as [u|] eqn:Hu.
      * eexists. split; [discriminate|]. split; [reflexivity|].
        split; [left; reflexivity|right; subst s1; cbn in *; congruence].
      * eexists. split; [discriminate|]. split; [reflexivity|].
        split; left; reflexivity.
    + eexists. split; [discriminate|]. split; [reflexivity|].
      split; left; reflexivity.
Qed.

Ltac method_cases o s :=
  destruct o as [data cl| | |m|m wl ws|mx ux]; cbn [exec];
  [ destruct (setData_state data cl s) as [->|(?a & ?w & ?Hw & ?Hd & ->)]
  | destruct (doMVARICA_state s) as [->|(?X & ?r & ?HX & ->)]
  | destruct (fitVAR_state s)
      as [->|[(?bc & ?Hcl & ?Ha & ->)|(?cl & ?bcs & ?Hcl & ?Ha & ?Hlen & ->)]]
  | rewrite getConnectivity_state
  | rewrite getTFConnectivity_state
  | idtac ].

Lemma init_in_step vo vd lo rd nf be : in_step (init vo vd lo rd nf be).
Proof.
  unfold in_step, models_unset. simpl.
  repeat split; auto; intros; congruence.
Qed.

Lemma exec_in_step o s : in_step s -> in_step (exec o s).
Proof.
  intros Hs. pose proof Hs as (Hmod & Hpair & Htopo & Hmm & Hum).
  method_cases o s; try assumption.
  - split; [left; repeat split|].
    exact (conj Hpair (conj Htopo (conj Hmm Hum))).
  - split; [left; repeat split|].
    exact (conj Hpair (conj Htopo (conj Hmm Hum))).
  - split; [right; left; unfold all_single; simpl;
             do 3 eexists; split; [reflexivity|split; reflexivity]|]. simpl.
    split; [split; discriminate|]. split; [assumption|].
    split; intros; discriminate.
  - split; [right; left; unfold all_single; simpl;
             do 3 eexists; split; [reflexivity|split; reflexivity]|].
    exact (conj Hpair (conj Htopo (conj Hmm Hum))).
  - split; [|exact (conj Hpair (conj Htopo (conj Hmm Hum)))].
    right; right. unfold all_class_mapped. simpl.
    do 4 eexists. split; [eassumption|].
    do 3 (split; [reflexivity|]).
    repeat split; apply dict_keys_combine; now rewrite length_map.
  - destruct (preparePlots_only mx ux s) as (Hp & Hkm & Hku).
    assert (Hmod' : models_unset (snd (preparePlots mx ux s)) \/
                    all_single (snd (preparePlots mx ux s)) \/
                    all_class_mapped (snd (preparePlots mx ux s))).
    { unfold models_unset, all_single, all_class_mapped.
      rewrite (plots_only_var_model _ _ Hp), (plots_only_var_cov _ _ Hp),
        (plots_only_connectivity _ _ Hp), (plots_only_cl _ _ Hp).
      exact Hmod. }
    split; [exact Hmod'|].
    rewrite (plots_only_mixing _ _ Hp), (plots_only_unmixing _ _ Hp).
    split; [assumption|].
    destruct (preparePlots_cases mx ux s)
      as [[_ ->]|(t' & _ & Ht' & Hm' & Hu')]; [auto|].
    split; [rewrite Ht'; discriminate|].
    split.
    + destruct Hm' as [->|Hm']; auto.
    + destruct Hu' as [->|Hu']; auto.
Qed.

Lemma reachable_in_step s : reachable s -> in_step s.
Proof.
  induction 1; [apply init_in_step|now apply exec_in_step].
Qed.

(** X9.  In every state that method calls can produce, the AR model, the noise
    covariance and the connectivity model are all unset, all single or
    all keyed by the distinct labels of the current data; the mixing and
    the unmixing transform exist together; and a map cache is filled only
    when the topology object and the transform it was drawn from exist. *)
Theorem reachable_attributes_in_step (s : SCoT) (Hreach : reachable s) :
  (models_unset s \/ all_single s \/ all_class_mapped s) /\
  (mixing_ s = None <-> unmixing_ s = None) /\
  (topo_ s = None -> mixmaps_ s = [] /\ unmixmaps_ s = []) /\
  (mixmaps_ s <> [] -> mixing_ s <> None) /\
  (unmixmaps_ s <> [] -> unmixing_ s <> None).
Proof. exact (reachable_in_step s Hreach). Qed.

(** X10.  Once a decomposition has stored its transforms and sensor locations
    are configured, [preparePlots] returns for every choice of its two
    flags, and it leaves a topology object behind. *)
Theorem preparePlots_returns (s : SCoT) (l : locs) (mx ux : bool)
    (Hreach : reachable s) (Hloc : locations_ s = Some l)
    (Hmix : mixing_ s <> None) :
  fst (preparePlots mx ux s) = Ok tt /\
  topo_ (snd (preparePlots mx ux s)) <> None.
Proof.
  destruct (reachable_in_step s Hreach) as (_ & Hpair & _).
  assert (Hun : unmixing_ s <> None) by (intros H; apply Hmix, Hpair, H).
  destruct (mixing_ s) as [w|] eqn:Hw; [|contradiction].
  destruct (unmixing_ s) as [u|] eqn:Hu; [|contradiction].
  rewrite (preparePlots_some _ _ _ _ Hloc).
  set (s1 := set_topo_ (Some (topo_ready l s)) s).
  rewrite (plot_mixing_run mx s1 (topo_ready l s) eq_refl).
  assert (Hw1 : mixing_ s1 = Some w) by exact Hw.
  rewrite Hw1.
  destruct (mx && _);
    match goal with |- context [plot_unmixing ux ?x] =>
      rewrite (plot_unmixing_run ux x _ eq_refl);
      assert (Hu1 : unmixing_ x = Some u) by exact Hu; rewrite Hu1
    end;
    destruct (ux && _); split; (reflexivity || discriminate).
Qed.

(** X11.  Asked for mixing maps before any decomposition, [preparePlots] ends
    in the [AttributeError] of [None.shape], not in a precondition error,
    and the topology object it created on the way stays. *)
Theorem preparePlots_before_decomposition (s : SCoT) (l : locs) (ux : bool)
    (Hloc : locations_ s = Some l) (Hmix : mixing_ s = None)
    (Hmaps : mixmaps_ s = []) :
  preparePlots true ux s =
  (Raise (AttributeError "shape"), set_topo_ (Some (topo_ready l s)) s).
Proof.
  rewrite (preparePlots_some _ _ _ _ Hloc).
  set (s1 := set_topo_ (Some (topo_ready l s)) s).
  rewrite (plot_mixing_run true s1 (topo_ready l s) eq_refl).
  assert (H1 : mixmaps_ s1 = []) by exact Hmaps.
  assert (H2 : mixing_ s1 = None) by exact Hmix.
  rewrite H1, H2. reflexivity.
Qed.

(** X12.  With empty caches, [preparePlots(True, True)] draws one map per row
    of the mixing matrix and one per column of the unmixing matrix, the
    unmixing maps with the topology object as the mixing pass left it. *)
Theorem preparePlots_one_map_per_component (s : SCoT) (l : locs)
    (w u : matrix scalar)
    (Hloc : locations_ s = Some l)
    (Hw : mixing_ s = Some w) (Hu : unmixing_ s = Some u)
    (Hmm : mixmaps_ s = []) (Hum : unmixmaps_ s = []) :
  fst (preparePlots true true s) = Ok tt /\
  mixmaps_ (snd (preparePlots true true s)) =
    snd (draw_all (topo_ready l s) (mixing_vectors w)) /\
  unmixmaps_ (snd (preparePlots true true s)) =
    snd (draw_all (fst (draw_all (topo_ready l s) (mixing_vectors w)))
                  (unmixing_vectors u)) /\
  length (mixmaps_ (snd (preparePlots true true s))) = fst (shape2 w) /\
  length (unmixmaps_ (snd (preparePlots true true s))) = snd (shape2 u).
Proof.
  assert (Hlen : forall t vs, length (snd (draw_all t vs)) = length vs).
  { intros t vs. revert t. induction vs as [|v vs IH]; intros t; simpl;
      [reflexivity|]. now rewrite IH. }
  rewrite (preparePlots_some _ _ _ _ Hloc).
  set (s1 := set_topo_ (Some (topo_ready l s)) s).
  rewrite (plot_mixing_run true s1 (topo_ready l s) eq_refl).
  assert (H1 : mixmaps_ s1 = []) by exact Hmm.
  assert (H2 : mixing_ s1 = Some w) by exact Hw.
  rewrite H1, H2. cbn [andb].
  match goal with |- context [plot_unmixing true ?x] =>
    rewrite (plot_unmixing_run true x _ eq_refl);
    assert (H3 : unmixmaps_ x = []) by exact Hum;
    assert (H4 : unmixing_ x = Some u) by exact Hu;
    rewrite H3, H4
  end.
  cbn [andb fst snd].
  split; [reflexivity|]. split; [reflexivity|]. split; [reflexivity|].
  simpl. rewrite !Hlen. unfold mixing_vectors, unmixing_vectors.
  now rewrite !length_map, !length_seq.
Qed.

End ObjectInvariants.

Section Lifecycle2.
Context {E : Collaborators}.

(** X5.  A decomposition or a fit that raises has assigned nothing: the object
    is as it was before the call. *)
Theorem failed_fit_changes_nothing (s : SCoT) :
  (forall e, fst (doMVARICA s) = Raise e -> snd (doMVARICA s) = s) /\
  (forall e, fst (fitVAR s) = Raise e -> snd (fitVAR s) = s).
Proof.
  split; intros e.
  - rewrite doMVARICA_run.
    destruct (data_ s); [|reflexivity].
    destruct (mvarica _ _ _ _ _ _); [discriminate|reflexivity].
  - destruct (activations_ s) as [a|] eqn:Ha.
    + destruct (cl_ s) as [cl|] eqn:Hcl.
      * rewrite (fitVAR_class s a cl Ha Hcl).
        destruct (res_map _ _); [discriminate|reflexivity].
      * rewrite (fitVAR_single s a Ha Hcl).
        destruct (var_fit _ _ _); [discriminate|reflexivity].
    + now rewrite (fitVAR_none s Ha).
Qed.

(** X6.  When the projection of new data through the stored unmixing transform
    raises, [setData] raises the same error after it has replaced the data
    and the labels: the activations kept are those of the old data. *)
Theorem setData_failed_projection (s : SCoT) (data : ndarray scalar)
    (cl : option (list Z)) (w : matrix scalar) (e : exn)
    (Hw : unmixing_ s = Some w)
    (He : dot_special (atleast_3d data) w = Raise e) :
  fst (setData data cl s) = Raise e /\
  data_ (snd (setData data cl s)) = Some (atleast_3d data) /\
  cl_ (snd (setData data cl s)) = cl /\
  activations_ (snd (setData data cl s)) = activations_ s /\
  unmixing_ (snd (setData data cl s)) = Some w.
Proof.
  rewrite setData_run, Hw, He. simpl. auto.
Qed.

(** X7.  A decomposition that returns was run on the stored data with the
    reduction read as a retained variance when it is below one and as a
    number of components otherwise; it stores both transforms, a single
    model, and the regularisation [mvarica] reports in place of the
    configured one, and leaves data, labels and activations alone. *)
Theorem doMVARICA_stores (s s' : SCoT) (Hdo : doMVARICA s = (Ok tt, s')) :
  exists X rv nc result,
    data_ s = Some X /\
    ((reducedim_ s < 1)%Q -> rv = Some (reducedim_ s) /\ nc = None) /\
    ((1 <= reducedim_ s)%Q -> rv = None /\ nc = Some (reducedim_ s)) /\
    mvarica X (var_order_ s) rv nc (var_delta_ s) (backend_ s) = Ok result /\
    mixing_ s' = Some (r_mixing result) /\
    unmixing_ s' = Some (r_unmixing result) /\
    var_delta_ s' = r_delta result /\
    connectivity_ s' =
      Some (Single (Connectivity (r_B result) (r_C result) (nfft_ s))) /\
    data_ s' = data_ s /\ cl_ s' = cl_ s /\
    activations_ s' = activations_ s.
Proof.
  rewrite doMVARICA_run in Hdo.
  destruct (data_ s) as [X|] eqn:HX; [|discriminate].
  destruct (mvarica _ _ _ _ _ _) as [result|] eqn:Hr; [|discriminate].
  injection Hdo as <-.
  exists X, (fst (reduction_mode s)), (snd (reduction_mode s)), result.
  split; [reflexivity|].
  unfold reduction_mode.
  split; [|split].
  - intros Hlt. destruct (Qle_bool 1 (reducedim_ s)) eqn:Hle; simpl; [|auto].
    apply Qle_bool_iff in Hle. exfalso. exact (Qlt_not_le _ _ Hlt Hle).
  - intros Hle. apply Qle_bool_iff in Hle. rewrite Hle. simpl. auto.
  - split; [exact Hr|]. simpl. rewrite HX. repeat split; reflexivity.
Qed.

(** X4.  [fitVAR] and [getTFConnectivity] read the activations, the labels, the
    model order, the regularisation and the frequency resolution, and
    nothing else: two objects that agree on these get the same outcome and,
    from a fit that returns, the same models. *)
Theorem fit_reads_only_its_inputs (s s' : SCoT) (m : string) (wl ws : Z)
    (Hin : same_fit_inputs s s') :
  fst (fitVAR s') = fst (fitVAR s) /\
  (fst (fitVAR s) = Ok tt ->
   var_model_ (snd (fitVAR s')) = var_model_ (snd (fitVAR s)) /\
   var_cov_ (snd (fitVAR s')) = var_cov_ (snd (fitVAR s)) /\
   connectivity_ (snd (fitVAR s')) = connectivity_ (snd (fitVAR s))) /\
  fst (getTFConnectivity m wl ws s') = fst (getTFConnectivity m wl ws s).
Proof.
  destruct Hin as (Ha & Hcl & Hp & Hd & Hn).
  destruct (activations_ s) as [a|] eqn:Hact.
  - destruct (shape3 a) as [[N Mc] T] eqn:Hsh.
    destruct (cl_ s) as [cl|] eqn:Hcls.
    + rewrite (fitVAR_class s' a cl Ha Hcl), (fitVAR_class s a cl Hact Hcls).
      rewrite (getTF_class_run s' a N Mc T cl m wl ws Ha Hsh Hcl).
      rewrite (getTF_class_run s a N Mc T cl m wl ws Hact Hsh Hcls).
      rewrite Hp, Hd, Hn.
      destruct (res_map _ _) as [bcs|]; cbn [fst snd].
      * unfold after_fit_class. simpl. rewrite Hn. auto.
      * split; [reflexivity|]. split; [discriminate|reflexivity].
    + rewrite (fitVAR_single s' a Ha Hcl), (fitVAR_single s a Hact Hcls).
      rewrite (getTF_single_run s' a N Mc T m wl ws Ha Hsh Hcl).
      rewrite (getTF_single_run s a N Mc T m wl ws Hact Hsh Hcls).
      rewrite Hp, Hd, Hn.
      destruct (var_fit _ _ _) as [bc|]; cbn [fst snd].
      * unfold after_fit_single. simpl. rewrite Hn. auto.
      * split; [reflexivity|]. split; [discriminate|reflexivity].
  - rewrite (fitVAR_none s' Ha), (fitVAR_none s Hact).
    rewrite (getTFConnectivity_none m wl ws s' Ha),
      (getTFConnectivity_none m wl ws s Hact).
    cbn [fst]. split; [reflexivity|]. split; [discriminate|reflexivity].
Qed.

(** X8.  The documented order of calls works: on a fresh object, [setData],
    [doMVARICA], [setData] again, [fitVAR] and [getConnectivity] all return
    when the decomposition, the projection, the fit and the measure do;
    the fit runs on the projected data with the regularisation the
    decomposition reported, and the answer is the measure of that fit. *)
Theorem pipeline_returns vo vd lo rd nf be (data : ndarray scalar)
    (result : mvarica_result scalar ar_model noise_cov delta)
    (a : array3 scalar) (bc : ar_model * noise_cov) (m : string) (v : value)
    (Hica : mvarica (atleast_3d data) vo
              (fst (reduction_mode (init vo vd lo rd nf be)))
              (snd (reduction_mode (init vo vd lo rd nf be))) vd be
            = Ok result)
    (Hproj : dot_special (atleast_3d data) (r_unmixing result) = Ok a)
    (Hfit : var_fit a vo (r_delta result) = Ok bc)
    (Hm : py_getattr (Connectivity (fst bc) (snd bc) nf) m = Some (Ok v)) :
  exists s1 s2 s3 s4,
    setData data None (init vo vd lo rd nf be) = (Ok tt, s1) /\
    doMVARICA s1 = (Ok tt, s2) /\
    setData data None s2 = (Ok tt, s3) /\
    fitVAR s3 = (Ok tt, s4) /\
    getConnectivity m s4 = (Ok (Single v), s4) /\
    activations_ s4 = Some a.
Proof.
  set (s0 := init vo vd lo rd nf be) in *.
  set (s1 := after_clear (atleast_3d data) None s0).
  set (s2 := after_mvarica result s1).
  set (s3 := set_activations_ (Some a) (after_clear (atleast_3d data) None s2)).
  set (s4 := after_fit_single bc s3).
  exists s1, s2, s3, s4.
  split; [reflexivity|]. split.
  { rewrite doMVARICA_run. cbn [data_ s1 after_clear set_connectivity_
      set_var_cov_ set_var_model_ set_cl_ set_data_].
    change (reduction_mode s1) with (reduction_mode s0).
    change (var_order_ s1) with vo. change (var_delta_ s1) with vd.
    change (backend_ s1) with be. now rewrite Hica. }
  split.
  { rewrite setData_run. change (unmixing_ s2) with (Some (r_unmixing result)).
    cbv beta iota. now rewrite Hproj. }
  split.
  { rewrite (fitVAR_single s3 a eq_refl eq_refl).
    change (var_order_ s3) with vo.
    change (var_delta_ s3) with (r_delta result). now rewrite Hfit. }
  split; [|reflexivity].
  rewrite (getConnectivity_single m s4 (Connectivity (fst bc) (snd bc) nf)
             eq_refl).
  now rewrite Hm.
Qed.

End Lifecycle2.

Section Windows2.
Context {E : Collaborators}.

(** X1.  The complement of the window-count defect: without class labels, when
    the step is positive and divides N - winlen >= 0, and every window
    fits, evaluates and converts, the call returns an array of shape
    (M, M, Nstep, nfft) with Nstep = (N - winlen) / winstep slots and the
    object is as before.  The window that ends at the last sample is not
    among them: for N = winlen the array has no slot at all. *)
Theorem getTFConnectivity_returns_when_divisible (s : SCoT)
    (a : array3 scalar) (N M T : nat) (m : string) (wl ws : Z)
    (Ha : activations_ s = Some a) (Hsh : shape3 a = (N, M, T))
    (Hcl : cl_ s = None)
    (Hws : 0 < ws) (Hwl : wl <= Z.of_nat N)
    (Hdiv : (Z.of_nat N - wl) mod ws = 0)
    (Hwin : forall i, (i < window_count N wl ws)%nat ->
       exists v b, window_value s a m wl (Z.of_nat i * ws) = Ok v /\
                   setitem64 M (nfft_ s) v = Ok b) :
  exists r,
    getTFConnectivity m wl ws s = (Ok (Single r), s) /\
    tf_shape r = (M, M, window_count N wl ws, nfft_ s) /\
    length (tf_slots r) = window_count N wl ws.
Proof.
  assert (Hfst : exists r, fst (getTFConnectivity m wl ws s) = Ok (Single r)).
  { rewrite (getTF_single_run _ _ _ _ _ _ _ _ Ha Hsh Hcl).
    unfold floordiv. destruct (Z.eqb_spec ws 0); [lia|]. cbn [res_bind].
    assert (Hpos : 0 <= (Z.of_nat N - wl) / ws) by (apply Z.div_pos; lia).
    unfold np_zeros. destruct (Z.ltb_spec ((Z.of_nat N - wl) / ws) 0); [lia|].
    cbn [res_bind]. rewrite py_range_positive by assumption. cbn [res_bind].
    rewrite range_len_divisible by lia.
    fold (window_count N wl ws).
    set (r0 := mk_tfarray _ _).
    destruct (tf_single_fwd s a m wl ws r0 (window_count N wl ws))
      as (r & Hrun & _); [reflexivity|intros; apply Hwin; lia|].
    unfold tfarray in *. rewrite Hrun. cbn [res_bind snd]. now exists r. }
  destruct Hfst as [r Hr]. exists r.
  destruct (getTF_single_slots _ _ _ _ _ _ _ _ _ Ha Hsh Hcl Hr)
    as (r' & [= <-] & _ & Hshape & Hlen & _).
  split; [|split; assumption].
  rewrite (surjective_pairing (getTFConnectivity m wl ws s)),
    getTFConnectivity_state, Hr. reflexivity.
Qed.

(** X3.  Window arguments the arithmetic of line 97-100 refuses: a zero step is
    the [ZeroDivisionError] of the floor division, and a negative window
    count (a window longer than the signal) is the [ValueError] of
    [np.zeros], with class labels as soon as there is one label.  The
    object is as before. *)
Theorem getTFConnectivity_rejects_bad_windows (s : SCoT) (a : array3 scalar)
    (N M T : nat) (m : string) (wl ws : Z)
    (Ha : activations_ s = Some a) (Hsh : shape3 a = (N, M, T)) :
  (ws = 0 -> getTFConnectivity m wl ws s = (Raise ZeroDivisionError, s)) /\
  (ws <> 0 -> (Z.of_nat N - wl) / ws < 0 -> cl_ s = None ->
   getTFConnectivity m wl ws s = (Raise ValueError, s)) /\
  (forall cl, ws <> 0 -> (Z.of_nat N - wl) / ws < 0 ->
   cl_ s = Some cl -> cl <> [] ->
   getTFConnectivity m wl ws s = (Raise ValueError, s)).
Proof.
  assert (Hpair : forall r, fst (getTFConnectivity m wl ws s) = r ->
                            getTFConnectivity m wl ws s = (r, s)).
  { intros r <-. rewrite <- (getTFConnectivity_state m wl ws s) at 3.
    apply surjective_pairing. }
  split; [|split].
  - intros ->. apply Hpair.
    destruct (cl_ s) as [cl|] eqn:Hcl.
    + now rewrite (getTF_class_run _ _ _ _ _ _ _ _ _ Ha Hsh Hcl).
    + now rewrite (getTF_single_run _ _ _ _ _ _ _ _ Ha Hsh Hcl).
  - intros Hws Hneg Hcl. apply Hpair.
    rewrite (getTF_single_run _ _ _ _ _ _ _ _ Ha Hsh Hcl).
    unfold floordiv. destruct (Z.eqb_spec ws 0); [contradiction|].
    cbn [res_bind]. unfold np_zeros.
    destruct (Z.ltb_spec ((Z.of_nat N - wl) / ws) 0); [reflexivity|lia].
  - intros cl Hws Hneg Hcl Hne. apply Hpair.
    rewrite (getTF_class_run _ _ _ _ _ _ _ _ _ Ha Hsh Hcl).
    unfold floordiv. destruct (Z.eqb_spec ws 0); [contradiction|].
    cbn [res_bind].
    destruct (unique cl) as [|c l] eqn:Hu.
    + destruct cl as [|x cl]; [contradiction|].
      assert (Hin : In x (unique (x :: cl))) by (apply unique_In; now left).
      rewrite Hu in Hin. destruct Hin.
    + cbn [res_fold res_bind]. unfold np_zeros.
      destruct (Z.ltb_spec ((Z.of_nat N - wl) / ws) 0); [reflexivity|lia].
Qed.

(** *** The loop with class labels, run forwards *)

Lemma class_writes_ok B C nfft m i M Nstep :
  forall (l : list Z) (rs : list tfarray),
    length rs = length l ->
    Forall (fun r => tf_shape r = (M, M, Nstep, nfft)) rs ->
    (i < Nstep)%nat ->
    (forall c, In c l ->
       exists v b,
         (let? con := class_model B C nfft c in call_measure con m) = Ok v /\
         setitem64 M nfft v = Ok b) ->
    exists rs',
      res_map (fun cr : Z * tfarray =>
                 let? v := (let? con := class_model B C nfft (fst cr) in
                            call_measure con m) in
                 tf_setitem (snd cr) i v) (combine l rs) = Ok rs' /\
      length rs' = length l /\
      Forall (fun r => tf_shape r = (M, M, Nstep, nfft)) rs'.
Proof.
  induction l as [|c l IH]; intros [|r rs] Hlen Hsh Hi Hval;
    try discriminate.
  - exists []. repeat split; constructor.
  - injection Hlen as Hlen. inversion Hsh as [|? ? Hr Hrs]; subst.
    destruct (Hval c) as (v & b & Hv & Hb); [now left|].
    destruct (IH rs Hlen Hrs Hi) as (rs' & Hrun & Hlen' & Hsh');
      [intros; apply Hval; now right|].
    cbn [combine res_map fst snd]. rewrite Hv. cbn [res_bind].
    unfold tf_setitem at 1. rewrite Hr.
    destruct (Nat.ltb_spec i Nstep); [|lia].
    rewrite Hb. cbn [res_bind]. rewrite Hrun. cbn [res_bind].
    eexists. split; [reflexivity|]. split; [simpl; lia|].
    constructor; [reflexivity|assumption].
Qed.

Lemma tf_class_fwd s a cl M Nstep m wl ws (rs : list tfarray) k :
  length rs = length (unique cl) ->
  Forall (fun r => tf_shape r = (M, M, Nstep, nfft_ s)) rs ->
  (k <= Nstep)%nat ->
  (forall i, (i < k)%nat -> class_window_ok s a cl M m wl ws i) ->
  exists rs',
    res_fold (tf_step_class a cl (var_order_ s) (var_delta_ s) (nfft_ s) m wl)
             (map (fun i => Z.of_nat i * ws) (seq 0 k))
             (O, combine (unique cl) rs) = Ok (k, combine (unique cl) rs') /\
    length rs' = length (unique cl) /\
    Forall (fun r => tf_shape r = (M, M, Nstep, nfft_ s)) rs'.
Proof.
  intros Hlen Hsh. induction k as [|k IH]; intros Hk Hwin.
  - exists rs. repeat split; assumption.
  - destruct IH as (rs1 & Hrun & Hlen1 & Hsh1); [lia|intros; apply Hwin; lia|].
    rewrite seq_S, map_app, res_fold_app, Hrun.
    cbn [res_bind map res_fold Nat.add].
    destruct (Hwin k) as (data & bc & Hdata & Hfit & Hval); [lia|].
    unfold tf_step_class. rewrite Hdata. cbn [res_bind]. rewrite Hfit.
    cbn [res_bind].
    rewrite (tf_class_pass _ _ _ _ _ _ _ (unique_NoDup cl) Hlen1).
    destruct (class_writes_ok (fst bc) (snd bc) (nfft_ s) m k M Nstep
                (unique cl) rs1 Hlen1 Hsh1) as (rs2 & Hw & Hlen2 & Hsh2);
      [lia|exact Hval|].
    rewrite Hw. cbn [res_bind]. exists rs2. repeat split; assumption.
Qed.

(** X2.  The window-count defect with class labels: with at least one label, a
    positive step that does not divide N - winlen > 0, and every window
    fitting, evaluating and converting for every label, the loop makes one
    pass more than the per-label arrays have slots and the call ends in
    the [IndexError] of the first write of that pass. *)
Theorem tf_window_count_mismatch_with_labels (s : SCoT) (a : array3 scalar)
    (N M T : nat) (cl : list Z) (m : string) (wl ws : Z)
    (Ha : activations_ s = Some a) (Hsh : shape3 a = (N, M, T))
    (Hcl : cl_ s = Some cl) (Hne : cl <> [])
    (Hws : 0 < ws) (Hwl : wl < Z.of_nat N)
    (Hrem : (Z.of_nat N - wl) mod ws <> 0)
    (Hwin : forall i, (i <= window_count N wl ws)%nat ->
       class_window_ok s a cl M m wl ws i) :
  getTFConnectivity m wl ws s = (Raise IndexError, s).
Proof.
  rewrite (surjective_pairing (getTFConnectivity m wl ws s)),
    getTFConnectivity_state. f_equal.
  rewrite (getTF_class_run _ _ _ _ _ _ _ _ _ Ha Hsh Hcl).
  unfold floordiv. destruct (Z.eqb_spec ws 0); [lia|]. cbn [res_bind].
  assert (Hpos : 0 <= (Z.of_nat N - wl) / ws) by (apply Z.div_pos; lia).
  unfold dict.
  rewrite (res_fold_build
             (fun _ => np_zeros M ((Z.of_nat N - wl) / ws) (nfft_ s)))
    by (auto using unique_NoDup).
  destruct (res_map_total
              (fun _ : Z => np_zeros M ((Z.of_nat N - wl) / ws) (nfft_ s))
              (unique cl)) as [zs Hzs].
  { intros c _. unfold np_zeros.
    destruct (Z.ltb_spec ((Z.of_nat N - wl) / ws) 0); [lia|]. eauto. }
  rewrite Hzs. cbn [res_bind app].
  assert (Hlenz : length zs = length (unique cl))
    by (now apply res_map_length in Hzs).
  assert (Hshz : Forall (fun r => tf_shape r =
                           (M, M, window_count N wl ws, nfft_ s)) zs).
  { unfold tfarray in *.
    apply List.Forall_forall. intros z Hz. apply In_nth_error in Hz as [j Hj].
    assert (Hjl : (j < length (unique cl))%nat).
    { rewrite <- Hlenz. apply nth_error_Some. intros Hn.
      rewrite Hn in Hj. discriminate. }
    destruct (nth_error (unique cl) j) as [c|] eqn:Hc;
      [|apply nth_error_None in Hc; lia].
    destruct (res_map_nth _ _ _ j c Hzs Hc) as (z' & Hz' & Hnz).
    rewrite Hj in Hz'. injection Hz' as <-.
    now apply np_zeros_ok in Hnz as (_ & Hs & _). }
  rewrite py_range_positive by assumption. cbn [res_bind].
  rewrite range_len_remainder by lia.
  replace (Z.to_nat ((Z.of_nat N - wl) / ws + 1))
    with (S (window_count N wl ws)) by (unfold window_count; lia).
  rewrite seq_S, map_app, res_fold_app.
  destruct (tf_class_fwd s a cl M (window_count N wl ws) m wl ws zs
              (window_count N wl ws) Hlenz Hshz)
    as (rs & Hrun & Hlen & Hshs); [lia|intros; apply Hwin; lia|].
  unfold tfarray, dict in *. rewrite Hrun. cbn [res_bind map res_fold Nat.add].
  destruct (Hwin (window_count N wl ws)) as (data & bc & Hdata & Hfit & Hval);
    [lia|].
  unfold tf_step_class. rewrite Hdata. cbn [res_bind]. rewrite Hfit.
  cbn [res_bind].
  rewrite (tf_class_pass _ _ _ _ _ _ _ (unique_NoDup cl) Hlen).
  destruct (unique cl) as [|c l] eqn:Hu.
  { destruct cl as [|x cl']; [contradiction|].
    assert (Hin : In x (unique (x :: cl'))) by (apply unique_In; now left).
    rewrite Hu in Hin. destruct Hin. }
  destruct rs as [|r rs]; [discriminate|].
  inversion Hshs as [|? ? Hr _]; subst.
  destruct (Hval c) as (v & b & Hv & _); [now left|].
  cbn [combine res_map fst snd]. rewrite Hv. cbn [res_bind].
  unfold tf_setitem at 1. rewrite Hr. rewrite Nat.ltb_irrefl. reflexivity.
Qed.

End Windows2.

Section FrontendFacts.
Context {E : Collaborators} {P : Pyplot}.

(** ** The front ends, step by step *)

Lemma pfold_app {X A} (body : A -> X -> PM A) l1 l2 acc st :
  pfold body (l1 ++ l2) acc st =
  match pfold body l1 acc st with
  | (Returned a, st') => pfold body l2 a st'
  | (Raised e, st') => (Raised e, st')
  end.
Proof.
  revert acc st. induction l1 as [|x l1 IH]; intros acc st; [reflexivity|].
  cbn [app pfold]. unfold pbind.
  destruct (body acc x st) as [[a|e] st']; [apply IH|reflexivity].
Qed.

Lemma subplots_app tr1 tr2 : subplots (tr1 ++ tr2) = subplots tr1 ++ subplots tr2.
Proof. unfold subplots. apply flat_map_app. Qed.

Lemma scale_limits_state gs st :
  snd (scale_limits gs st) = st.
Proof.
  destruct st as [s tr]. unfold scale_limits.
  destruct gs as [g|]; [|reflexivity].
  destruct (Qeq_bool g 0); [reflexivity|].
  unfold pbind, pget, call, lift, pret. cbn [fst snd].
  destruct (percentile_abs (unmixmaps_ s) g); [|reflexivity].
  destruct (percentile_abs (mixmaps_ s) g); reflexivity.
Qed.

(** A cell whose map is in the cache. *)
Lemma plot_cell_run grid index (maps : SCoT -> list scalp_map) m cr axes
    s t tr mp :
  topo_ s = Some t -> nth_error (maps s) m = Some mp ->
  plot_cell grid index maps m cr axes (s, tr) =
  (Returned (axes ++ [index]),
   (set_topo_ (Some (set_map mp t)) s,
    tr ++ [Subplot 2 grid index; PlotMap (set_map mp t) cr;
           PlotLocations (set_map mp t); PlotHead (set_map mp t)])).
Proof.
  intros Ht Hm.
  unfold plot_cell, topo_set_map, pbind, emit, pget, call, lift, modify, pret,
    list_item.
  cbn [fst snd]. rewrite Hm. cbn [fst snd]. rewrite Ht. cbn [fst snd].
  now rewrite <- !app_assoc.
Qed.

(** A cell whose map is not: the subplot is made, then the subscript
    raises. *)
Lemma plot_cell_fail grid index (maps : SCoT -> list scalp_map) m cr axes
    s tr :
  nth_error (maps s) m = None ->
  plot_cell grid index maps m cr axes (s, tr) =
  (Raised (Inner IndexError), (s, tr ++ [Subplot 2 grid index])).
Proof.
  intros Hm.
  unfold plot_cell, pbind, emit, pget, call, lift, list_item.
  cbn [fst snd]. rewrite Hm. reflexivity.
Qed.

Lemma plot_component_run grid lim axes m s t tr um mm :
  topo_ s = Some t ->
  nth_error (unmixmaps_ s) m = Some um ->
  nth_error (mixmaps_ s) m = Some mm ->
  exists t' tr',
    plot_component grid lim axes m (s, tr) =
    (Returned (axes ++ [m + 1; grid + m + 1]%nat),
     (set_topo_ (Some t') s, tr ++ tr')) /\
    subplots tr' = [(2, grid, m + 1); (2, grid, grid + m + 1)]%nat.
Proof.
  intros Ht Hu Hm. unfold plot_component, pbind.
  rewrite (plot_cell_run grid (m + 1) unmixmaps_ m _ axes s t tr um Ht Hu).
  rewrite (plot_cell_run grid (grid + m + 1) mixmaps_ m _ _
             (set_topo_ (Some (set_map um t)) s) (set_map um t) _ mm
             eq_refl Hm).
  exists (set_map mm (set_map um t)),
    ([Subplot 2 grid (m + 1); PlotMap (set_map um t) (option_map fst lim);
      PlotLocations (set_map um t); PlotHead (set_map um t)] ++
     [Subplot 2 grid (grid + m + 1);
      PlotMap (set_map mm (set_map um t)) (option_map snd lim);
      PlotLocations (set_map mm (set_map um t));
      PlotHead (set_map mm (set_map um t))]).
  split; [|reflexivity].
  rewrite <- (app_assoc axes), <- (app_assoc tr). reflexivity.
Qed.

Lemma plot_component_fail grid lim axes m s t tr :
  topo_ s = Some t ->
  nth_error (unmixmaps_ s) m = None \/ nth_error (mixmaps_ s) m = None ->
  fst (plot_component grid lim axes m (s, tr)) = Raised (Inner IndexError).
Proof.
  intros Ht Hshort. unfold plot_component, pbind.
  destruct (nth_error (unmixmaps_ s) m) as [um|] eqn:Hu.
  - destruct Hshort as [|Hm]; [discriminate|].
    rewrite (plot_cell_run grid (m + 1) unmixmaps_ m _ axes s t tr um Ht Hu).
    now rewrite (plot_cell_fail grid (grid + m + 1) mixmaps_ m _ _
                   (set_topo_ (Some (set_map um t)) s) _ Hm).
  - now rewrite (plot_cell_fail grid (m + 1) unmixmaps_ m _ axes s tr Hu).
Qed.

(** The first [k] components, when both caches hold that many maps. *)
Lemma plot_loop_fwd grid lim s t0 tr k :
  topo_ s = Some t0 ->
  (k <= length (unmixmaps_ s))%nat -> (k <= length (mixmaps_ s))%nat ->
  exists t' tr',
    pfold (plot_component grid lim) (seq 0 k) [] (s, tr) =
    (Returned (flat_map (fun m => [m + 1; grid + m + 1]%nat) (seq 0 k)),
     (set_topo_ (Some t') s, tr ++ tr')) /\
    subplots tr' = component_cells grid (seq 0 k).
Proof.
  intros Ht. induction k as [|k IH]; intros Hu Hm.
  - exists t0, []. rewrite app_nil_r, (set_topo_id s (Some t0) Ht).
    split; reflexivity.
  - destruct IH as (t1 & tr1 & Hrun & Hsub); [lia|lia|].
    rewrite seq_S, pfold_app, Hrun. cbn [Nat.add pfold]. unfold pbind at 1.
    destruct (nth_error (unmixmaps_ s) k) as [um|] eqn:Hku;
      [|apply nth_error_None in Hku; lia].
    destruct (nth_error (mixmaps_ s) k) as [mm|] eqn:Hkm;
      [|apply nth_error_None in Hkm; lia].
    destruct (plot_component_run grid lim
                (flat_map (fun m => [m + 1; grid + m + 1]%nat) (seq 0 k)) k
                (set_topo_ (Some t1) s) t1 (tr ++ tr1) um mm eq_refl Hku Hkm)
      as (t2 & tr2 & Hstep & Hsub2).
    rewrite Hstep. exists t2, (tr1 ++ tr2).
    rewrite flat_map_app, app_assoc. split; [reflexivity|].
    rewrite subplots_app, Hsub, Hsub2. unfold component_cells.
    now rewrite flat_map_app.
Qed.



(** [plotComponents] with matplotlib present, as the sequence of its
    stages. *)
Lemma plotComponents_run gs s tr :
  plotComponents true gs (s, tr) =
  match unmixing_ s, mixing_ s with
  | None, None =>
      (Raised (Inner (RuntimeError
                        "No components available (run doMVARICA first)")),
       (s, tr))
  | _, _ =>
      match preparePlots true true s with
      | (Raise e, s1) => (Raised (Inner e), (s1, tr))
      | (Ok _, s1) =>
          match mixing_ s1 with
          | None => (Raised (Inner (AttributeError "shape")), (s1, tr))
          | Some w =>
              match scale_limits gs (s1, tr) with
              | (Raised e, st) => (Raised e, st)
              | (Returned lim, st) =>
                  match pfold (plot_component (fst (shape2 w)) lim)
                              (seq 0 (fst (shape2 w))) [] st with
                  | (Raised e, st') => (Raised e, st')
                  | (Returned axes, st') => finish_axes axes st'
                  end
              end
          end
      end
  end.
Proof.
  unfold plotComponents, pbind at 1 2, pout, pget. cbn [fst snd].
  assert (Hflag : load_global "SCoT" "_have_pyplot" (module_globals true)
                  = Returned (GBool true)) by reflexivity.
  rewrite Hflag. cbn [truthy negb fst snd].
  assert (Hrest :
    (call (preparePlots true true) >>&
     let& s1 := fun st => (Returned (fst st), st) in
     match mixing_ s1 with
     | None => praise (Inner (AttributeError "shape"))
     | Some w =>
         let grid := fst (shape2 w) in
         let& lim := scale_limits gs in
         let& axes := pfold (plot_component grid lim) (seq 0 grid) [] in
         finish_axes axes
     end) (s, tr) =
    match preparePlots true true s with
    | (Raise e, s1) => (Raised (Inner e), (s1, tr))
    | (Ok _, s1) =>
        match mixing_ s1 with
        | None => (Raised (Inner (AttributeError "shape")), (s1, tr))
        | Some w =>
            match scale_limits gs (s1, tr) with
            | (Raised e, st) => (Raised e, st)
            | (Returned lim, st) =>
                match pfold (plot_component (fst (shape2 w)) lim)
                            (seq 0 (fst (shape2 w))) [] st with
                | (Raised e, st') => (Raised e, st')
                | (Returned axes, st') => finish_axes axes st'
                end
            end
        end
    end).
  { unfold pbind at 1, call. cbn [fst snd].
    destruct (preparePlots true true s) as [[[]|e] s1]; [|reflexivity].
    unfold pbind at 1. cbn [fst snd].
    destruct (mixing_ s1) as [w|]; [|reflexivity].
    cbv zeta. unfold pbind at 1.
    destruct (scale_limits gs (s1, tr)) as [[lim|e] st]; [|reflexivity].
    unfold pbind at 1. reflexivity. }
  destruct (unmixing_ s), (mixing_ s); try exact Hrest. reflexivity.
Qed.

End FrontendFacts.

Section FrontendProperties.
Context {E : Collaborators} {P : Pyplot}.


(** What [plotComponents] works with once [preparePlots] has returned. *)
Lemma prepared_state s s1 w :
  preparePlots true true s = (Ok tt, s1) -> mixing_ s = Some w ->
  mixing_ s1 = Some w /\ exists t, topo_ s1 = Some t.
Proof.
  intros Hprep Hw. split.
  - destruct (preparePlots_only true true s) as (Hp & _).
    rewrite Hprep in Hp. cbn [snd] in Hp.
    now rewrite (plots_only_mixing _ _ Hp).
  - destruct (preparePlots_cases true true s)
      as [[Hl _]|(t & _ & Ht & _)].
    + rewrite (preparePlots_none _ _ _ Hl) in Hprep. discriminate.
    + rewrite Hprep in Ht. cbn [snd] in Ht. eauto.
Qed.

Lemma plotComponents_prepared gs s s1 tr w lim :
  preparePlots true true s = (Ok tt, s1) -> mixing_ s = Some w ->
  fst (scale_limits gs (s1, tr)) = Returned lim ->
  plotComponents true gs (s, tr) =
  match pfold (plot_component (fst (shape2 w)) lim)
              (seq 0 (fst (shape2 w))) [] (s1, tr) with
  | (Raised e, st') => (Raised e, st')
  | (Returned axes, st') => finish_axes axes st'
  end.
Proof.
  intros Hprep Hw Hlim.
  destruct (prepared_state s s1 w Hprep Hw) as [Hw1 _].
  rewrite plotComponents_run, Hw, Hprep, Hw1.
  pose proof (scale_limits_state gs (s1, tr)) as Hst.
  destruct (scale_limits gs (s1, tr)) as [[lim'|e] st]; cbn [fst snd] in *;
    [|discriminate].
  injection Hlim as ->. subst st.
  destruct (unmixing_ s); reflexivity.
Qed.

(** X13.  The three front ends and the names they read.  [plotConnectivity]
    tests [__have_pyplot], which inside class [SCoT] is the global
    [_SCoT__have_pyplot]; the module binds [_have_pyplot] only, so every
    call ends in [NameError], with matplotlib or without, before anything
    is drawn or assigned.  [showPlots] has no guard: without matplotlib
    its [plt] is unbound. *)
Theorem frontend_name_errors (have_pyplot : bool) (measure : string)
    (s : SCoT) (tr : list draw) :
  plotConnectivity have_pyplot measure (s, tr) =
    (Raised (NameError "_SCoT__have_pyplot"), (s, tr)) /\
  showPlots false (s, tr) = (Raised (NameError "plt"), (s, tr)) /\
  showPlots true (s, tr) = (Returned tt, (s, tr ++ [ShowFigure])).
Proof.
  split; [destruct have_pyplot; reflexivity|]. split; reflexivity.
Qed.

(** X14.  The guards of [plotComponents], in the order they are tested: without
    matplotlib the call is an [ImportError] whatever the object holds;
    with it, an object without transforms is refused before the sensor
    locations are looked at; and with transforms but without locations
    the error is the one of [preparePlots].  In all three cases neither
    the object nor the figure is touched. *)
Theorem plotComponents_guards (gs : option Q) (s : SCoT) (tr : list draw) :
  plotComponents false gs (s, tr) =
    (Raised (ImportError "matplotlib.pyplot is required for plotting"),
     (s, tr)) /\
  (unmixing_ s = None -> mixing_ s = None ->
   plotComponents true gs (s, tr) =
     (Raised (Inner (RuntimeError
                       "No components available (run doMVARICA first)")),
      (s, tr))) /\
  (unmixing_ s <> None \/ mixing_ s <> None -> locations_ s = None ->
   plotComponents true gs (s, tr) =
     (Raised (Inner (RuntimeError "Need sensor locations for plotting")),
      (s, tr))).
Proof.
  split; [reflexivity|]. split.
  - intros Hu Hm. now rewrite plotComponents_run, Hu, Hm.
  - intros Hsome Hloc. rewrite plotComponents_run.
    rewrite (preparePlots_none true true s Hloc).
    destruct (unmixing_ s), (mixing_ s); try reflexivity.
    destruct Hsome; contradiction.
Qed.

(** X15.  Stale caches break the figure.  [plotComponents] draws as many
    components as the mixing matrix has rows, but takes the maps from the
    caches as [preparePlots] left them; when a cache holds fewer maps (they
    were drawn from an earlier decomposition with fewer components), or
    when there is no component at all, the call ends in [IndexError]. *)
Theorem plotComponents_stale_maps (gs : option Q) (s s1 : SCoT)
    (tr : list draw) (w : matrix scalar) (lim : option (limit * limit))
    (Hprep : preparePlots true true s = (Ok tt, s1))
    (Hw : mixing_ s = Some w)
    (Hlim : fst (scale_limits gs (s1, tr)) = Returned lim)
    (Hshort : (length (unmixmaps_ s1) < fst (shape2 w))%nat \/
              (length (mixmaps_ s1) < fst (shape2 w))%nat \/
              fst (shape2 w) = 0%nat) :
  fst (plotComponents true gs (s, tr)) = Raised (Inner IndexError).
Proof.
  rewrite (plotComponents_prepared gs s s1 tr w lim Hprep Hw Hlim).
  destruct (prepared_state s s1 w Hprep Hw) as [_ [t Ht]].
  set (grid := fst (shape2 w)) in *.
  assert (Hcases : grid = 0%nat \/
            (Nat.min (length (unmixmaps_ s1)) (length (mixmaps_ s1)) < grid)%nat)
    by lia.
  destruct Hcases as [-> | Hk].
  - reflexivity.
  - set (k := Nat.min (length (unmixmaps_ s1)) (length (mixmaps_ s1))) in *.
    replace (seq 0 grid) with (seq 0 k ++ k :: seq (S k) (grid - S k)).
    2:{ rewrite cons_seq, <- seq_app. f_equal. lia. }
    rewrite pfold_app.
    destruct (plot_loop_fwd grid lim s1 t tr k Ht) as (t1 & tr1 & Hrun & _);
      [lia|lia|].
    rewrite Hrun. cbn [pfold]. unfold pbind at 1.
    pose proof (plot_component_fail grid lim
                  (flat_map (fun m => [m + 1; grid + m + 1]%nat) (seq 0 k)) k
                  (set_topo_ (Some t1) s1) t1 (tr ++ tr1) eq_refl) as Hfail.
    destruct (plot_component grid lim _ k _) as [[axes|e] st'].
    + cbn [fst] in Hfail. exfalso.
      assert (Hnone : nth_error (unmixmaps_ s1) k = None \/
                      nth_error (mixmaps_ s1) k = None).
      { destruct (Nat.min_spec (length (unmixmaps_ s1))
                    (length (mixmaps_ s1))) as [[_ Hmin]|[_ Hmin]];
          [left|right]; apply nth_error_None; unfold k; lia. }
      specialize (Hfail Hnone). discriminate.
    + cbn [fst] in *.
      assert (He : @Raised (list nat) e = Raised (Inner IndexError));
        [apply Hfail|now injection He as ->].
      cbn [unmixmaps_ mixmaps_ set_topo_].
      destruct (Nat.min_spec (length (unmixmaps_ s1))
                  (length (mixmaps_ s1))) as [[_ Hmin]|[_ Hmin]];
        [left|right]; apply nth_error_None; unfold k; lia.
Qed.


End FrontendProperties.

(** * The claims on concrete inputs *)

Module Examples.
Import Toy.
#[local] Existing Instance Toy.world.

(** Five samples, windows of two samples every two samples: Nstep is 1,
    the loop makes two passes, the second write is out of range. *)
Lemma tf_window_count_mismatch_witness :
  getTFConnectivity "DTF" 2 2 (loaded [1; 2; 3; 4; 5] None) =
  (Raise IndexError, loaded [1; 2; 3; 4; 5] None).
Proof.
  eapply (tf_window_count_mismatch (E := world) (loaded [1; 2; 3; 4; 5] None)).
  - vm_compute. reflexivity.
  - reflexivity.
  - reflexivity.
  - reflexivity.
  - reflexivity.
  - vm_compute. discriminate.
  - intros i Hi.
    assert (Hcases : i = 0%nat \/ i = 1%nat) by (vm_compute in Hi; lia).
    destruct Hcases as [-> | ->].
    + exists (VArr [(S754_finite false 6333186976120832 (-47), fzero)]),
             (VArr [(S754_finite false 11796480 (-18), fzero)]).
      split; vm_compute; reflexivity.
    + exists (VArr [(S754_finite false 7388718138720256 (-46), fzero)]),
             (VArr [(S754_finite false 13762560 (-17), fzero)]).
      split; vm_compute; reflexivity.
Defined.

(** The first of three windows of a call that returns. *)
Lemma window_independence_witness :
  exists window,
    take_rows acts5 (arange_plus 2 (Z.of_nat 0 * 1)) = Ok window /\
    (0 < 1 -> 0 <= 2 -> length (elems3 acts5) = 5%nat ->
     elems3 window =
     firstn (Z.to_nat 2) (skipn (Z.to_nat (Z.of_nat 0 * 1)) (elems3 acts5))) /\
    match out5 with
    | Single r =>
        exists v b,
          single_shot s5 window "DTF" = Ok (Single v) /\
          setitem64 1 (nfft_ s5) v = Ok b /\
          tf_slots r !! 0%nat = Some b
    | PerClass d =>
        exists vs,
          single_shot s5 window "DTF" = Ok (PerClass vs) /\
          dict_keys vs = dict_keys d /\
          forall c r, dict_get c d = Some r ->
            exists v b,
              dict_get c vs = Some v /\
              setitem64 1 (nfft_ s5) v = Ok b /\
              tf_slots r !! 0%nat = Some b
    end.
Proof.
  apply (window_independence (E := world) s5 acts5 5 1 1 "DTF" 2 1 out5 0).
  - vm_compute. reflexivity.
  - reflexivity.
  - vm_compute. reflexivity.
  - vm_compute. lia.
Defined.

(** C2 as worded fails: on the first window the measure answers
    45 + 2^-30 in binary64, the output array keeps 45 in binary32. *)
Lemma slots_not_bit_identical : ~ slots_bit_identical.
Proof.
  intros H.
  assert (Ha : activations_ s5 = Some acts5) by (vm_compute; reflexivity).
  assert (Hout : fst (getTFConnectivity "DTF" 2 1 s5) = Ok (Single r5))
    by (vm_compute; reflexivity).
  assert (Hi : (0 < window_count 5 2 1)%nat) by (vm_compute; lia).
  assert (Hw : take_rows acts5 (arange_plus 2 (Z.of_nat 0 * 1)) = Ok window5)
    by (vm_compute; reflexivity).
  assert (Hv : single_shot s5 window5 "DTF" = Ok (Single v5))
    by (vm_compute; reflexivity).
  pose proof (H s5 acts5 5%nat 1%nat 1%nat "DTF" 2 1 r5 0%nat window5 v5
                Ha eq_refl Hout Hi Hw Hv) as Hbad.
  vm_compute in Hbad. discriminate.
Qed.

(** New data after a decomposition: three samples through the stored
    one-by-one unmixing transform. *)
Lemma setData_reprojects_witness :
  exists a,
    activations_
      (snd (setData (signal [3; 4; 5]) None
              (run [OpSetData (signal [1; 2]) None; OpDoMVARICA] fresh)))
    = Some a /\
    shape3 a = (3, 1, 1)%nat /\ wf3 a = true.
Proof.
  destruct (setData_reprojects (E := world)
              (run [OpSetData (signal [1; 2]) None; OpDoMVARICA] fresh)
              (signal [3; 4; 5]) None) as [H _].
  - apply run_reachable. constructor.
  - destruct (H (mk_matrix (1, 1)%nat [[3]]) 3%nat 1%nat 1%nat 1%nat)
      as (a & _ & Ha & _ & Hsh & Hwf & _);
      [vm_compute; reflexivity|reflexivity|reflexivity|].
    exists a. auto.
Defined.

(** A fit with labels 7, 3, 7 on three trials. *)
Lemma fit_mode_consistency_witness :
  all_class_mapped
    (snd (fitVAR (run [OpSetData (Nd3 (mk_array3 (2, 1, 3)%nat
                                         [[[1; 2; 3]]; [[4; 5; 6]]]))
                                 (Some [7; 3; 7]);
                       OpDoMVARICA;
                       OpSetData (Nd3 (mk_array3 (2, 1, 3)%nat
                                         [[[1; 2; 3]]; [[4; 5; 6]]]))
                                 (Some [7; 3; 7])] fresh))).
Proof.
  set (s := run _ fresh).
  assert (Hfit : fitVAR s = (Ok tt, snd (fitVAR s)))
    by (apply returns_pair; vm_compute; reflexivity).
  destruct (fit_mode_consistency (E := world) s (snd (fitVAR s)) (or_intror Hfit))
    as (_ & _ & H).
  destruct (H Hfit) as (_ & Hclass & _).
  apply Hclass. vm_compute. discriminate.
Defined.

(** Data set but nothing decomposed or fitted. *)
Lemma precondition_errors_witness :
  fitVAR (run [OpSetData (signal [1; 2]) None] fresh) =
  (Raise fitVAR_error, run [OpSetData (signal [1; 2]) None] fresh) /\
  getConnectivity "DTF" (run [OpSetData (signal [1; 2]) None] fresh) =
  (Raise getConnectivity_error, run [OpSetData (signal [1; 2]) None] fresh).
Proof.
  destruct (precondition_errors (E := world) 1 None (Some tt) (99 # 100) 1 None
              [OpSetData (signal [1; 2]) None] "DTF") as [H1 H2].
  split; [apply H1; right; reflexivity|apply H2; reflexivity].
Defined.

(** [setData] then [doMVARICA] on a fresh object. *)
Lemma decomposition_keeps_activations_witness :
  activations_ decomposed = None /\
  fitVAR (run [OpFitVAR; OpGetConnectivity "DTF"] decomposed) =
  (Raise fitVAR_error, run [OpFitVAR; OpGetConnectivity "DTF"] decomposed).
Proof.
  destruct (decomposition_keeps_activations (E := world)
              1 None (Some tt) (99 # 100) 1 None (signal [1; 2]) None decomposed)
    as (_ & Ha & _ & _ & _ & Hops & _).
  - apply (returns_pair doMVARICA). vm_compute. reflexivity.
  - split; [exact Ha|].
    destruct (Hops [OpFitVAR; OpGetConnectivity "DTF"] eq_refl) as [Hfit _].
    exact Hfit.
Defined.

(** The second of three windows is all zero and its fit raises. *)
Lemma tf_failure_propagates_witness :
  getTFConnectivity "DTF" 2 1 (loaded [1; 0; 0; 4; 5] None) =
  (Raise (LinAlgError "singular matrix"), loaded [1; 0; 0; 4; 5] None).
Proof.
  destruct (tf_failure_propagates (E := world) (loaded [1; 0; 0; 4; 5] None)
              (mk_array3 (5, 1, 1)%nat [[[10]]; [[0]]; [[0]]; [[40]]; [[50]]])
              5 1 1 "DTF" 2 1) as (Hst & _ & Herr).
  - vm_compute. reflexivity.
  - reflexivity.
  - assert (Hfst : fst (getTFConnectivity "DTF" 2 1 (loaded [1; 0; 0; 4; 5] None))
                   = Raise (LinAlgError "singular matrix")).
    { apply (Herr [0] 1 [2] (mk_array3 (2, 1, 1)%nat [[[0]]; [[0]]])).
      - discriminate.
      - vm_compute. reflexivity.
      - vm_compute. reflexivity.
      - vm_compute. reflexivity.
      - vm_compute. reflexivity. }
    rewrite (surjective_pairing (getTFConnectivity _ _ _ _)), Hst, Hfst.
    reflexivity.
Defined.

(** A fitted single model asked for a name it does not have. *)
Lemma getConnectivity_dispatch_witness :
  snd (getConnectivity "PDC" (snd (fitVAR s5))) = snd (fitVAR s5) /\
  match connectivity_ (snd (fitVAR s5)) with
  | Some (Single con) =>
      fst (getConnectivity "PDC" (snd (fitVAR s5))) =
      match py_getattr con "PDC" with
      | None => Raise (AttributeError "PDC")
      | Some (Ok v) => Ok (Single v)
      | Some (Raise e) => Raise e
      end
  | Some (PerClass d) =>
      exists l,
        cl_ (snd (fitVAR s5)) = Some l /\
        dict_keys d = unique l /\
        StronglySorted Z.lt (unique l) /\
        fst (getConnectivity "PDC" (snd (fitVAR s5))) =
        (let? vs := res_map (fun con => call_measure con "PDC") (map snd d) in
         Ok (PerClass (combine (unique l) vs)))
  | None => False
  end.
Proof.
  apply (getConnectivity_dispatch (E := world) (snd (fitVAR s5)) "PDC").
  - apply (reach_step OpFitVAR). apply run_reachable. constructor.
  - vm_compute. discriminate.
Defined.

(** C8 as worded fails: [__repr__] is no measure of the model, yet the
    lookup finds it and the call returns its string. *)
Lemma getConnectivity_accepts_other_attributes :
  ~ unsupported_measures_fail measures.
Proof.
  intros H.
  destruct (H (snd (fitVAR s5)) "__repr__") as [e He].
  - apply (reach_step OpFitVAR). apply run_reachable. constructor.
  - vm_compute. discriminate.
  - vm_compute. intros [H1|[]]. discriminate.
  - vm_compute in He. discriminate.
Qed.

(** Maps prepared once stay through later calls. *)
Lemma plot_cache_lifecycle_witness :
  preparePlots true true (snd (preparePlots true true decomposed)) =
  (Ok tt, snd (preparePlots true true decomposed)).
Proof.
  destruct (plot_cache_lifecycle (E := world)
              (snd (preparePlots true true decomposed)) true true)
    as (_ & _ & _ & H & _).
  apply (H tt [3]); vm_compute; (reflexivity || discriminate).
Defined.

(** C10 as worded fails: maps drawn from a first decomposition are still
    the ones held after a second decomposition on other data. *)
Lemma decomposition_keeps_stale_maps : ~ decomposition_invalidates_maps.
Proof.
  intros H.
  set (s := run [OpSetData (signal [1; 2]) None; OpDoMVARICA;
                 OpPreparePlots true true; OpSetData (signal [3; 4]) None]
                fresh).
  assert (Hreach : reachable s) by (apply run_reachable; constructor).
  assert (Hdo : doMVARICA s = (Ok tt, snd (doMVARICA s)))
    by (apply returns_pair; vm_compute; reflexivity).
  assert (Hmix : mixing_ (snd (doMVARICA s)) = Some (mk_matrix (1, 1)%nat [[7]]))
    by (vm_compute; reflexivity).
  assert (Hloc : locations_ (snd (doMVARICA s)) = Some tt)
    by (vm_compute; reflexivity).
  pose proof (H s (snd (doMVARICA s)) (mk_matrix (1, 1)%nat [[7]]) tt
                Hreach Hdo Hmix Hloc) as Hmaps.
  vm_compute in Hmaps. discriminate.
Qed.

End Examples.

(** * The further properties on concrete inputs *)

Module Scenarios.
Import Toy Toy2.

(** After [setData] and [doMVARICA] the two transforms exist together. *)
Lemma reachable_attributes_in_step_witness :
  mixing_ (run [OpSetData (signal [1; 2]) None; OpDoMVARICA] fresh) = None <->
  unmixing_ (run [OpSetData (signal [1; 2]) None; OpDoMVARICA] fresh) = None.
Proof.
  destruct (reachable_attributes_in_step (E := world)
              (run [OpSetData (signal [1; 2]) None; OpDoMVARICA] fresh))
    as (_ & H & _).
  - apply run_reachable. constructor.
  - exact H.
Defined.

(** A decomposed object with sensor locations. *)
Lemma preparePlots_returns_witness :
  fst (preparePlots true true
         (run [OpSetData (signal [1; 2]) None; OpDoMVARICA] fresh)) = Ok tt /\
  topo_ (snd (preparePlots true true
                (run [OpSetData (signal [1; 2]) None; OpDoMVARICA] fresh)))
  <> None.
Proof.
  apply (preparePlots_returns (E := world)
           (run [OpSetData (signal [1; 2]) None; OpDoMVARICA] fresh) tt
           true true).
  - apply run_reachable. constructor.
  - vm_compute. reflexivity.
  - vm_compute. discriminate.
Defined.

(** Data set, nothing decomposed. *)
Lemma preparePlots_before_decomposition_witness :
  preparePlots true true (run [OpSetData (signal [1; 2]) None] fresh) =
  (Raise (AttributeError "shape"),
   set_topo_ (Some (topo_ready (E := world) tt
                      (run [OpSetData (signal [1; 2]) None] fresh)))
     (run [OpSetData (signal [1; 2]) None] fresh)).
Proof.
  apply (preparePlots_before_decomposition (E := world)
           (run [OpSetData (signal [1; 2]) None] fresh) tt true).
  - vm_compute. reflexivity.
  - vm_compute. reflexivity.
  - vm_compute. reflexivity.
Defined.

(** One component of two channels: one map in each cache. *)
Lemma preparePlots_one_map_per_component_witness :
  length (mixmaps_ (snd (preparePlots true true weak))) = 1%nat /\
  length (unmixmaps_ (snd (preparePlots true true weak))) = 1%nat.
Proof.
  destruct (preparePlots_one_map_per_component (E := world_rv) weak tt
              (mk_matrix (1, 2)%nat [[1; 2]])
              (mk_matrix (2, 1)%nat [[1]; [2]]))
    as (_ & _ & _ & H1 & H2).
  - vm_compute. reflexivity.
  - vm_compute. reflexivity.
  - vm_compute. reflexivity.
  - vm_compute. reflexivity.
  - vm_compute. reflexivity.
  - split; [exact H1|exact H2].
Defined.

(** Two-channel data handed to an object whose unmixing transform has one
    channel. *)
Lemma setData_failed_projection_witness :
  fst (setData (E := world) (Nd3 (mk_array3 (1, 2, 1)%nat [[[1]; [2]]])) None
         decomposed)
  = Raise ValueError /\
  activations_
    (snd (setData (E := world) (Nd3 (mk_array3 (1, 2, 1)%nat [[[1]; [2]]]))
            None decomposed))
  = activations_ decomposed.
Proof.
  destruct (setData_failed_projection (E := world) decomposed
              (Nd3 (mk_array3 (1, 2, 1)%nat [[[1]; [2]]])) None
              (mk_matrix (1, 1)%nat [[3]]) ValueError)
    as (H1 & _ & _ & H2 & _).
  - vm_compute. reflexivity.
  - vm_compute. reflexivity.
  - split; [exact H1|exact H2].
Defined.

(** The decomposition of the running example: the regularisation kept
    is the one [mvarica] reports. *)
Lemma doMVARICA_stores_witness :
  exists result : mvarica_result Z Z nat Z,
    unmixing_ decomposed = Some (r_unmixing result) /\
    var_delta_ decomposed = r_delta result.
Proof.
  destruct (doMVARICA_stores (E := world)
              (snd (setData (signal [1; 2]) None fresh)) decomposed)
    as (X & rv & nc & result & _ & _ & _ & _ & _ & Hu & Hd & _).
  - apply (returns_pair doMVARICA). vm_compute. reflexivity.
  - exists result. split; [exact Hu|exact Hd].
Defined.

(** The running example before and after a fit. *)
Lemma fit_reads_only_its_inputs_witness :
  fst (getTFConnectivity "DTF" 2 1 (snd (fitVAR s5))) =
  fst (getTFConnectivity "DTF" 2 1 s5).
Proof.
  destruct (fit_reads_only_its_inputs (E := world) s5 (snd (fitVAR s5))
              "DTF" 2 1) as (_ & _ & H).
  - unfold same_fit_inputs.
    split; [|split; [|split; [|split]]]; vm_compute; reflexivity.
  - exact H.
Defined.

(** The whole pipeline on two samples. *)
Lemma pipeline_returns_witness :
  exists s1 s2 s3 s4,
    setData (signal [1; 2]) None fresh = (Ok tt, s1) /\
    doMVARICA s1 = (Ok tt, s2) /\
    setData (signal [1; 2]) None s2 = (Ok tt, s3) /\
    fitVAR s3 = (Ok tt, s4) /\
    getConnectivity "DTF" s4 =
      (Ok (Single (VArr [(to_b64 (9 * 2 ^ 30 + 1) (-30), fzero)])), s4) /\
    activations_ s4 = Some (mk_array3 (2, 1, 1)%nat [[[3]]; [[6]]]).
Proof.
  apply (pipeline_returns (E := world) 1 None (Some tt) (99 # 100) 1 None
           (signal [1; 2])
           (mk_mvarica_result (mk_matrix (1, 1)%nat [[3]])
              (mk_matrix (1, 1)%nat [[3]]) 3 2%nat (Some 0))
           (mk_array3 (2, 1, 1)%nat [[[3]]; [[6]]]) (9, 2%nat) "DTF"
           (VArr [(to_b64 (9 * 2 ^ 30 + 1) (-30), fzero)])).
  - vm_compute. reflexivity.
  - vm_compute. reflexivity.
  - vm_compute. reflexivity.
  - vm_compute. reflexivity.
Defined.

(** Five samples, windows of two samples every sample: three slots. *)
Lemma getTFConnectivity_returns_when_divisible_witness :
  exists r,
    getTFConnectivity "DTF" 2 1 s5 = (Ok (Single r), s5) /\
    tf_shape r = (1%nat, 1%nat, window_count 5 2 1, nfft_ s5) /\
    length (tf_slots r) = window_count 5 2 1.
Proof.
  apply (getTFConnectivity_returns_when_divisible (E := world) s5 acts5
           5 1 1 "DTF" 2 1).
  - vm_compute. reflexivity.
  - reflexivity.
  - vm_compute. reflexivity.
  - reflexivity.
  - vm_compute. discriminate.
  - reflexivity.
  - intros i Hi.
    assert (Hcases : i = 0%nat \/ i = 1%nat \/ i = 2%nat)
      by (vm_compute in Hi; lia).
    destruct Hcases as [-> | [-> | ->]].
    + exists (VArr [(to_b64 (45 * 2 ^ 30 + 1) (-30), fzero)]),
             (VArr [(to_b32 (to_b64 (45 * 2 ^ 30 + 1) (-30)), fzero)]).
      split; vm_compute; reflexivity.
    + exists (VArr [(to_b64 (75 * 2 ^ 30 + 1) (-30), fzero)]),
             (VArr [(to_b32 (to_b64 (75 * 2 ^ 30 + 1) (-30)), fzero)]).
      split; vm_compute; reflexivity.
    + exists (VArr [(to_b64 (105 * 2 ^ 30 + 1) (-30), fzero)]),
             (VArr [(to_b32 (to_b64 (105 * 2 ^ 30 + 1) (-30)), fzero)]).
      split; vm_compute; reflexivity.
Defined.

(** A zero step, and a window of seven samples on a signal of five. *)
Lemma getTFConnectivity_rejects_bad_windows_witness :
  getTFConnectivity "DTF" 2 0 s5 = (Raise ZeroDivisionError, s5) /\
  getTFConnectivity "DTF" 7 1 s5 = (Raise ValueError, s5).
Proof.
  split.
  - destruct (getTFConnectivity_rejects_bad_windows (E := world) s5 acts5
                5 1 1 "DTF" 2 0) as (H & _).
    + vm_compute. reflexivity.
    + reflexivity.
    + apply H. reflexivity.
  - destruct (getTFConnectivity_rejects_bad_windows (E := world) s5 acts5
                5 1 1 "DTF" 7 1) as (_ & H & _).
    + vm_compute. reflexivity.
    + reflexivity.
    + apply H.
      * discriminate.
      * vm_compute. reflexivity.
      * vm_compute. reflexivity.
Defined.

(** Labelled trials, windows of two samples every two samples. *)
Lemma tf_window_count_mismatch_with_labels_witness :
  getTFConnectivity "DTF" 2 2 labelled = (Raise IndexError, labelled).
Proof.
  apply (tf_window_count_mismatch_with_labels (E := world) labelled
           acts_labelled 5 1 3 [7; 3; 7] "DTF" 2 2).
  - vm_compute. reflexivity.
  - reflexivity.
  - vm_compute. reflexivity.
  - discriminate.
  - reflexivity.
  - vm_compute. reflexivity.
  - vm_compute. discriminate.
  - intros i Hi.
    assert (Hcases : i = 0%nat \/ i = 1%nat) by (vm_compute in Hi; lia).
    destruct Hcases as [-> | ->].
    + exists (window_labelled 0), (fit_labelled 0).
      split; [vm_compute; reflexivity|]. split; [vm_compute; reflexivity|].
      intros c Hc.
      assert (Hc' : c = 3 \/ c = 7) by (vm_compute in Hc; intuition).
      destruct Hc' as [-> | ->].
      * exists (VArr [(to_b64 (378 * 2 ^ 30 + 1) (-30), fzero)]),
               (VArr [(to_b32 (to_b64 (378 * 2 ^ 30 + 1) (-30)), fzero)]).
        split; vm_compute; reflexivity.
      * exists (VArr [(to_b64 (756 * 2 ^ 30 + 1) (-30), fzero)]),
               (VArr [(to_b32 (to_b64 (756 * 2 ^ 30 + 1) (-30)), fzero)]).
        split; vm_compute; reflexivity.
    + exists (window_labelled 1), (fit_labelled 1).
      split; [vm_compute; reflexivity|]. split; [vm_compute; reflexivity|].
      intros c Hc.
      assert (Hc' : c = 3 \/ c = 7) by (vm_compute in Hc; intuition).
      destruct Hc' as [-> | ->].
      * exists (VArr [(to_b64 (486 * 2 ^ 30 + 1) (-30), fzero)]),
               (VArr [(to_b32 (to_b64 (486 * 2 ^ 30 + 1) (-30)), fzero)]).
        split; vm_compute; reflexivity.
      * exists (VArr [(to_b64 (972 * 2 ^ 30 + 1) (-30), fzero)]),
               (VArr [(to_b32 (to_b64 (972 * 2 ^ 30 + 1) (-30)), fzero)]).
        split; vm_compute; reflexivity.
Defined.

(** One map in each cache, two components in the transforms. *)
Lemma plotComponents_stale_maps_witness :
  fst (plotComponents (P := figure) true None (restaged, []))
  = Raised (Inner IndexError).
Proof.
  apply (plotComponents_stale_maps (E := world_rv) (P := figure) None
           restaged (snd (preparePlots true true restaged)) []
           (mk_matrix (2, 2)%nat [[1; 2]; [2; 3]]) None).
  - apply (returns_pair (preparePlots true true)). vm_compute. reflexivity.
  - vm_compute. reflexivity.
  - reflexivity.
  - left. vm_compute. lia.
Defined.


End Scenarios.
